(** * Multi-factor synthesis (jaqs/research/signaldigger/multi_factor.py)

    A shallow embedding of the weight schemes, the IC estimator, the
    orthogonalizer and the combiner, and the properties of the design
    document that can be decided on them.

    Numbers.  The Python code computes with IEEE-754 doubles.  They are
    modelled as exact rationals extended with the two infinities and NaN:
    the special values follow IEEE-754 (x/0, inf-inf, 0*inf, NaN
    propagation), rounding and overflow are not modelled, and there is a
    single zero (the zero of a sum is the positive one).

    Library code (numpy, pandas, scipy, sklearn) is modelled by what its
    documentation says.  What is left abstract is a Variable of a Section
    or the field of a class of collaborators; the instances further down
    serve the examples only.

    Factor panels keep their dates ascending and their asset columns
    unique, so a panel is a set of dates, a set of assets and a finite map
    of cells; an ICMatrix or WeightMatrix is a list of dated rows, since
    the weight schemes work on row positions.

    The functions that write into the caller's mapping of factors return
    the mapping next to their result: what was written before an error
    stays written. *)

From Stdlib Require Import ZArith QArith Qfield Lia.
From stdpp Require Import gmap strings list fin_maps sorting.

Local Close Scope Q_scope.
Local Open Scope Z_scope.
Local Open Scope list_scope.

(* ===================================================================== *)
(** ** Extended rationals: the values of a float64 cell                  *)
(* ===================================================================== *)

Inductive fnum : Type :=
| Fin (q : Q)
| PInf
| NInf
| NaN.

Definition isnan (x : fnum) : bool :=
  match x with NaN => true | _ => false end.

Definition isfinite (x : fnum) : bool :=
  match x with Fin _ => true | _ => false end.

Definition fzero : fnum := Fin 0%Q.
Definition fone : fnum := Fin 1%Q.

Definition fneg (x : fnum) : fnum :=
  match x with
  | Fin a => Fin (- a)%Q
  | PInf => NInf
  | NInf => PInf
  | NaN => NaN
  end.

Definition fadd (x y : fnum) : fnum :=
  match x, y with
  | NaN, _ | _, NaN => NaN
  | Fin a, Fin b => Fin (a + b)%Q
  | PInf, NInf | NInf, PInf => NaN
  | PInf, _ | _, PInf => PInf
  | NInf, _ | _, NInf => NInf
  end.

Definition fsub (x y : fnum) : fnum := fadd x (fneg y).

(** The sign of an infinity times a finite factor; inf * 0 is NaN. *)
Definition inf_times (pos : bool) (b : Q) : fnum :=
  match (Qnum b ?= 0)%Z with
  | Eq => NaN
  | Gt => if pos then PInf else NInf
  | Lt => if pos then NInf else PInf
  end.

Definition fmul (x y : fnum) : fnum :=
  match x, y with
  | NaN, _ | _, NaN => NaN
  | Fin a, Fin b => Fin (a * b)%Q
  | PInf, Fin b | Fin b, PInf => inf_times true b
  | NInf, Fin b | Fin b, NInf => inf_times false b
  | PInf, PInf | NInf, NInf => PInf
  | PInf, NInf | NInf, PInf => NaN
  end.

(** numpy's true division: a nonzero finite number over zero is an
    infinity of its sign, 0/0 and inf/inf are NaN, finite/inf is 0. *)
Definition fdiv (x y : fnum) : fnum :=
  match x, y with
  | NaN, _ | _, NaN => NaN
  | Fin a, Fin b =>
      if Qeq_bool b 0 then
        match (Qnum a ?= 0)%Z with
        | Eq => NaN
        | Gt => PInf
        | Lt => NInf
        end
      else Fin (a / b)%Q
  | Fin _, (PInf | NInf) => Fin 0%Q
  | PInf, Fin b => if (Qnum b <? 0)%Z then NInf else PInf
  | NInf, Fin b => if (Qnum b <? 0)%Z then PInf else NInf
  | (PInf | NInf), (PInf | NInf) => NaN
  end.

(** Equality of cell values: rationals up to [Qeq], the rest as it is. *)
Definition feq (x y : fnum) : Prop :=
  match x, y with
  | Fin a, Fin b => (a == b)%Q
  | PInf, PInf | NInf, NInf | NaN, NaN => True
  | _, _ => False
  end.

Definition feqb (x y : fnum) : bool :=
  match x, y with
  | Fin a, Fin b => Qeq_bool a b
  | PInf, PInf | NInf, NInf | NaN, NaN => true
  | _, _ => false
  end.

(** np.sum over a one-dimensional array; the sum of nothing is 0.0. *)
Definition fsum (l : list fnum) : fnum := foldr fadd fzero l.

Definition of_nat (n : nat) : fnum := Fin (inject_Z (Z.of_nat n)).

(** [weight / np.sum(weight)] *)
Definition normalize (w : list fnum) : list fnum :=
  let s := fsum w in (λ x, fdiv x s) <$> w.

Definition all_finite (r : list fnum) : bool := forallb isfinite r.
Definition all_nan (r : list fnum) : bool := forallb isnan r.
Definition no_nan (r : list fnum) : bool := forallb (λ x, negb (isnan x)) r.

(** A row of undefined cells, as pandas writes it for a missing label. *)
Definition nan_row (k : nat) : list fnum := replicate k NaN.


(* ===================================================================== *)
(** ** Date-indexed tables (pandas DataFrame, as this module uses it)     *)
(* ===================================================================== *)

(** An ICMatrix or a WeightMatrix: named columns, and rows kept in index
    order, each labelled with its date (an integer such as 20160624). *)
Record DataFrame : Type := mkFrame {
  columns : list string;
  rows : list (Z * list fnum)
}.

Definition index (df : DataFrame) : list Z := fst <$> rows df.
Definition values (df : DataFrame) : list (list fnum) := snd <$> rows df.

(** [pd.DataFrame(index=idx, columns=cols)]: every cell undefined. *)
Definition empty_frame (idx : list Z) (cols : list string) : DataFrame :=
  mkFrame cols ((λ d, (d, nan_row (length cols))) <$> idx).

(** [df[df.index <= dt]] *)
Definition upto (df : DataFrame) (dt : Z) : list (Z * list fnum) :=
  List.filter (λ r, r.1 <=? dt) (rows df).

(** [.tail(n)]: the last n rows; none for n = 0; for a negative n all
    rows but the first |n| (pandas slices with [iloc[-n:]]). *)
Definition tail {A : Type} (n : Z) (l : list A) : list A :=
  if n =? 0 then []
  else if 0 <? n then drop (length l - Z.to_nat n) l
  else drop (Z.to_nat (- n)) l.

(** [weight_df.ix[dt] = w]: label-based, every row labelled [dt]. *)
Definition set_row (dt : Z) (w : list fnum) (rs : list (Z * list fnum))
  : list (Z * list fnum) :=
  (λ r, if r.1 =? dt then (r.1, w) else r) <$> rs.

Definition column (j : nat) (rs : list (list fnum)) : list fnum :=
  (λ r, default NaN (r !! j)) <$> rs.

(** pandas' mean of one column, skipna=True: the undefined cells are left
    out; a column with no defined cell has an undefined mean. *)
Definition nanmean (l : list fnum) : fnum :=
  let xs := List.filter (λ x, negb (isnan x)) l in
  match xs with
  | [] => NaN
  | _ => fdiv (fsum xs) (of_nat (length xs))
  end.

(** [.mean(axis=0)] of a table with k columns *)
Definition mean_axis0 (k : nat) (rs : list (list fnum)) : list fnum :=
  (λ j, nanmean (column j rs)) <$> seq 0 k.

(** [.shift(periods)]: the values move down by [periods] rows (up for a
    negative number), the index stays, the vacated rows are undefined. *)
Definition shift_rows (k : nat) (p : Z) (vs : list (list fnum))
  : list (list fnum) :=
  if 0 <=? p then take (length vs) (replicate (Z.to_nat p) (nan_row k) ++ vs)
  else drop (Z.to_nat (- p)) vs
       ++ replicate (Nat.min (Z.to_nat (- p)) (length vs)) (nan_row k).

Definition shift (p : Z) (df : DataFrame) : DataFrame :=
  mkFrame (columns df)
          (zip (index df) (shift_rows (length (columns df)) p (values df))).

(** The loop [for dt in ic_df.index: ...] of ic_weight and ir_weight: the
    body either skips the date ([continue]) or assigns its row. *)
Definition for_dates (body : Z → option (list fnum)) (dates : list Z)
    (rs : list (Z * list fnum)) : list (Z * list fnum) :=
  foldl (λ acc dt, match body dt with
                   | Some w => set_row dt w acc
                   | None => acc
                   end) rs dates.

(* ===================================================================== *)
(** ** ic_weight                                                          *)
(* ===================================================================== *)

Definition ic_weight_body (ic_df : DataFrame) (n : Z) (dt : Z)
  : option (list fnum) :=
  let ic_dt := tail n (upto ic_df dt) in
  if Z.of_nat (length ic_dt) <? n then None
  else
    let weight := mean_axis0 (length (columns ic_df)) (snd <$> ic_dt) in
    Some (normalize weight).

(** [weight_df] when the loop is over, before [.shift(holding_period)]. *)
Definition ic_weight_loop (ic_df : DataFrame) (rollback_period : Z) : DataFrame :=
  let n := rollback_period in
  let weight_df := empty_frame (index ic_df) (columns ic_df) in
  mkFrame (columns weight_df)
          (for_dates (ic_weight_body ic_df n) (index ic_df) (rows weight_df)).

Definition ic_weight (ic_df : DataFrame) (holding_period rollback_period : Z)
  : DataFrame :=
  shift holding_period (ic_weight_loop ic_df rollback_period).


(* ===================================================================== *)
(** ** Errors                                                             *)
(* ===================================================================== *)

(** The exceptions this module lets escape. *)
Inductive exn : Type :=
| ValueError
| KeyError
| IndexError
| TypeError
| NameError
| LinAlgError.

Inductive result (A : Type) : Type :=
| Ok (a : A)
| Raise (e : exn).
Arguments Ok {A} a.
Arguments Raise {A} e.

#[global] Instance result_ret : MRet result := λ A a, Ok a.
#[global] Instance result_bind : MBind result := λ A B f m,
  match m with
  | Ok a => f a
  | Raise e => Raise e
  end.

Definition is_ok {A : Type} (m : result A) : bool :=
  match m with Ok _ => true | Raise _ => false end.

(** The loop of max_IR_weight and max_IC_weight: the body may also raise,
    which ends the loop and the call. *)
Fixpoint for_dates_m (body : Z → result (option (list fnum)))
    (dates : list Z) (rs : list (Z * list fnum))
  : result (list (Z * list fnum)) :=
  match dates with
  | [] => Ok rs
  | dt :: ds =>
      o ← body dt;
      match o with
      | None => for_dates_m body ds rs
      | Some w => for_dates_m body ds (set_row dt w rs)
      end
  end.

(* ===================================================================== *)
(** ** Linear algebra (numpy)                                             *)
(* ===================================================================== *)

Definition matrix : Type := list (list fnum).

Definition dot (a b : list fnum) : fnum := fsum (zip_with fmul a b).

Definition matvec (m : matrix) (v : list fnum) : list fnum :=
  (λ r, dot r v) <$> m.

(** [.T] of a table with k columns: one row per column. *)
Definition transpose (k : nat) (m : matrix) : matrix :=
  (λ j, column j m) <$> seq 0 k.

Definition average (l : list fnum) : fnum := fdiv (fsum l) (of_nat (length l)).

(** [np.cov(m)]: each row of [m] is a variable, each column an
    observation; ddof = 1, and a non-positive divisor is replaced by 0.0
    (numpy warns and goes on). *)
Definition np_cov (m : matrix) : matrix :=
  let N := match m with [] => 0%nat | x :: _ => length x end in
  let fact := if (N <=? 1)%nat then fzero else of_nat (N - 1) in
  let X := (λ x, let avg := average x in (λ v, fsub v avg) <$> x) <$> m in
  (λ xi, (λ xj, fmul (dot xi xj) (fdiv fone fact)) <$> X) <$> X.

(** pandas' [.std(axis=0)] of one column (ddof = 1, skipna): the variance
    of the defined cells, undefined when there are fewer than two. *)
Definition nanvar (l : list fnum) : fnum :=
  let xs := List.filter (λ x, negb (isnan x)) l in
  if (length xs <=? 1)%nat then NaN
  else
    let avg := average xs in
    fdiv (fsum ((λ x, fmul (fsub avg x) (fsub avg x)) <$> xs))
         (of_nat (length xs - 1)).

(** *** Exact matrix inversion by Gauss-Jordan elimination

    The instance of [np.linalg.inv] used in the examples: in exact
    arithmetic the inverse exists exactly when elimination finds a pivot
    in every column, which is when LAPACK does not report a zero pivot. *)

Fixpoint find_pivot (c : nat) (rs : list (list Q))
  : option (list Q * list (list Q)) :=
  match rs with
  | [] => None
  | r :: rs' =>
      if Qeq_bool (nth c r 0%Q) 0 then
        match find_pivot c rs' with
        | Some (p, rest) => Some (p, r :: rest)
        | None => None
        end
      else Some (r, rs')
  end.

Definition qscale (s : Q) (r : list Q) : list Q := (λ x, Qred (x * s)) <$> r.

Definition qelim (c : nat) (p r : list Q) : list Q :=
  let f := nth c r 0%Q in zip_with (λ x y, Qred (x - f * y)) r p.

Fixpoint gauss_jordan (cs : list nat) (done todo : list (list Q))
  : option (list (list Q)) :=
  match cs with
  | [] => Some done
  | c :: cs' =>
      match find_pivot c todo with
      | None => None
      | Some (p, rest) =>
          let p' := qscale (/ nth c p 0%Q) p in
          gauss_jordan cs' ((qelim c p' <$> done) ++ [p']) (qelim c p' <$> rest)
      end
  end.

Definition identity_row (k i : nat) : list Q :=
  (λ j, if (i =? j)%nat then 1%Q else 0%Q) <$> seq 0 k.

Definition inv_Q (m : list (list Q)) : option (list (list Q)) :=
  let k := length m in
  if forallb (λ r, (length r =? k)%nat) m then
    (λ rs : list (list Q), drop k <$> rs)
      <$> gauss_jordan (seq 0 k) [] (zip_with app m (identity_row k <$> seq 0 k))
  else None.

Definition to_Q (x : fnum) : Q := match x with Fin q => q | _ => 0%Q end.

(** [None] stands for LinAlgError.  A matrix with an undefined or
    infinite cell has no zero pivot for LAPACK: its "inverse" is
    undefined everywhere. *)
Definition inv_exact (m : matrix) : option matrix :=
  if forallb all_finite m then
    (λ rs : list (list Q), (λ r : list Q, Fin <$> r) <$> rs)
      <$> inv_Q ((λ r : list fnum, to_Q <$> r) <$> m)
  else if forallb (λ r, (length r =? length m)%nat) m then
    Some ((λ r : list fnum, (λ _, NaN) <$> r) <$> m)
  else None.

(* ===================================================================== *)
(** ** Factor panels and the factor mapping                               *)
(* ===================================================================== *)

(** A FactorPanel: dates (kept ascending by pandas, so a set with its
    order), asset columns (unique, unordered) and the cells.  A cell that
    is not stored is undefined. *)
Record Panel : Type := mkPanel {
  p_index : gset Z;
  p_columns : gset string;
  p_cells : gmap (Z * string) fnum
}.

Definition cell (p : Panel) (d : Z) (a : string) : fnum :=
  default NaN (p_cells p !! (d, a)).

(** The index in iteration order. *)
Definition dates_of (s : gset Z) : list Z := merge_sort Z.le (elements s).

(** A pandas Series over assets: one date's row of a panel. *)
Definition Series : Type := gmap string fnum.

(** [panel.loc[date]] *)
Definition loc (p : Panel) (d : Z) : result Series :=
  if decide (d ∈ p_index p)
  then Ok (set_to_map (λ a, (a, cell p d a)) (p_columns p))
  else Raise KeyError.

(** The Python dict of factors: insertion-ordered, keys unique. *)
Definition factors : Type := list (string * Panel).

Fixpoint dict_get (name : string) (d : factors) : option Panel :=
  match d with
  | [] => None
  | (k, v) :: d' => if String.eqb k name then Some v else dict_get name d'
  end.

(** [d[name] = v] for a key that may or may not be there. *)
Fixpoint dict_set (name : string) (v : Panel) (d : factors) : factors :=
  match d with
  | [] => [(name, v)]
  | (k, x) :: d' =>
      if String.eqb k name then (k, v) :: d' else (k, x) :: dict_set name v d'
  end.

Definition keys (d : factors) : list string := fst <$> d.
Definition dict_values (d : factors) : list Panel := snd <$> d.

(** [pd.concat(series, axis=1, join=...)]: one row per asset of the
    joined labels, one column per series; a label a series lacks gives an
    undefined cell.  Nothing to concatenate is a ValueError. *)
Definition join_labels (outer : bool) (ss : list Series) : gset string :=
  match ss with
  | [] => ∅
  | s :: ss' =>
      if outer then foldr (λ t acc, dom t ∪ acc) (dom s) ss'
      else foldr (λ t acc, dom t ∩ acc) (dom s) ss'
  end.

Definition concat_axis1 (outer : bool) (ss : list Series)
  : result (list (string * list fnum)) :=
  match ss with
  | [] => Raise ValueError
  | _ => Ok ((λ a, (a, (λ s : Series, default NaN (s !! a)) <$> ss))
               <$> elements (join_labels outer ss))
  end.

(** [.dropna()]: rows with an undefined cell go. *)
Definition dropna {L : Type} (t : list (L * list fnum)) : list (L * list fnum) :=
  List.filter (λ r, no_nan r.2) t.

(** [ic_df.loc[dt]] for a date of the index *)
Definition loc_row (df : DataFrame) (dt : Z) : result (list fnum) :=
  match List.find (λ r, r.1 =? dt) (rows df) with
  | Some r => Ok r.2
  | None => Raise KeyError
  end.

(* ===================================================================== *)
(** ** ir_weight, max_IR_weight, max_IC_weight                            *)
(* ===================================================================== *)

Section WeightSchemes.

(** [np.sqrt] on a cell: the square root is not a rational function. *)
Variable fsqrt : fnum → fnum.

(** [LedoitWolf().fit(X).covariance_] (sklearn) on an observation
    matrix; [None] when the fit raises. *)
Variable LedoitWolf_fit : matrix → option matrix.

(** [np.linalg.inv]; [None] when it raises LinAlgError. *)
Variable linalg_inv : matrix → option matrix.

Definition nanstd (l : list fnum) : fnum := fsqrt (nanvar l).

(** [.std(axis=0)] of a table with k columns *)
Definition std_axis0 (k : nat) (rs : list (list fnum)) : list fnum :=
  (λ j, nanstd (column j rs)) <$> seq 0 k.

Definition ir_weight_body (ic_df : DataFrame) (n : Z) (dt : Z)
  : option (list fnum) :=
  let ic_dt := tail n (upto ic_df dt) in
  if Z.of_nat (length ic_dt) <? n then None
  else
    let k := length (columns ic_df) in
    let weight := zip_with fdiv (mean_axis0 k (snd <$> ic_dt))
                                (std_axis0 k (snd <$> ic_dt)) in
    Some (normalize weight).

Definition ir_weight_loop (ic_df : DataFrame) (rollback_period : Z)
  : DataFrame :=
  let n := rollback_period in
  let weight_df := empty_frame (index ic_df) (columns ic_df) in
  mkFrame (columns weight_df)
          (for_dates (ir_weight_body ic_df n) (index ic_df) (rows weight_df)).

Definition ir_weight (ic_df : DataFrame) (holding_period rollback_period : Z)
  : DataFrame :=
  shift holding_period (ir_weight_loop ic_df rollback_period).

(** The covariance block both max schemes share, on a table [X] of
    observations with k columns:
<<
    if covariance_type == "shrink":
        try:    cov = lw.fit(X.as_matrix()).covariance_
        except: cov = np.mat(np.cov(X.T.as_matrix()).astype(float))
    else:       cov = np.mat(np.cov(X.T.as_matrix()).astype(float))
>> *)
Definition cov_block (covariance_type : string) (k : nat) (X : matrix)
  : matrix :=
  if String.eqb covariance_type "shrink" then
    match LedoitWolf_fit X with
    | Some c => c
    | None => np_cov (transpose k X)
    end
  else np_cov (transpose k X).

(** [inv * np.mat(v).reshape(len(inv), 1)], flattened, over its sum.
    The reshape raises when the sizes differ. *)
Definition apply_inverse (inv : matrix) (v : list fnum)
  : result (option (list fnum)) :=
  if (length inv =? length v)%nat then
    let weight := matvec inv v in
    Ok (Some (normalize weight))
  else Raise ValueError.

Definition max_IR_weight_body (ic_df : DataFrame) (n : Z)
    (covariance_type : string) (dt : Z) : result (option (list fnum)) :=
  let ic_dt := tail n (upto ic_df dt) in
  if Z.of_nat (length ic_dt) <? n then Ok None
  else
    let k := length (columns ic_df) in
    let ic_cov_mat := cov_block covariance_type k (snd <$> ic_dt) in
    match linalg_inv ic_cov_mat with
    | None => Raise LinAlgError
    | Some inv_ic_cov_mat =>
        apply_inverse inv_ic_cov_mat (mean_axis0 k (snd <$> ic_dt))
    end.

Definition max_IR_weight_loop (ic_df : DataFrame) (rollback_period : Z)
    (covariance_type : string) : result DataFrame :=
  let n := rollback_period in
  let weight_df := empty_frame (index ic_df) (columns ic_df) in
  rs ← for_dates_m (max_IR_weight_body ic_df n covariance_type)
                   (index ic_df) (rows weight_df);
  Ok (mkFrame (columns weight_df) rs).

Definition max_IR_weight (ic_df : DataFrame) (holding_period : Z)
    (rollback_period : Z) (covariance_type : string) : result DataFrame :=
  weight_df ← max_IR_weight_loop ic_df rollback_period covariance_type;
  Ok (shift holding_period weight_df).

(** [factors_dict[name]] *)
Definition dict_item (factors_dict : factors) (name : string) : result Panel :=
  match dict_get name factors_dict with
  | Some p => Ok p
  | None => Raise KeyError
  end.

(** [pd.concat([factors_dict[name].loc[dt] for name in ic_df.columns],
    axis=1).dropna()] *)
Definition cross_section (ic_df : DataFrame) (factors_dict : factors) (dt : Z)
  : result (list (string * list fnum)) :=
  ss ← mapM (λ factor_name, p ← dict_item factors_dict factor_name; loc p dt)
            (columns ic_df);
  t ← concat_axis1 true ss;
  Ok (dropna t).

Definition max_IC_weight_body (ic_df : DataFrame) (factors_dict : factors)
    (covariance_type : string) (dt : Z) : result (option (list fnum)) :=
  f_dt ← cross_section ic_df factors_dict dt;
  if (length f_dt =? 0)%nat then Ok None
  else
    let k := length (columns ic_df) in
    let f_cov_mat := cov_block covariance_type k (snd <$> f_dt) in
    match linalg_inv f_cov_mat with
    | None => Raise LinAlgError
    | Some inv_f_cov_mat =>
        v ← loc_row ic_df dt;
        apply_inverse inv_f_cov_mat v
    end.

Definition max_IC_weight_loop (ic_df : DataFrame) (factors_dict : factors)
    (covariance_type : string) : result DataFrame :=
  let weight_df := empty_frame (index ic_df) (columns ic_df) in
  rs ← for_dates_m (max_IC_weight_body ic_df factors_dict covariance_type)
                   (index ic_df) (rows weight_df);
  Ok (mkFrame (columns weight_df) rs).

Definition max_IC_weight (ic_df : DataFrame) (factors_dict : factors)
    (holding_period : Z) (covariance_type : string) : result DataFrame :=
  weight_df ← max_IC_weight_loop ic_df factors_dict covariance_type;
  Ok (shift holding_period weight_df).

End WeightSchemes.

(* ===================================================================== *)
(** ** Collaborators of the module                                        *)
(* ===================================================================== *)

(** [jaqs.util.fillinf] and the functions of [process]: cross-sectional
    preprocessing, consumed as a capability.  The second argument is
    [index_member]. *)
Class Preprocessing : Type := {
  fillinf : Panel → Panel;
  winsorize : Panel → option Panel → Panel;
  standardize : Panel → option Panel → Panel;
  rank_standardize : Panel → option Panel → Panel;
  _mask_non_index_member : Panel → option Panel → Panel
}.

(** The arguments [SignalCreator] is built from. *)
Record SignalCreator : Type := mkSignalCreator {
  sc_price : Panel;
  sc_high : option Panel;
  sc_low : option Panel;
  sc_benchmark_price : option Panel;
  sc_period : Z;
  sc_n_quantiles : Z;
  sc_mask : option Panel;
  sc_can_enter : option Panel;
  sc_can_exit : option Panel;
  sc_forward : bool;
  sc_commission : fnum
}.

(** [SignalCreator.get_signal_data] and [performance.calc_signal_ic].
    [calc_signal_ic sd col] is the IC series of the table [sd] cut down to
    its columns "signal" and [col], one value per date. *)
Class SignalEvaluation : Type := {
  SignalData : Type;
  get_signal_data : SignalCreator → Panel → SignalData;
  sd_columns : SignalData → list string;
  calc_signal_ic : SignalData → string → list (Z * fnum)
}.

(** [process._prepare_data] and [dv.get_ts]. *)
Class DataSource : Type := {
  DataView : Type;
  DataApi : Type;
  _prepare_data : list string → Z → Z → option DataView → option DataApi → DataView;
  get_ts : DataView → string → Panel
}.

(** numpy, scipy and sklearn: [np.sqrt], [LedoitWolf().fit], [np.linalg.inv]
    and [scipy.linalg.orth]; the last returns the vectors of the basis,
    the columns of scipy's array ([None]: it raises). *)
Class Numerics : Type := {
  np_sqrt : fnum → fnum;
  lw_fit : matrix → option matrix;
  np_linalg_inv : matrix → option matrix;
  linalg_orth : matrix → option (list (list fnum))
}.

Definition mem (s : string) (l : list string) : bool := existsb (String.eqb s) l.

Definition is_none {A : Type} (o : option A) : bool :=
  match o with None => true | Some _ => false end.

(* ===================================================================== *)
(** ** get_factors_ic_df                                                  *)
(* ===================================================================== *)

Definition series_dates (s : list (Z * fnum)) : gset Z := list_to_set (fst <$> s).

Definition series_at (s : list (Z * fnum)) (t : Z) : fnum :=
  match List.find (λ p, p.1 =? t) s with
  | Some p => p.2
  | None => NaN
  end.

(** [pd.concat(ic_table, axis=1)]: the outer join of the IC series on
    their dates, one column per factor. *)
Definition concat_ic (ic_table : list (string * list (Z * fnum)))
  : result DataFrame :=
  match ic_table with
  | [] => Raise ValueError
  | _ =>
      let dates := dates_of (foldr (λ s acc, series_dates s.2 ∪ acc) ∅ ic_table) in
      Ok (mkFrame (fst <$> ic_table)
                  ((λ t, (t, (λ s, series_at s.2 t) <$> ic_table)) <$> dates))
  end.

Definition dropna_frame (df : DataFrame) : DataFrame :=
  mkFrame (columns df) (dropna (rows df)).

(** [.reindex(times)]: the rows of the new labels, undefined where the
    table has no such label. *)
Definition reindex (times : list Z) (df : DataFrame) : DataFrame :=
  mkFrame (columns df)
          ((λ t, (t, match List.find (λ r, r.1 =? t) (rows df) with
                     | Some r => r.2
                     | None => nan_row (length (columns df))
                     end)) <$> times).

(** [sorted(pd.concat([pd.Series(f.index) for f in ...]).unique())] *)
Definition all_times (factors_dict : factors) : result (list Z) :=
  match factors_dict with
  | [] => Raise ValueError
  | _ => Ok (dates_of (foldr (λ f acc, p_index f.2 ∪ acc) ∅ factors_dict))
  end.

Section ICEstimator.

Context `{Preprocessing} `{SignalEvaluation}.

(** The loop over the factor names.  The mapping is the caller's: what
    is written into it stays written when the loop raises. *)
Fixpoint ic_table_loop (sc : SignalCreator) (ret_type : string)
    (names : list string) (factors_dict : factors)
    (ic_table : list (string * list (Z * fnum)))
  : result (list (string * list (Z * fnum))) * factors :=
  match names with
  | [] => (Ok ic_table, factors_dict)
  | factor_name :: names' =>
      match dict_get factor_name factors_dict with
      | None => (Raise KeyError, factors_dict)
      | Some p =>
          let factors_dict := dict_set factor_name (fillinf p) factors_dict in
          let factor_value := fillinf p in
          let signal_data := get_signal_data sc factor_value in
          if mem ret_type (sd_columns signal_data) then
            let ic := calc_signal_ic signal_data ret_type in
            ic_table_loop sc ret_type names' factors_dict
                          (ic_table ++ [(factor_name, ic)])
          else (Raise ValueError, factors_dict)
      end
  end.

(** [sc] stands for the arguments price, high, low, benchmark_price,
    period, quantiles, mask, can_enter, can_exit, commisson and forward,
    which are handed to [SignalCreator] as they come. *)
Definition get_factors_ic_df (factors_dict : factors) (sc : SignalCreator)
    (ret_type : option string) : result DataFrame * factors :=
  let ret_type := match ret_type with None => "return"%string | Some s => s end in
  if negb (mem ret_type ["return"; "upside_ret"; "downside_ret"]%string)
  then (Raise ValueError, factors_dict)
  else
    match all_times factors_dict with
    | Raise e => (Raise e, factors_dict)
    | Ok times =>
        match ic_table_loop sc ret_type (keys factors_dict) factors_dict [] with
        | (Raise e, factors_dict) => (Raise e, factors_dict)
        | (Ok ic_table, factors_dict) =>
            (t ← concat_ic ic_table; Ok (reindex times (dropna_frame t)),
             factors_dict)
        end
    end.

End ICEstimator.

(* ===================================================================== *)
(** ** Panel arithmetic                                                   *)
(* ===================================================================== *)

(** [x + y] on two panels: pandas aligns on the union of the labels; a
    cell is the sum where both panels have it and undefined elsewhere. *)
Definition padd (x y : Panel) : Panel :=
  mkPanel (p_index x ∪ p_index y) (p_columns x ∪ p_columns y)
          (intersection_with (λ a b, Some (fadd a b)) (p_cells x) (p_cells y)).

(** [panel * w] where [w] repeats one weight per date over every asset
    column. *)
Definition scale_rows (p : Panel) (w : Z → fnum) : Panel :=
  mkPanel (p_index p) (p_columns p)
          (map_imap (λ (k : Z * string) v, Some (fmul v (w k.1))) (p_cells p)).

Fixpoint index_of (name : string) (l : list string) : option nat :=
  match l with
  | [] => None
  | x :: l' => if String.eqb x name then Some 0%nat else S <$> index_of name l'
  end.

(** [weight[factor_name]]: one column of the weight table, as a series
    over its dates. *)
Definition weight_column (weight : DataFrame) (name : string)
  : result (list (Z * fnum)) :=
  match index_of name (columns weight) with
  | None => Raise KeyError
  | Some j => Ok ((λ r, (r.1, default NaN (r.2 !! j))) <$> rows weight)
  end.

(** [functools.reduce(f, values)] *)
Definition reduce {A : Type} (f : A → A → A) (l : list A) : result A :=
  match l with
  | [] => Raise TypeError
  | x :: l' => Ok (foldl f x l')
  end.

(** The first and the last label of an index. *)
Definition index_first (s : gset Z) : result Z :=
  match dates_of s with
  | [] => Raise IndexError
  | d :: _ => Ok d
  end.

Definition index_last (s : gset Z) : result Z :=
  match last (dates_of s) with
  | None => Raise IndexError
  | Some d => Ok d
  end.

(* ===================================================================== *)
(** ** combine_factors                                                    *)
(* ===================================================================== *)

Section Combiner.

Context `{Preprocessing} `{SignalEvaluation} `{DataSource} `{Numerics}.

(** The configuration [_props]: the defaults of [generate_props] with
    the caller's [props] written over them. *)
Record Props : Type := mkProps {
  dataview : option DataView;
  data_api : option DataApi;
  price : option Panel;
  high : option Panel;
  low : option Panel;
  ret_type : option string;
  benchmark_price : option Panel;
  period : Z;
  mask : option Panel;
  can_enter : option Panel;
  can_exit : option Panel;
  forward : bool;
  commission : fnum;
  covariance_type : string;
  rollback_period : Z
}.

Definition generate_props : Props :=
  {| dataview := None; data_api := None; price := None; high := None;
     low := None; ret_type := Some "return"%string; benchmark_price := None;
     period := 5; mask := None; can_enter := None; can_exit := None;
     forward := true; commission := Fin (8 # 10000)%Q;
     covariance_type := "simple"; rollback_period := 120 |}.

(** The arguments of combine_factors that its inner functions close
    over. *)
Variable standardize_type : option string.
Variable winsorization : bool.
Variable index_member : option Panel.

(** What standarize_factors has written into the mapping for one factor
    before it looks at [standardize_type]. *)
Definition cleaned (p : Panel) : Panel :=
  let p := fillinf p in
  let p := _mask_non_index_member p index_member in
  if winsorization then winsorize p None else p.

Definition by_type (p : Panel) : result Panel :=
  match standardize_type with
  | None => Ok p
  | Some t =>
      if String.eqb t "z_score" then Ok (standardize p None)
      else if String.eqb t "rank" then Ok (rank_standardize p None)
      else Raise ValueError
  end.

(** standarize_factors on the mapping: it works on the caller's dict. *)
Fixpoint standarize_factors (names : list string) (factors_dict : factors)
  : result unit * factors :=
  match names with
  | [] => (Ok (), factors_dict)
  | factor_name :: names' =>
      match dict_get factor_name factors_dict with
      | None => (Raise KeyError, factors_dict)
      | Some p =>
          let factors_dict := dict_set factor_name (cleaned p) factors_dict in
          match by_type (cleaned p) with
          | Raise e => (Raise e, factors_dict)
          | Ok p' => standarize_factors names' (dict_set factor_name p' factors_dict)
          end
      end
  end.

(** standarize_factors on one panel, [{"factor": panel}], and the
    ["factor"] entry of what it returns. *)
Definition standarize_factors_frame (new_factor : Panel) : result Panel :=
  by_type (cleaned new_factor).

Definition _cal_weight (weighted_method : string) (_props : Props)
    (factors_dict : factors) : result DataFrame * factors :=
  let extremes :=
    match ret_type _props with
    | Some t => mem t ["upside_ret"; "downside_ret"]%string
    | None => false
    end in
  let need_data :=
    is_none (price _props) ||
    (extremes && (is_none (high _props) || is_none (low _props))) in
  let dv : result (option DataView) :=
    if need_data then
      match factors_dict with
      | [] => Raise IndexError
      | (_, factor_0) :: _ =>
          let pools := elements (p_columns factor_0) in
          start ← index_first (p_index factor_0);
          end_ ← index_last (p_index factor_0);
          Ok (Some (_prepare_data pools start end_ (dataview _props) (data_api _props)))
      end
    else Ok None in
  let get (name : string) (given : option Panel) : result (option Panel) :=
    match given with
    | Some p => Ok (Some p)
    | None =>
        d ← dv;
        match d with
        | Some d => Ok (Some (get_ts d name))
        | None => Raise NameError
        end
    end in
  let inputs : result SignalCreator :=
    _ ← dv;
    price_ ← get "close_adj"%string (price _props);
    high_ ← (if extremes then get "high_adj"%string (high _props)
             else Ok (high _props));
    low_ ← (if extremes then get "low_adj"%string (low _props)
            else Ok (low _props));
    match price_ with
    | None => Raise NameError
    | Some price_ =>
        Ok (mkSignalCreator price_ high_ low_ (benchmark_price _props)
              (period _props) 5 (mask _props) (can_enter _props)
              (can_exit _props) (forward _props) (Fin (8 # 10000)%Q))
    end in
  match inputs with
  | Raise e => (Raise e, factors_dict)
  | Ok sc =>
      match get_factors_ic_df factors_dict sc (ret_type _props) with
      | (Raise e, factors_dict) => (Raise e, factors_dict)
      | (Ok ic_df, factors_dict) =>
          (if String.eqb weighted_method "max_IR" then
             max_IR_weight lw_fit np_linalg_inv ic_df (period _props)
                           (rollback_period _props) (covariance_type _props)
           else if String.eqb weighted_method "ic_weight" then
             Ok (ic_weight ic_df (period _props) (rollback_period _props))
           else if String.eqb weighted_method "ir_weight" then
             Ok (ir_weight np_sqrt ic_df (period _props) (rollback_period _props))
           else if String.eqb weighted_method "max_IC" then
             max_IC_weight lw_fit np_linalg_inv ic_df factors_dict (period _props)
                           (covariance_type _props)
           else Raise TypeError,
           factors_dict)
      end
  end.

Definition sum_weighted_factors (x y : Panel) : Panel := padd x y.

(** [factors_dict[name] * w] for every factor of the mapping *)
Definition weighted (weight : DataFrame) (factors_dict : factors)
  : result (list Panel) :=
  mapM (λ '(factor_name, p),
          col ← weight_column weight factor_name;
          if (size (p_columns p) =? 0)%nat then Raise ValueError
          else Ok (scale_rows p (series_at col)))
       factors_dict.

Definition combine_factors (factors_dict : option factors)
    (weighted_method : string) (props : Props)
  : result Panel * option factors :=
  match factors_dict with
  | None => (Raise ValueError, None)
  | Some factors_dict =>
      if (length (keys factors_dict) <? 2)%nat
      then (Raise ValueError, Some factors_dict)
      else
        match standarize_factors (keys factors_dict) factors_dict with
        | (Raise e, factors_dict) => (Raise e, Some factors_dict)
        | (Ok _, factors_dict) =>
            if mem weighted_method ["max_IR"; "max_IC"; "ic_weight"; "ir_weight"]%string
            then
              match _cal_weight weighted_method props factors_dict with
              | (Raise e, factors_dict) => (Raise e, Some factors_dict)
              | (Ok weight, factors_dict) =>
                  (weighted_factors ← weighted weight factors_dict;
                   new_factor ← reduce sum_weighted_factors weighted_factors;
                   standarize_factors_frame new_factor,
                   Some factors_dict)
              end
            else if String.eqb weighted_method "equal_weight" then
              let weighted_factors := factors_dict in
              (new_factor ← reduce sum_weighted_factors (dict_values weighted_factors);
               standarize_factors_frame new_factor,
               Some factors_dict)
            else (Raise ValueError, Some factors_dict)
        end
  end.

End Combiner.

(* ===================================================================== *)
(** ** orthogonalize                                                      *)
(* ===================================================================== *)

(** One date's row of a new factor: the date and a value per surviving
    asset. *)
Definition date_row : Type := Z * list (string * fnum).

(** [pd.concat(rows)] of one-date rows: a panel over the dates of the rows
    and the union of their assets.  Nothing to concatenate is a
    ValueError. *)
Definition concat_rows (rs : list date_row) : result Panel :=
  match rs with
  | [] => Raise ValueError
  | _ =>
      Ok (mkPanel (list_to_set (fst <$> rs))
                  (list_to_set (rs ≫= λ r, fst <$> r.2))
                  (list_to_map (rs ≫= λ r, (λ av : string * fnum, ((r.1, av.1), av.2)) <$> r.2)))
  end.

Section Orthogonalizer.

Context `{Preprocessing} `{Numerics}.

Definition Schmidt (data : matrix) : option (list (list fnum)) :=
  linalg_orth data.

Definition get_vector (date : Z) (factor : Panel) : result Series :=
  loc factor date.

(** The first loop: every factor is sanitized, and winsorized when asked
    for, in the caller's mapping. *)
Fixpoint sanitize_loop (winsorization : bool) (index_member : option Panel)
    (names : list string) (factors_dict : factors) : result unit * factors :=
  match names with
  | [] => (Ok (), factors_dict)
  | factor_name :: names' =>
      match dict_get factor_name factors_dict with
      | None => (Raise KeyError, factors_dict)
      | Some p =>
          let p := fillinf p in
          let p := if winsorization then winsorize p index_member else p in
          sanitize_loop winsorization index_member names'
                        (dict_set factor_name p factors_dict)
      end
  end.

(** The body of the loop over the dates: [None] is [continue]; otherwise
    one row per factor, in the order of [factor_name_list]. *)
Definition orthogonalize_date (factor_name_list : list string)
    (factor_value_list : list Panel) (date : Z)
  : result (option (list date_row)) :=
  data ← mapM (get_vector date) factor_value_list;
  data ← concat_axis1 false data;
  if (length data =? 0)%nat then Ok None
  else
    let data := dropna data in
    match Schmidt (snd <$> data) with
    | None => Raise LinAlgError
    | Some basis =>
        (* pd.DataFrame(basis, index=data.index) *)
        if negb (forallb (λ v, (length v =? length data)%nat) basis)
        then Raise ValueError
        (* data.columns = factor_name_list *)
        else if negb (length basis =? length factor_name_list)%nat
        then Raise ValueError
        else Ok (Some ((λ v, (date, zip (fst <$> data) v)) <$> basis))
    end.

Fixpoint orthogonalize_loop (factor_name_list : list string)
    (factor_value_list : list Panel) (dates : list Z)
    (new_rows : list (list date_row)) : result (list (list date_row)) :=
  match dates with
  | [] => Ok new_rows
  | date :: dates' =>
      o ← orthogonalize_date factor_name_list factor_value_list date;
      match o with
      | None =>
          orthogonalize_loop factor_name_list factor_value_list dates' new_rows
      | Some rows_ =>
          orthogonalize_loop factor_name_list factor_value_list dates'
                             (zip_with (λ acc row, acc ++ [row]) new_rows rows_)
      end
  end.

Definition orthogonalize (factors_dict : option factors)
    (standardize_type : option string) (winsorization : bool)
    (index_member : option Panel) : result factors * option factors :=
  match factors_dict with
  | None => (Raise ValueError, None)
  | Some factors_dict =>
      if (length (keys factors_dict) <? 2)%nat
      then (Raise ValueError, Some factors_dict)
      else
        match sanitize_loop winsorization index_member (keys factors_dict)
                            factors_dict with
        | (Raise e, factors_dict) => (Raise e, Some factors_dict)
        | (Ok _, factors_dict) =>
            let factor_name_list := keys factors_dict in
            let factor_value_list := dict_values factors_dict in
            (first ← match factor_value_list with
                     | [] => Raise IndexError
                     | p :: _ => Ok p
                     end;
             new_rows ← orthogonalize_loop factor_name_list factor_value_list
                          (dates_of (p_index first))
                          ((λ _, []) <$> factor_name_list);
             new_panels ← mapM (λ rs,
                               factor_value ← concat_rows rs;
                               Ok (match standardize_type with
                                   | Some "z_score"%string =>
                                       standardize factor_value index_member
                                   | _ => rank_standardize factor_value index_member
                                   end))
                             new_rows;
             Ok (zip factor_name_list new_panels),
             Some factors_dict)
        end
  end.

End Orthogonalizer.

(* ===================================================================== *)
(** ** Vocabulary of the properties                                       *)
(* ===================================================================== *)

(** What the body of a raising loop assigns at a date, if anything. *)
Definition assigned (body : Z → result (option (list fnum))) (d : Z)
  : option (list fnum) :=
  match body d with
  | Ok o => o
  | Raise _ => None
  end.


(** [out] is [pre] moved down by [h] rows: same labels, row i of [out] is
    row i-h of [pre], and the first h rows are undefined. *)
Definition shifted_by (h : Z) (out pre : DataFrame) : Prop :=
  columns out = columns pre ∧ index out = index pre ∧
  ∀ i : nat, (i < length (values pre))%nat →
    values out !! i =
      if Z.of_nat i <? h then Some (nan_row (length (columns pre)))
      else values pre !! (i - Z.to_nat h)%nat.

(** The n rows of a table that end at position j. *)
Definition window_at (n : Z) (j : nat) (vs : list (list fnum))
  : list (list fnum) :=
  drop (S j - Z.to_nat n) (take (S j) vs).

(** The rolling loop of ic_weight and ir_weight, for any row formula
    [f] of the window. *)
Definition rolling_body (f : list (list fnum) → list fnum)
    (ic_df : DataFrame) (n : Z) (dt : Z) : option (list fnum) :=
  let ic_dt := tail n (upto ic_df dt) in
  if Z.of_nat (length ic_dt) <? n then None else Some (f (snd <$> ic_dt)).

Definition rolling_loop (f : list (list fnum) → list fnum)
    (ic_df : DataFrame) (n : Z) : DataFrame :=
  mkFrame (columns ic_df)
          (for_dates (rolling_body f ic_df n) (index ic_df)
                     (rows (empty_frame (index ic_df) (columns ic_df)))).


(** The row formulas of the two rolling schemes, as functions of the
    window. *)
Definition ic_formula (k : nat) (W : list (list fnum)) : list fnum :=
  normalize (mean_axis0 k W).

Definition ir_formula (fsqrt : fnum → fnum) (k : nat) (W : list (list fnum))
  : list fnum :=
  normalize (zip_with fdiv (mean_axis0 k W) (std_axis0 fsqrt k W)).

(** *** Instances for the examples *)

(** A square root that is exact on the squares of rationals (and rounds
    the numerator down otherwise). *)
Definition fsqrt_floor (x : fnum) : fnum :=
  match x with
  | Fin q =>
      if (Qnum q <? 0)%Z then NaN
      else Fin (Z.sqrt (Qnum q * Zpos (Qden q)) # Qden q)
  | PInf => PInf
  | NInf | NaN => NaN
  end.

(** A shrinkage fit that always fails: what is left of "shrink" is its
    fallback. *)
Definition fit_fails (X : matrix) : option matrix := None.

Definition q (z : Z) : fnum := Fin (inject_Z z).

(** Two factors, one date, opposite ICs. *)
Definition ic_opposite : DataFrame :=
  mkFrame ["a"; "b"]%string [(20160624, [q 1; q (-1)])].

(** Two factors over three dates. *)
Definition ic_three : DataFrame :=
  mkFrame ["a"; "b"]%string
          [(20160624, [q 1; q 3]); (20160627, [q 3; q 1]); (20160628, [q 1; q 0])].

(** One factor, one date, one observation. *)
Definition ic_single : DataFrame := mkFrame ["a"]%string [(20160624, [q 1])].

(** Two factors whose ICs move together: their sample covariance over
    the two dates is singular. *)
Definition ic_collinear : DataFrame :=
  mkFrame ["a"; "b"]%string [(20160624, [q 1; q 1]); (20160627, [q 2; q 2])].

(** Two factor panels over one date and three assets. *)
Definition panel_a : Panel :=
  mkPanel {[20160624]} {["x"; "y"; "z"]}%string
          {[ (20160624, "x"%string) := q 1; (20160624, "y"%string) := q 2;
             (20160624, "z"%string) := q 4 ]}.

Definition panel_b : Panel :=
  mkPanel {[20160624]} {["x"; "y"; "z"]}%string
          {[ (20160624, "x"%string) := q 3; (20160624, "y"%string) := q 1;
             (20160624, "z"%string) := q 2 ]}.

Definition two_factors : factors := [("a"%string, panel_a); ("b"%string, panel_b)].

(** *** The covariance estimator, as the design document words it *)

Inductive cov_type : Type := Shrink | Simple.

Definition cov_type_name (ct : cov_type) : string :=
  match ct with Shrink => "shrink" | Simple => "simple" end.

(** "simple": sample covariance of the window, transposed to orient
    variables as columns. *)
Definition sample_covariance (k : nat) (X : matrix) : matrix :=
  np_cov (transpose k X).

(** "shrink": shrinkage estimation over the windowed observation matrix;
    on numerical failure, the plain sample covariance of the same
    window. *)
Definition spec_covariance (LedoitWolf_fit : matrix → option matrix)
    (ct : cov_type) (k : nat) (X : matrix) : matrix :=
  match ct with
  | Simple => sample_covariance k X
  | Shrink =>
      match LedoitWolf_fit X with
      | Some c => c
      | None => sample_covariance k X
      end
  end.

(** A recognised [standardize_type], and what standarize_factors then
    does to one panel: "standardize" in the words of the design
    document. *)
Definition valid_standardize_type (st : option string) : bool :=
  match st with
  | None => true
  | Some t => String.eqb t "z_score" || String.eqb t "rank"
  end.

Definition standardized `{Preprocessing} (st : option string) (wins : bool)
    (im : option Panel) (p : Panel) : Panel :=
  let p := cleaned wins im p in
  match st with
  | None => p
  | Some t => if String.eqb t "z_score" then standardize p None
              else rank_standardize p None
  end.

(** *** Collaborators for the examples *)

(** Modelled from the spec: [jaqs.util.fillinf] is not under src/; the
    design document has it "replace non-finite with a neutral fill", and
    the fill that is neutral for every later step is the undefined
    value. *)
Definition fillinf_nan (p : Panel) : Panel :=
  mkPanel (p_index p) (p_columns p)
          ((λ x, if isfinite x then x else NaN) <$> p_cells p).

(** The examples run with winsorization off and without an index_member
    (masking nothing); the standardizations are left as the identity. *)
#[local] Instance demo_preprocessing : Preprocessing := {|
  fillinf := fillinf_nan;
  winsorize := λ p _, p;
  standardize := λ p _, p;
  rank_standardize := λ p _, p;
  _mask_non_index_member := λ p _, p
|}.

(** A signal evaluation that knows the plain return only, and reports an
    IC of 1/2 on the dates where the factor has a defined cell. *)
Definition demo_ic (p : Panel) (col : string) : list (Z * fnum) :=
  (λ d, (d, if existsb (λ a, negb (isnan (cell p d a))) (elements (p_columns p))
            then Fin (1 # 2)%Q else NaN))
    <$> dates_of (p_index p).

#[local] Instance demo_signals : SignalEvaluation := {|
  SignalData := Panel;
  get_signal_data := λ _ p, p;
  sd_columns := λ _, ["signal"; "return"]%string;
  calc_signal_ic := demo_ic
|}.

#[local] Instance demo_source : DataSource := {|
  DataView := unit;
  DataApi := unit;
  _prepare_data := λ _ _ _ _ _, tt;
  get_ts := λ _ _, mkPanel ∅ ∅ ∅
|}.

(** Gram-Schmidt without the normalisation (no square root): an
    orthogonal basis of the columns of a finite matrix, one vector for
    each column that is independent of the columns before it. *)
Definition qdot (a b : list Q) : Q := foldr Qplus 0%Q (zip_with Qmult a b).

Definition gs_step (basis : list (list Q)) (v : list Q) : list (list Q) :=
  let v' := foldl (λ acc u, zip_with (λ x y, Qred (x - (qdot v u / qdot u u) * y)) acc u)
                  v basis in
  if forallb (λ x, Qeq_bool x 0) v' then basis else basis ++ [v'].

Definition orth_gs (data : matrix) : option (list (list fnum)) :=
  if forallb all_finite data then
    let k := match data with [] => 0%nat | r :: _ => length r end in
    let cols := (λ j, (λ r, to_Q (default NaN (r !! j))) <$> data) <$> seq 0 k in
    Some ((λ v : list Q, Fin <$> v) <$> foldl gs_step [] cols)
  else None.

#[local] Instance demo_numerics : Numerics := {|
  np_sqrt := fsqrt_floor;
  lw_fit := fit_fails;
  np_linalg_inv := inv_exact;
  linalg_orth := orth_gs
|}.

Definition no_panel : Panel := mkPanel ∅ ∅ ∅.

Definition demo_creator : SignalCreator :=
  mkSignalCreator no_panel None None None 5 5 None None None true (Fin (8 # 10000)%Q).

(** Factor "a" with an infinite cell. *)
Definition panel_inf : Panel :=
  mkPanel {[20160624]} {["x"; "y"]}%string
          {[ (20160624, "x"%string) := PInf; (20160624, "y"%string) := q 2 ]}.

Definition factors_inf : factors := [("a"%string, panel_inf); ("b"%string, panel_b)].

(** Two factors over two dates and two assets; on the second date factor
    "b" has no defined cell. *)
Definition panel_full : Panel :=
  mkPanel {[20160624; 20160627]} {["x"; "y"]}%string
          {[ (20160624, "x"%string) := q 1; (20160624, "y"%string) := q 2;
             (20160627, "x"%string) := q 1; (20160627, "y"%string) := q 2 ]}.

Definition panel_gap : Panel :=
  mkPanel {[20160624; 20160627]} {["x"; "y"]}%string
          {[ (20160624, "x"%string) := q 3; (20160624, "y"%string) := q 1 ]}.

Definition factors_gap : factors := [("a"%string, panel_full); ("b"%string, panel_gap)].

(** Fewer than two factors: no mapping, or a mapping of at most one. *)
Definition too_few (fd : option factors) : Prop :=
  fd = None ∨ ∃ d, fd = Some d ∧ (length d < 2)%nat.

(** The cell of one factor of the caller's mapping. *)
Definition mapping_cell (fd : option factors) (name : string) (d : Z)
    (a : string) : fnum :=
  cell (default no_panel (fd ≫= dict_get name)) d a.

(* ===================================================================== *)
(** ** Vocabulary of the further properties                               *)
(* ===================================================================== *)

(** The table has the labels of [ic_df] and k cells in every row. *)
Definition same_shape (out ic_df : DataFrame) : Prop :=
  index out = index ic_df ∧ columns out = columns ic_df ∧
  ∀ r, r ∈ values out → length r = length (columns ic_df).

(** Every row of the table is undefined. *)
Definition all_undefined (out : DataFrame) : Prop :=
  ∀ r, r ∈ values out → r = nan_row (length (columns out)).

(** [out] is [pre] moved up by [u] rows: row i of [out] is row i+u of
    [pre], and the last u rows are undefined. *)
Definition shifted_up_by (u : nat) (out pre : DataFrame) : Prop :=
  columns out = columns pre ∧ index out = index pre ∧
  ∀ i : nat, (i < length (values pre))%nat →
    values out !! i =
      if (i + u <? length (values pre))%nat then values pre !! (i + u)%nat
      else Some (nan_row (length (columns pre))).

(** The rows of a window that hold at least one defined cell. *)
Definition observed_rows (W : list (list fnum)) : list (list fnum) :=
  List.filter (λ r, negb (all_nan r)) W.

(** The IC series get_factors_ic_df computes for one factor, and whether
    the signal table of the factor has the return column asked for. *)
Definition ic_of `{Preprocessing} `{SignalEvaluation} (sc : SignalCreator)
    (rt : string) (p : Panel) : list (Z * fnum) :=
  calc_signal_ic (get_signal_data sc (fillinf p)) rt.

Definition has_return `{Preprocessing} `{SignalEvaluation} (sc : SignalCreator)
    (rt : string) (p : Panel) : bool :=
  mem rt (sd_columns (get_signal_data sc (fillinf p))).

(** A mapping with one function applied to each of its panels. *)
Definition map_panels (f : Panel → Panel) (d : factors) : factors :=
  (λ e, (e.1, f e.2)) <$> d.

(** What the first loop of orthogonalize leaves in the mapping for one
    factor. *)
Definition sanitized `{Preprocessing} (wins : bool) (im : option Panel)
    (p : Panel) : Panel :=
  if wins then winsorize (fillinf p) im else fillinf p.

(** A configuration with another commission. *)
Definition with_commission `{DataSource} (c : fnum) (p : Props) : Props :=
  mkProps (dataview p) (data_api p) (price p) (high p) (low p) (ret_type p)
          (benchmark_price p) (period p) (mask p) (can_enter p) (can_exit p)
          (forward p) c (covariance_type p) (rollback_period p).

(** Every IC of the matrix multiplied by one rational factor. *)
Definition fscale (c : Q) (x : fnum) : fnum := fmul (Fin c) x.




(** A configuration with another data source. *)
Definition with_source `{DataSource} (dv : option DataView)
    (api : option DataApi) (p : Props) : Props :=
  mkProps dv api (price p) (high p) (low p) (ret_type p) (benchmark_price p)
          (period p) (mask p) (can_enter p) (can_exit p) (forward p)
          (commission p) (covariance_type p) (rollback_period p).

(** The configuration asks for one of the two extreme returns. *)
Definition wants_extremes `{DataSource} (p : Props) : Prop :=
  ∃ t, ret_type p = Some t ∧ t ∈ ["upside_ret"; "downside_ret"]%string.

(** The arguments of [SignalCreator] that _cal_weight hands on when the
    configuration brings the price. *)
Definition creator_of `{DataSource} (P : Panel) (p : Props) : SignalCreator :=
  mkSignalCreator P (high p) (low p) (benchmark_price p) (period p) 5
                  (mask p) (can_enter p) (can_exit p) (forward p)
                  (Fin (8 # 10000)%Q).

(** The return column get_factors_ic_df reads: "return" by default. *)
Definition return_column (rt : option string) : string :=
  match rt with None => "return"%string | Some s => s end.

(** *** Further examples *)

(** An ICMatrix with a date on which no factor has an IC. *)
Definition ic_gappy : DataFrame :=
  mkFrame ["a"; "b"]%string
          [(20160624, [q 1; q 1]); (20160627, [NaN; NaN]); (20160628, [q 1; q 3])].

(** An ICMatrix whose second factor never has an IC. *)
Definition ic_blank : DataFrame :=
  mkFrame ["a"; "b"]%string [(20160624, [q 1; NaN]); (20160627, [q 2; NaN])].

Definition three_factors : factors :=
  [("a"%string, panel_a); ("b"%string, panel_b); ("c"%string, panel_a)].

(** Factor "a" has a second date that factor "b" has not. *)
Definition factors_uneven : factors :=
  [("a"%string, panel_full); ("b"%string, panel_b)].

(** Two factors on disjoint asset universes. *)
Definition panel_x : Panel :=
  mkPanel {[20160624]} {["x"]}%string {[ (20160624, "x"%string) := q 1 ]}.

Definition panel_y : Panel :=
  mkPanel {[20160624]} {["y"]}%string {[ (20160624, "y"%string) := q 2 ]}.

Definition factors_disjoint : factors :=
  [("a"%string, panel_x); ("b"%string, panel_y)].

(** Two factors over the assets x and y, never both defined on one. *)
Definition panel_left : Panel :=
  mkPanel {[20160624]} {["x"; "y"]}%string {[ (20160624, "x"%string) := q 1 ]}.

Definition panel_right : Panel :=
  mkPanel {[20160624]} {["x"; "y"]}%string {[ (20160624, "y"%string) := q 1 ]}.

Definition factors_apart : factors :=
  [("a"%string, panel_left); ("b"%string, panel_right)].

(** The default configuration with the price supplied and a window of
    one date. *)
Definition props_priced : Props :=
  mkProps None None (Some panel_a) None None (Some "return"%string) None 5
          None None None true (Fin (8 # 10000)%Q) "simple" 1.

(** A factor without dates. *)
Definition panel_undated : Panel := mkPanel ∅ {["x"]}%string ∅.

Definition factors_undated : factors :=
  [("a"%string, panel_undated); ("b"%string, panel_b)].

(* ===================================================================== *)
(** * Properties                                                          *)
(* ===================================================================== *)

(** ** Facts on cell values *)

Section FnumFacts.


Lemma feqb_feq x y : feqb x y = true ↔ feq x y.
Proof.
  destruct x, y; simpl; try (split; [discriminate | tauto]); try tauto.
  apply Qeq_bool_iff.
Qed.

(** Addition of cells commutes on the nose, not only up to [feq]:
    panels that differ in the order of a sum are the same panel. *)
Lemma Qplus_comm_L (a b : Q) : (a + b)%Q = (b + a)%Q.
Proof.
  destruct a as [an ad], b as [bn bd]. unfold Qplus; simpl.
  f_equal; [lia | apply Pos.mul_comm].
Qed.

Lemma fadd_comm x y : fadd x y = fadd y x.
Proof. destruct x, y; simpl; auto. f_equal. apply Qplus_comm_L. Qed.

Lemma fsum_cons x l : fsum (x :: l) = fadd x (fsum l).
Proof. reflexivity. Qed.

Lemma fsum_Fin_inv l s : fsum l = Fin s → Forall (λ x, isfinite x = true) l.
Proof.
  revert s. induction l as [|x l IH]; intros s H; [constructor|].
  simpl in H. destruct x, (fsum l) eqn:E; simpl in H; try discriminate.
  constructor; [reflexivity | eauto].
Qed.





Lemma normalize_length w : length (normalize w) = length w.
Proof. unfold normalize. apply length_fmap. Qed.

Lemma nan_row_not_finite k : k ≠ 0%nat → all_finite (nan_row k) = false.
Proof. destruct k; [congruence | reflexivity]. Qed.

End FnumFacts.

(* ===================================================================== *)
(** ** Facts on tables, the shift and the loop                            *)
(* ===================================================================== *)

Section FrameFacts.

Implicit Types (rs : list (Z * list fnum)) (vs : list (list fnum)).

Lemma shift_rows_length k p vs : length (shift_rows k p vs) = length vs.
Proof.
  unfold shift_rows. destruct (0 <=? p).
  - rewrite length_take, length_app, length_replicate. lia.
  - rewrite length_app, length_drop, length_replicate. lia.
Qed.

Lemma shift_rows_0 k vs : shift_rows k 0 vs = vs.
Proof. unfold shift_rows. simpl. apply firstn_all. Qed.

(** What a non-negative shift does to the row at position i. *)
Lemma shift_rows_lookup k p vs (i : nat) :
  0 ≤ p → (i < length vs)%nat →
  shift_rows k p vs !! i =
    if Z.of_nat i <? p then Some (nan_row k) else vs !! (i - Z.to_nat p)%nat.
Proof.
  intros Hp Hi. unfold shift_rows.
  destruct (0 <=? p) eqn:E; [|lia].
  rewrite lookup_take_lt by lia.
  destruct (Z.of_nat i <? p) eqn:Ei.
  - rewrite lookup_app_l by (rewrite length_replicate; lia).
    apply lookup_replicate_2. lia.
  - rewrite lookup_app_r by (rewrite length_replicate; lia).
    rewrite length_replicate. reflexivity.
Qed.

Lemma index_shift p df : index (shift p df) = index df.
Proof.
  unfold shift, index at 1; simpl. apply fst_zip.
  unfold index, values. rewrite shift_rows_length, !length_fmap. lia.
Qed.

Lemma values_shift p df :
  values (shift p df) = shift_rows (length (columns df)) p (values df).
Proof.
  unfold shift, values at 1; simpl. apply snd_zip.
  unfold index, values. rewrite shift_rows_length, !length_fmap. lia.
Qed.

Lemma columns_shift p df : columns (shift p df) = columns df.
Proof. reflexivity. Qed.

(** Every row of a shifted table is a row of the table or an undefined
    row. *)
Lemma shift_rows_elem k p vs r :
  r ∈ shift_rows k p vs → r = nan_row k ∨ r ∈ vs.
Proof.
  unfold shift_rows. destruct (0 <=? p); intros H.
  - apply (subseteq_take _ _ r) in H. apply elem_of_app in H as [H|H]; auto.
    apply elem_of_replicate in H as [-> _]. auto.
  - apply elem_of_app in H as [H|H].
    + right. eapply subseteq_drop; eauto.
    + apply elem_of_replicate in H as [-> _]. auto.
Qed.

(** The loop, row by row: a row whose date is visited carries what the
    body computes for that date, or is left as it was. *)
Lemma for_dates_spec body dates rs :
  for_dates body dates rs =
    (λ r, if bool_decide (r.1 ∈ dates)
          then match body r.1 with Some w => (r.1, w) | None => r end
          else r) <$> rs.
Proof.
  revert rs. induction dates as [|d ds IH]; intros rs.
  - simpl. rewrite <- (list_fmap_id rs) at 1. apply list_fmap_ext.
    intros i r _. reflexivity.
  - unfold for_dates in *. simpl. rewrite IH.
    destruct (body d) as [w|] eqn:Eb.
    + unfold set_row. rewrite <- list_fmap_compose. apply list_fmap_ext.
      intros i [d' r] _. simpl.
      destruct (Z.eqb_spec d' d) as [->|Hne]; simpl.
      * rewrite Eb. rewrite (bool_decide_eq_true_2 (d ∈ d :: ds)) by set_solver.
        destruct (bool_decide (d ∈ ds)); reflexivity.
      * destruct (bool_decide (d' ∈ ds)) eqn:E1.
        -- apply bool_decide_eq_true_1 in E1.
           rewrite bool_decide_eq_true_2 by set_solver. reflexivity.
        -- apply bool_decide_eq_false_1 in E1.
           rewrite bool_decide_eq_false_2 by set_solver. reflexivity.
    + apply list_fmap_ext. intros i [d' r] _. simpl.
      destruct (Z.eqb_spec d' d) as [->|Hne].
      * rewrite Eb. rewrite (bool_decide_eq_true_2 (d ∈ d :: ds)) by set_solver.
        destruct (bool_decide (d ∈ ds)); reflexivity.
      * destruct (bool_decide (d' ∈ ds)) eqn:E1.
        -- apply bool_decide_eq_true_1 in E1.
           rewrite bool_decide_eq_true_2 by set_solver. reflexivity.
        -- apply bool_decide_eq_false_1 in E1.
           rewrite bool_decide_eq_false_2 by set_solver. reflexivity.
Qed.

(** The loop over the table's own index, on the all-undefined table. *)
Lemma for_dates_index body (idx : list Z) k :
  for_dates body idx ((λ d, (d, nan_row k)) <$> idx) =
    (λ d, (d, default (nan_row k) (body d))) <$> idx.
Proof.
  rewrite for_dates_spec, <- list_fmap_compose. apply list_fmap_ext.
  intros i d Hd. simpl.
  rewrite bool_decide_eq_true_2 by (eapply list_elem_of_lookup_2; eauto).
  destruct (body d); reflexivity.
Qed.

(** On an ascending index the rows dated up to the j-th date are the
    first j+1 rows. *)
Lemma filter_upto_sorted rs (j : nat) r :
  StronglySorted Z.lt (fst <$> rs) → rs !! j = Some r →
  List.filter (λ x, x.1 <=? r.1) rs = take (S j) rs.
Proof.
  revert j. induction rs as [|x rs IH]; intros j Hs Hj; [done|].
  simpl in Hs. apply StronglySorted_inv in Hs as [Hs Hx].
  rewrite Forall_forall in Hx.
  destruct j as [|j]; simpl in Hj.
  - inversion Hj; subst x. simpl. rewrite Z.leb_refl. f_equal.
    rewrite take_0. clear IH Hs Hj.
    induction rs as [|y rs IH]; [done|]. simpl.
    assert (r.1 < y.1) by (apply Hx; set_solver).
    destruct (Z.leb_spec y.1 r.1); [lia|].
    apply IH. intros z Hz. apply Hx. set_solver.
  - simpl. assert (x.1 < r.1).
    { apply Hx. apply list_elem_of_fmap. exists r. split; [done|].
      eapply list_elem_of_lookup_2; eauto. }
    destruct (Z.leb_spec x.1 r.1); [|lia]. f_equal. eauto.
Qed.

Lemma tail_pos_length {A} (n : Z) (l : list A) :
  0 < n → length (tail n l) = Nat.min (Z.to_nat n) (length l).
Proof.
  intros Hn. unfold tail.
  destruct (Z.eqb_spec n 0); [lia|]. destruct (Z.ltb_spec 0 n); [|lia].
  rewrite length_drop. lia.
Qed.

End FrameFacts.

(* ===================================================================== *)
(** ** The weight schemes                                                 *)
(* ===================================================================== *)

Section LoopFacts.

Implicit Types (rs : list (Z * list fnum)).

Lemma for_dates_cons body d ds rs :
  for_dates body (d :: ds) rs =
    for_dates body ds (match body d with
                       | Some w => set_row d w rs
                       | None => rs
                       end).
Proof. reflexivity. Qed.

(** A raising loop that ends well did what the plain loop does. *)
Lemma for_dates_m_Ok body dates rs rs' :
  for_dates_m body dates rs = Ok rs' →
  rs' = for_dates (assigned body) dates rs.
Proof.
  revert rs. induction dates as [|d ds IH]; intros rs H; simpl in H.
  - inversion H. reflexivity.
  - rewrite for_dates_cons. unfold assigned at 2.
    destruct (body d) as [[w|]|e]; simpl in H; try discriminate; auto.
Qed.

(** One raising date is enough for the loop to raise. *)
Lemma for_dates_m_Raise body dates rs d e :
  d ∈ dates → body d = Raise e → ∃ e', for_dates_m body dates rs = Raise e'.
Proof.
  revert rs. induction dates as [|x ds IH]; intros rs Hd Hb.
  - inversion Hd.
  - simpl. destruct (decide (d = x)) as [->|Hne].
    + rewrite Hb. simpl. eauto.
    + assert (d ∈ ds) by (apply elem_of_cons in Hd as [?|?]; [done|done]).
      destruct (body x) as [[w|]|e0]; simpl; eauto.
Qed.

Lemma for_dates_m_total body dates rs :
  (∀ d, d ∈ dates → is_ok (body d) = true) →
  ∃ rs', for_dates_m body dates rs = Ok rs'.
Proof.
  revert rs. induction dates as [|x ds IH]; intros rs H; simpl; [eauto|].
  assert (Hx : is_ok (body x) = true) by (apply H; left).
  assert (Hds : ∀ d, d ∈ ds → is_ok (body d) = true)
    by (intros d Hd; apply H; right; exact Hd).
  destruct (body x) as [[w|]|e]; simpl in *; try discriminate; eauto.
Qed.

Lemma for_dates_m_ext body body' dates rs :
  (∀ d, d ∈ dates → body d = body' d) →
  for_dates_m body dates rs = for_dates_m body' dates rs.
Proof.
  revert rs. induction dates as [|x ds IH]; intros rs H; simpl; [done|].
  rewrite <- (H x) by left.
  assert (Hds : ∀ d, d ∈ ds → body d = body' d)
    by (intros d Hd; apply H; right; exact Hd).
  destruct (body x) as [[w|]|e]; simpl; auto.
Qed.

(** A property of the initial rows and of everything the body assigns
    is a property of the rows the loop leaves. *)
Lemma for_dates_rows (P : list fnum → Prop) body dates rs :
  (∀ r, r ∈ rs → P r.2) → (∀ d w, body d = Some w → P w) →
  ∀ r, r ∈ for_dates body dates rs → P r.2.
Proof.
  intros Hrs Hb r. rewrite for_dates_spec. intros Hr.
  apply list_elem_of_fmap in Hr as (r0 & -> & Hr0).
  destruct (bool_decide (r0.1 ∈ dates)); [|auto].
  destruct (body r0.1) eqn:E; simpl; eauto.
Qed.




Lemma values_elem (df : DataFrame) r :
  r ∈ values df ↔ ∃ d, (d, r) ∈ rows df.
Proof.
  unfold values. rewrite list_elem_of_fmap. split.
  - intros ([d r0] & -> & H). eauto.
  - intros [d H]. exists (d, r). done.
Qed.


End LoopFacts.

Section RollingFacts.

Implicit Types (rs : list (Z * list fnum)) (vs : list (list fnum)).

Lemma shift_shifted_by h df : 0 ≤ h → shifted_by h (shift h df) df.
Proof.
  intros Hh. split; [reflexivity|]. split; [apply index_shift|].
  intros i Hi. rewrite values_shift. by apply shift_rows_lookup.
Qed.

(** With nothing to shift by, the table is returned as the loop left it. *)
Lemma shift_0 df : shift 0 df = df.
Proof.
  destruct df as [cols rs]. unfold shift, index, values; simpl.
  rewrite shift_rows_0. f_equal. apply zip_fst_snd.
Qed.

Lemma mean_axis0_nil k : mean_axis0 k [] = nan_row k.
Proof.
  unfold mean_axis0, nan_row. generalize 0%nat.
  induction k as [|k IH]; intros s; simpl; [done|]. f_equal. apply IH.
Qed.

Lemma mean_axis0_length k vs : length (mean_axis0 k vs) = k.
Proof. unfold mean_axis0. by rewrite length_fmap, length_seq. Qed.

Lemma normalize_nan_row k : normalize (nan_row k) = nan_row k.
Proof.
  unfold normalize. generalize (fsum (nan_row k)). intros s.
  unfold nan_row. induction k as [|k IH]; simpl; [done|]. f_equal. apply IH.
Qed.

Lemma zip_with_fdiv_nan k l :
  length l = k → zip_with fdiv (nan_row k) l = nan_row k.
Proof.
  unfold nan_row.
  revert l. induction k as [|k IH]; intros [|y l] Hl; simpl in *; try done.
  f_equal. apply IH. lia.
Qed.

Lemma rolling_loop_index f ic n : index (rolling_loop f ic n) = index ic.
Proof.
  unfold rolling_loop, index at 1; simpl. rewrite for_dates_index.
  rewrite <- list_fmap_compose. apply list_fmap_id.
Qed.

Lemma rolling_loop_values f ic n :
  values (rolling_loop f ic n) =
    (λ d, default (nan_row (length (columns ic))) (rolling_body f ic n d))
      <$> index ic.
Proof.
  unfold rolling_loop, values at 1; simpl. rewrite for_dates_index.
  rewrite <- list_fmap_compose. reflexivity.
Qed.

Lemma index_lookup ic (j : nat) d r :
  rows ic !! j = Some (d, r) → index ic !! j = Some d.
Proof. intros H. unfold index. rewrite list_lookup_fmap, H. done. Qed.

(** With an empty window (rollback_period = 0) nothing is skipped and
    every row is the formula of no rows at all. *)
Lemma rolling_loop_zero f ic (j : nat) :
  (j < length (rows ic))%nat →
  values (rolling_loop f ic 0) !! j = Some (f []).
Proof.
  intros Hj. rewrite rolling_loop_values, list_lookup_fmap.
  destruct (lookup_lt_is_Some_2 (index ic) j) as [d Hd].
  { unfold index. rewrite length_fmap. done. }
  rewrite Hd. reflexivity.
Qed.

(** On an ascending index and for a window of n >= 1 rows: the first
    n-1 rows are skipped, every later one is the formula of the n rows
    that end there. *)
Lemma rolling_loop_lookup f ic n (j : nat) :
  StronglySorted Z.lt (index ic) → 1 ≤ n → (j < length (rows ic))%nat →
  values (rolling_loop f ic n) !! j =
    Some (if Z.of_nat (S j) <? n then nan_row (length (columns ic))
          else f (window_at n j (values ic))).
Proof.
  intros Hs Hn Hj. rewrite rolling_loop_values, list_lookup_fmap.
  destruct (lookup_lt_is_Some_2 (rows ic) j Hj) as [[d r] Hr].
  rewrite (index_lookup _ _ _ _ Hr).
  change ((λ d0, default (nan_row (length (columns ic)))
                   (rolling_body f ic n d0)) <$> Some d)
    with (Some (default (nan_row (length (columns ic)))
                        (rolling_body f ic n d))).
  f_equal. unfold rolling_body, upto.
  pose proof (filter_upto_sorted (rows ic) j (d, r) Hs Hr) as Hf.
  change ((d, r).1) with d in Hf. rewrite Hf. clear Hf.
  assert (Hlen : length (take (S j) (rows ic)) = S j)
    by (rewrite length_take; lia).
  rewrite tail_pos_length by lia. rewrite Hlen.
  destruct (Z.ltb_spec (Z.of_nat (S j)) n) as [Hlt|Hge].
  - destruct (Z.ltb_spec (Z.of_nat (Nat.min (Z.to_nat n) (S j))) n); [done|lia].
  - destruct (Z.ltb_spec (Z.of_nat (Nat.min (Z.to_nat n) (S j))) n); [lia|].
    simpl. f_equal. unfold tail, window_at, values.
    destruct (Z.eqb_spec n 0); [lia|]. destruct (Z.ltb_spec 0 n); [|lia].
    rewrite Hlen, fmap_drop, fmap_take. reflexivity.
Qed.

Lemma window_at_length n (j : nat) vs :
  1 ≤ n → Z.of_nat (S j) >= n → (j < length vs)%nat →
  length (window_at n j vs) = Z.to_nat n.
Proof.
  intros Hn Hj Hl. unfold window_at. rewrite length_drop, length_take. lia.
Qed.

End RollingFacts.

Section SchemeTheorems.

Variable fsqrt : fnum → fnum.
Variable LedoitWolf_fit : matrix → option matrix.
Variable linalg_inv : matrix → option matrix.

Lemma ic_weight_loop_rolling ic n :
  ic_weight_loop ic n = rolling_loop (ic_formula (length (columns ic))) ic n.
Proof. reflexivity. Qed.

Lemma ir_weight_loop_rolling ic n :
  ir_weight_loop fsqrt ic n =
    rolling_loop (ir_formula fsqrt (length (columns ic))) ic n.
Proof. reflexivity. Qed.









(** C2.  For every scheme and every holding period h >= 0 the returned
    WeightMatrix is the table the loop computed, moved down by h rows:
    output row i is computed row i-h, and the first h rows are
    undefined.  The two schemes that can raise return a table exactly
    when their loop ends without an error. *)
Theorem output_is_shifted_loop ic fd h n ct :
  0 ≤ h →
  shifted_by h (ic_weight ic h n) (ic_weight_loop ic n) ∧
  shifted_by h (ir_weight fsqrt ic h n) (ir_weight_loop fsqrt ic n) ∧
  match max_IR_weight_loop LedoitWolf_fit linalg_inv ic n ct,
        max_IR_weight LedoitWolf_fit linalg_inv ic h n ct with
  | Ok pre, Ok out => shifted_by h out pre
  | Raise e, Raise e' => e = e'
  | _, _ => False
  end ∧
  match max_IC_weight_loop LedoitWolf_fit linalg_inv ic fd ct,
        max_IC_weight LedoitWolf_fit linalg_inv ic fd h ct with
  | Ok pre, Ok out => shifted_by h out pre
  | Raise e, Raise e' => e = e'
  | _, _ => False
  end.
Proof.
  intros Hh. repeat split; try (apply shift_shifted_by; done).
  - unfold max_IR_weight.
    destruct (max_IR_weight_loop _ _ _ _ _) as [pre|e]; simpl; [|done].
    by apply shift_shifted_by.
  - unfold max_IC_weight.
    destruct (max_IC_weight_loop _ _ _ _ _) as [pre|e]; simpl; [|done].
    by apply shift_shifted_by.
Qed.

(** C4 (as amended).  On an ascending IC index, for ic_weight and
    ir_weight before the shift: with rollback_period = 0 the window is
    empty and every row is undefined; with rollback_period = N >= 1 the
    first N-1 rows of the index are undefined and every later row is the
    scheme's formula of exactly the N rows that end at its date (so with
    N = 1, of that date's IC row alone).  No row is computed from fewer
    than N rows. *)
Theorem rolling_window_rows ic n (j : nat) :
  StronglySorted Z.lt (index ic) → (j < length (rows ic))%nat →
  let k := length (columns ic) in
  (n = 0 →
     values (ic_weight_loop ic n) !! j = Some (nan_row k) ∧
     values (ir_weight_loop fsqrt ic n) !! j = Some (nan_row k)) ∧
  (1 ≤ n → Z.of_nat (S j) < n →
     values (ic_weight_loop ic n) !! j = Some (nan_row k) ∧
     values (ir_weight_loop fsqrt ic n) !! j = Some (nan_row k)) ∧
  (1 ≤ n → n ≤ Z.of_nat (S j) →
     let W := window_at n j (values ic) in
     length W = Z.to_nat n ∧
     values (ic_weight_loop ic n) !! j = Some (normalize (mean_axis0 k W)) ∧
     values (ir_weight_loop fsqrt ic n) !! j =
       Some (normalize (zip_with fdiv (mean_axis0 k W) (std_axis0 fsqrt k W)))).
Proof.
  intros Hs Hj k. rewrite ic_weight_loop_rolling, ir_weight_loop_rolling.
  split; [|split].
  - intros ->. rewrite !rolling_loop_zero by done.
    unfold ic_formula, ir_formula. fold k.
    rewrite mean_axis0_nil, zip_with_fdiv_nan, normalize_nan_row.
    + done.
    + unfold std_axis0. by rewrite length_fmap, length_seq.
  - intros Hn Hlt. rewrite !rolling_loop_lookup by done.
    destruct (Z.ltb_spec (Z.of_nat (S j)) n); [done|lia].
  - intros Hn Hge W. rewrite !rolling_loop_lookup by done.
    destruct (Z.ltb_spec (Z.of_nat (S j)) n); [lia|].
    split; [|done]. apply window_at_length; [done|lia|].
    unfold values. rewrite length_fmap. done.
Qed.

End SchemeTheorems.

Section SingularAndCovariance.

Variable LedoitWolf_fit : matrix → option matrix.
Variable linalg_inv : matrix → option matrix.

Lemma cov_block_spec ct k X :
  cov_block LedoitWolf_fit (cov_type_name ct) k X =
    spec_covariance LedoitWolf_fit ct k X.
Proof. destruct ct; reflexivity. Qed.

(** C3 (as amended).  In max_IR_weight and max_IC_weight a covariance
    matrix that cannot be inverted on one date of the index is not
    recovered: the error of the inversion ends the whole call, which
    returns no WeightMatrix at all (and so no finite weight for that
    date). *)
Theorem singular_covariance_aborts ic fd h n ct dt :
  dt ∈ index ic →
  (n ≤ Z.of_nat (length (tail n (upto ic dt))) →
   linalg_inv (cov_block LedoitWolf_fit ct (length (columns ic))
                         (snd <$> tail n (upto ic dt))) = None →
   ∃ e, max_IR_weight LedoitWolf_fit linalg_inv ic h n ct = Raise e) ∧
  (∀ f_dt, cross_section ic fd dt = Ok f_dt → f_dt ≠ [] →
   linalg_inv (cov_block LedoitWolf_fit ct (length (columns ic))
                         (snd <$> f_dt)) = None →
   ∃ e, max_IC_weight LedoitWolf_fit linalg_inv ic fd h ct = Raise e).
Proof.
  intros Hdt. split.
  - intros Hn Hinv.
    assert (Hb : max_IR_weight_body LedoitWolf_fit linalg_inv ic n ct dt
                 = Raise LinAlgError).
    { unfold max_IR_weight_body.
      destruct (Z.ltb_spec (Z.of_nat (length (tail n (upto ic dt)))) n); [lia|].
      by rewrite Hinv. }
    destruct (for_dates_m_Raise _ (index ic)
                (rows (empty_frame (index ic) (columns ic))) dt _ Hdt Hb)
      as [e He].
    exists e. unfold max_IR_weight, max_IR_weight_loop. by rewrite He.
  - intros f_dt Hf Hne Hinv.
    assert (Hb : max_IC_weight_body LedoitWolf_fit linalg_inv ic fd ct dt
                 = Raise LinAlgError).
    { unfold max_IC_weight_body. rewrite Hf. simpl.
      destruct f_dt; [done|]. simpl. simpl in Hinv. by rewrite Hinv. }
    destruct (for_dates_m_Raise _ (index ic)
                (rows (empty_frame (index ic) (columns ic))) dt _ Hdt Hb)
      as [e He].
    exists e. unfold max_IC_weight, max_IC_weight_loop. by rewrite He.
Qed.

(** C8.  On a date that is not skipped, max_IR_weight and max_IC_weight
    invert the covariance the design document describes: for "shrink"
    the Ledoit-Wolf fit of the windowed observations, and the sample
    covariance of the same window when the fit fails; for "simple" the
    sample covariance.  When the fit fails everywhere, "shrink" returns
    what "simple" returns. *)
Theorem covariance_estimation ct ic fd h n dt :
  (n ≤ Z.of_nat (length (tail n (upto ic dt))) →
   max_IR_weight_body LedoitWolf_fit linalg_inv ic n (cov_type_name ct) dt =
     match linalg_inv (spec_covariance LedoitWolf_fit ct (length (columns ic))
                         (snd <$> tail n (upto ic dt))) with
     | None => Raise LinAlgError
     | Some inv_cov =>
         apply_inverse inv_cov
           (mean_axis0 (length (columns ic)) (snd <$> tail n (upto ic dt)))
     end) ∧
  (∀ f_dt, cross_section ic fd dt = Ok f_dt → f_dt ≠ [] →
   max_IC_weight_body LedoitWolf_fit linalg_inv ic fd (cov_type_name ct) dt =
     match linalg_inv (spec_covariance LedoitWolf_fit ct (length (columns ic))
                         (snd <$> f_dt)) with
     | None => Raise LinAlgError
     | Some inv_cov => v ← loc_row ic dt; apply_inverse inv_cov v
     end) ∧
  ((∀ X, LedoitWolf_fit X = None) →
   max_IR_weight LedoitWolf_fit linalg_inv ic h n "shrink" =
     max_IR_weight LedoitWolf_fit linalg_inv ic h n "simple" ∧
   max_IC_weight LedoitWolf_fit linalg_inv ic fd h "shrink" =
     max_IC_weight LedoitWolf_fit linalg_inv ic fd h "simple").
Proof.
  split; [|split].
  - intros Hn. unfold max_IR_weight_body.
    destruct (Z.ltb_spec (Z.of_nat (length (tail n (upto ic dt)))) n); [lia|].
    by rewrite cov_block_spec.
  - intros f_dt Hf Hne. unfold max_IC_weight_body. rewrite Hf. simpl.
    destruct f_dt; [done|]. by rewrite cov_block_spec.
  - intros Hfail.
    assert (Hcov : ∀ k' X, cov_block LedoitWolf_fit "shrink" k' X
                           = cov_block LedoitWolf_fit "simple" k' X).
    { intros k' X. unfold cov_block. simpl. by rewrite Hfail. }
    split.
    + unfold max_IR_weight, max_IR_weight_loop. f_equal. f_equal.
      apply for_dates_m_ext. intros d _. unfold max_IR_weight_body.
      by rewrite Hcov.
    + unfold max_IC_weight, max_IC_weight_loop. f_equal. f_equal.
      apply for_dates_m_ext. intros d _. unfold max_IC_weight_body.
      destruct (cross_section ic fd d); simpl; [|done].
      by rewrite Hcov.
Qed.

End SingularAndCovariance.

(* ===================================================================== *)
(** ** The weight schemes on concrete IC matrices                         *)
(* ===================================================================== *)

Ltac ascending := vm_compute; repeat constructor.

Lemma ic_three_ascending : StronglySorted Z.lt (index ic_three).
Proof. ascending. Qed.



(** C2, witness: holding period 1 on [ic_three]. *)
Lemma output_is_shifted_loop_witness :
  0 ≤ 1 ∧
  shifted_by 1 (ic_weight ic_three 1 2) (ic_weight_loop ic_three 2) ∧
  values (ic_weight ic_three 1 2) !! 2%nat
    = values (ic_weight_loop ic_three 2) !! 1%nat.
Proof.
  assert (H01 : 0 ≤ 1) by (intros C; discriminate C).
  pose proof (output_is_shifted_loop fsqrt_floor fit_fails inv_exact ic_three []
                1 2 "simple" H01) as (H & _).
  split; [exact H01|]. split; [exact H|].
  destruct H as (_ & _ & H). apply (H 2%nat). vm_compute. lia.
Defined.

(** C4, witness: the window of 2 on [ic_three], at its second date. *)
Lemma rolling_window_rows_witness :
  StronglySorted Z.lt (index ic_three) ∧ (1 < length (rows ic_three))%nat ∧
  values (ic_weight_loop ic_three 2) !! 1%nat
    = Some (normalize (mean_axis0 2 (window_at 2 1 (values ic_three)))) ∧
  values (ic_weight_loop ic_three 2) !! 0%nat = Some (nan_row 2).
Proof.
  assert (H1 : (1 < length (rows ic_three))%nat) by (vm_compute; lia).
  assert (H0 : (0 < length (rows ic_three))%nat) by (vm_compute; lia).
  split; [exact ic_three_ascending|]. split; [exact H1|]. split.
  - pose proof (rolling_window_rows fsqrt_floor ic_three 2 1
                  ic_three_ascending H1) as (_ & _ & H).
    destruct H as (_ & H & _); [lia | vm_compute; discriminate | exact H].
  - pose proof (rolling_window_rows fsqrt_floor ic_three 2 0
                  ic_three_ascending H0) as (_ & H & _).
    destruct H as (H & _); [lia | vm_compute; reflexivity | exact H].
Defined.

(** C4, as stated, fails for rollback_period = 0: every date of
    [ic_three] carries an IC observation, the last one has two earlier
    ones, and yet every row of ic_weight and ir_weight is undefined. *)
Lemma rollback_zero_all_undefined :
  Forall (λ r, no_nan r = true) (values ic_three) ∧
  values (ic_weight ic_three 0 0) = [[NaN; NaN]; [NaN; NaN]; [NaN; NaN]] ∧
  values (ir_weight fsqrt_floor ic_three 0 0)
    = [[NaN; NaN]; [NaN; NaN]; [NaN; NaN]].
Proof.
  split; [repeat constructor|]. split; vm_compute; reflexivity.
Qed.

(** C3, witness: the two ICs of [ic_collinear] move together, and so do
    the two factors of the cross-section below. *)
Lemma singular_covariance_aborts_witness :
  20160627 ∈ index ic_collinear ∧
  2 ≤ Z.of_nat (length (tail 2 (upto ic_collinear 20160627))) ∧
  inv_exact (cov_block fit_fails "simple" 2
               (snd <$> tail 2 (upto ic_collinear 20160627))) = None ∧
  ∃ e, max_IR_weight fit_fails inv_exact ic_collinear 3 2 "simple" = Raise e.
Proof.
  assert (Hd : 20160627 ∈ index ic_collinear)
    by (apply (list_elem_of_lookup_2 _ 1%nat); reflexivity).
  assert (Hn : 2 ≤ Z.of_nat (length (tail 2 (upto ic_collinear 20160627))))
    by (vm_compute; discriminate).
  assert (Hs : inv_exact (cov_block fit_fails "simple" 2
                 (snd <$> tail 2 (upto ic_collinear 20160627))) = None)
    by (vm_compute; reflexivity).
  split; [exact Hd|]. split; [exact Hn|]. split; [exact Hs|].
  exact (proj1 (singular_covariance_aborts fit_fails inv_exact ic_collinear []
                  3 2 "simple" 20160627 Hd) Hn Hs).
Defined.

(** C3, as stated, fails: on [ic_collinear] the covariance of the second
    date is singular and max_IR_weight raises LinAlgError; there is no
    returned table in which that date's row could be undefined. *)
Lemma singular_covariance_no_output :
  np_cov (transpose 2 (values ic_collinear))
    = [[Fin (8 # 16)%Q; Fin (8 # 16)%Q]; [Fin (8 # 16)%Q; Fin (8 # 16)%Q]] ∧
  max_IR_weight fit_fails inv_exact ic_collinear 0 2 "simple"
    = Raise LinAlgError ∧
  ¬ ∃ out, max_IR_weight fit_fails inv_exact ic_collinear 0 2 "simple" = Ok out
           ∧ values out !! 1%nat = Some (nan_row 2).
Proof.
  split; [vm_compute; reflexivity|].
  assert (H : max_IR_weight fit_fails inv_exact ic_collinear 0 2 "simple"
              = Raise LinAlgError) by (vm_compute; reflexivity).
  split; [exact H|]. intros (out & Hout & _). congruence.
Qed.

(** C8, witness: one date of [ic_opposite] with the cross-section of
    [two_factors], and a fit that fails. *)
Lemma covariance_estimation_witness :
  ∃ f_dt,
    1 ≤ Z.of_nat (length (tail 1 (upto ic_opposite 20160624))) ∧
    cross_section ic_opposite two_factors 20160624 = Ok f_dt ∧ f_dt ≠ [] ∧
    max_IC_weight_body fit_fails inv_exact ic_opposite two_factors "shrink"
                       20160624
      = match inv_exact (sample_covariance 2 (snd <$> f_dt)) with
        | None => Raise LinAlgError
        | Some inv_cov =>
            v ← loc_row ic_opposite 20160624; apply_inverse inv_cov v
        end ∧
    max_IR_weight fit_fails inv_exact ic_opposite 0 1 "shrink"
      = max_IR_weight fit_fails inv_exact ic_opposite 0 1 "simple".
Proof.
  eexists.
  assert (Hn : 1 ≤ Z.of_nat (length (tail 1 (upto ic_opposite 20160624))))
    by (vm_compute; discriminate).
  split; [exact Hn|]. split; [vm_compute; reflexivity|].
  split; [discriminate|].
  pose proof (covariance_estimation fit_fails inv_exact Shrink ic_opposite
                two_factors 0 1 20160624) as (_ & H2 & H3).
  specialize (H2 _ eq_refl ltac:(discriminate)).
  split; [exact H2|]. apply H3. reflexivity.
Defined.

(* ===================================================================== *)
(** ** Panels, the mapping of factors and the combiner                    *)
(* ===================================================================== *)

Section PanelFacts.

Lemma padd_comm x y : padd x y = padd y x.
Proof.
  unfold padd. f_equal.
  - apply (comm_L (∪)).
  - apply (comm_L (∪)).
  - apply map_eq. intros i. rewrite !lookup_intersection_with.
    destruct (p_cells x !! i), (p_cells y !! i); simpl; try done.
    by rewrite fadd_comm.
Qed.

Lemma mem_false s l : s ∉ l → mem s l = false.
Proof.
  unfold mem. induction l as [|x l IH]; intros Hs; [done|]. simpl.
  destruct (String.eqb_spec s x) as [->|Hne].
  - exfalso. apply Hs. left.
  - apply IH. intros C. apply Hs. by right.
Qed.

Lemma mem_true s l : mem s l = true → s ∈ l.
Proof.
  unfold mem. induction l as [|x l IH]; simpl; [done|].
  destruct (String.eqb_spec s x) as [->|Hne]; simpl.
  - intros _. left.
  - intros Hm. right. auto.
Qed.

Lemma dict_get_head k v d : dict_get k ((k, v) :: d) = Some v.
Proof. simpl. by rewrite String.eqb_refl. Qed.

Lemma dict_set_head k v v' d : dict_set k v' ((k, v) :: d) = (k, v') :: d.
Proof. simpl. by rewrite String.eqb_refl. Qed.

Lemma dict_get_tail k k' v d :
  k' ≠ k → dict_get k ((k', v) :: d) = dict_get k d.
Proof. intros Hne. simpl. by apply String.eqb_neq in Hne as ->. Qed.

Lemma dict_set_tail k k' v v' d :
  k' ≠ k → dict_set k v' ((k', v) :: d) = (k', v) :: dict_set k v' d.
Proof. intros Hne. simpl. by apply String.eqb_neq in Hne as ->. Qed.

End PanelFacts.

Section CombinerFacts.

Context `{Preprocessing} `{SignalEvaluation} `{DataSource} `{Numerics}.

Variable standardize_type : option string.
Variable winsorization : bool.
Variable index_member : option Panel.

Notation std := (standardized standardize_type winsorization index_member).
Notation clean := (cleaned winsorization index_member).

Lemma by_type_valid p :
  valid_standardize_type standardize_type = true →
  by_type standardize_type (clean p) = Ok (std p).
Proof.
  unfold valid_standardize_type, by_type, standardized.
  destruct standardize_type as [t|]; [|done].
  destruct (String.eqb t "z_score"); [done|].
  destruct (String.eqb t "rank"); [done|]. discriminate.
Qed.

Lemma by_type_invalid t p :
  standardize_type = Some t → t ∉ ["z_score"; "rank"]%string →
  by_type standardize_type p = Raise ValueError.
Proof.
  intros -> Ht. unfold by_type.
  destruct (String.eqb_spec t "z_score") as [->|_].
  { exfalso. apply Ht. left. }
  destruct (String.eqb_spec t "rank") as [->|_]; [|done].
  exfalso. apply Ht. right. left.
Qed.

Lemma standarize_factors_two a b A B :
  valid_standardize_type standardize_type = true → a ≠ b →
  standarize_factors standardize_type winsorization index_member
                     [a; b] [(a, A); (b, B)]
    = (Ok (), [(a, std A); (b, std B)]).
Proof.
  intros Hv Hab. cbn [standarize_factors].
  rewrite dict_get_head, dict_set_head, by_type_valid, dict_set_head by done.
  rewrite (dict_get_tail b a) by done. rewrite dict_get_head.
  rewrite (dict_set_tail b a) by done. rewrite dict_set_head.
  rewrite by_type_valid by done.
  rewrite (dict_set_tail b a) by done. rewrite dict_set_head. done.
Qed.

(** C5.  With a recognised standardize_type, combine_factors with
    weighted_method "equal_weight" on a mapping of two factors A and B
    returns standardize(standardize(A) + standardize(B)), whichever of
    the two comes first in the mapping. *)
Theorem equal_weight_two_factors a b A B props :
  valid_standardize_type standardize_type = true → a ≠ b →
  combine_factors standardize_type winsorization index_member
                  (Some [(a, A); (b, B)]) "equal_weight" props
    = (Ok (std (padd (std A) (std B))), Some [(a, std A); (b, std B)]) ∧
  (combine_factors standardize_type winsorization index_member
                   (Some [(b, B); (a, A)]) "equal_weight" props).1
    = Ok (std (padd (std A) (std B))).
Proof.
  intros Hv Hab. unfold combine_factors. cbn [keys fmap list_fmap fst length].
  change (2 <? 2)%nat with false. cbv iota.
  rewrite !standarize_factors_two by done.
  change (mem "equal_weight" ["max_IR"; "max_IC"; "ic_weight"; "ir_weight"]%string)
    with false.
  change ("equal_weight" =? "equal_weight")%string with true. cbv iota.
  unfold dict_values, reduce, sum_weighted_factors, standarize_factors_frame.
  cbn [fmap list_fmap snd foldl mbind result_bind fst].
  rewrite !by_type_valid by done. rewrite (padd_comm (std B) (std A)). done.
Qed.

Lemma combine_too_few fd wm props :
  fd = None ∨ (∃ d, fd = Some d ∧ (length d < 2)%nat) →
  combine_factors standardize_type winsorization index_member fd wm props
    = (Raise ValueError, fd).
Proof.
  intros [->|(d & -> & Hd)]; [done|]. unfold combine_factors, keys.
  rewrite length_fmap. by destruct (Nat.ltb_spec (length d) 2); [|lia].
Qed.

Lemma orthogonalize_too_few fd :
  fd = None ∨ (∃ d, fd = Some d ∧ (length d < 2)%nat) →
  orthogonalize fd standardize_type winsorization index_member
    = (Raise ValueError, fd).
Proof.
  intros [->|(d & -> & Hd)]; [done|]. unfold orthogonalize, keys.
  rewrite length_fmap. by destruct (Nat.ltb_spec (length d) 2); [|lia].
Qed.

Lemma combine_bad_standardize_type t a A rest wm props :
  standardize_type = Some t → t ∉ ["z_score"; "rank"]%string →
  (1 ≤ length rest)%nat →
  combine_factors standardize_type winsorization index_member
                  (Some ((a, A) :: rest)) wm props
    = (Raise ValueError, Some ((a, clean A) :: rest)).
Proof.
  intros Hst Ht Hlen. unfold combine_factors, keys.
  rewrite length_fmap. simpl length.
  destruct (Nat.ltb_spec (S (length rest)) 2); [lia|].
  cbn [fmap list_fmap fst standarize_factors].
  rewrite dict_get_head, dict_set_head.
  by rewrite (by_type_invalid t _ Hst Ht).
Qed.

Lemma combine_bad_weighted_method d d' wm props :
  (2 ≤ length d)%nat →
  standarize_factors standardize_type winsorization index_member (keys d) d
    = (Ok (), d') →
  wm ∉ ["max_IR"; "max_IC"; "ic_weight"; "ir_weight"; "equal_weight"]%string →
  combine_factors standardize_type winsorization index_member (Some d) wm props
    = (Raise ValueError, Some d').
Proof.
  intros Hlen Hstd Hwm. unfold combine_factors.
  unfold keys at 1. rewrite length_fmap.
  destruct (Nat.ltb_spec (length d) 2); [lia|]. rewrite Hstd.
  rewrite mem_false.
  - destruct (String.eqb_spec wm "equal_weight") as [->|_]; [|done].
    exfalso. apply Hwm. set_solver.
  - intros C. apply Hwm. set_solver.
Qed.

End CombinerFacts.

(* ===================================================================== *)
(** ** The IC estimator                                                   *)
(* ===================================================================== *)

Section DatesFacts.

Lemma elem_of_dates_of (s : gset Z) d : d ∈ dates_of s ↔ d ∈ s.
Proof.
  unfold dates_of. rewrite merge_sort_Permutation. apply elem_of_elements.
Qed.

Lemma NoDup_dates_of (s : gset Z) : NoDup (dates_of s).
Proof.
  unfold dates_of. rewrite merge_sort_Permutation. apply NoDup_elements.
Qed.

Lemma le_NoDup_lt (l : list Z) :
  StronglySorted Z.le l → NoDup l → StronglySorted Z.lt l.
Proof.
  induction 1 as [|x l Hs IH Hx]; intros Hnd; [constructor|].
  apply NoDup_cons in Hnd as [Hnx Hnd]. constructor; [auto|].
  rewrite Forall_forall in *. intros y Hy.
  specialize (Hx y Hy). assert (x ≠ y) by (intros ->; done). lia.
Qed.

(** The dates of an index come strictly ascending. *)
Lemma dates_of_ascending (s : gset Z) : StronglySorted Z.lt (dates_of s).
Proof.
  apply le_NoDup_lt; [|apply NoDup_dates_of].
  unfold dates_of. apply StronglySorted_merge_sort; apply _.
Qed.

Lemma elem_of_union_indices (fd : factors) d :
  d ∈ foldr (λ f acc, p_index f.2 ∪ acc) (∅ : gset Z) fd ↔
  ∃ f, f ∈ fd ∧ d ∈ p_index f.2.
Proof.
  induction fd as [|f fd IH]; simpl.
  - split; [set_solver|]. intros (f & Hf & _). inversion Hf.
  - rewrite elem_of_union, IH. split.
    + intros [Hd|(g & Hg & Hd)]; [exists f | exists g]; split; auto.
      * left.
      * by right.
    + intros (g & Hg & Hd). apply elem_of_cons in Hg as [->|Hg]; eauto.
Qed.

Lemma all_nan_nan_row k : all_nan (nan_row k) = true.
Proof. induction k; simpl; auto. Qed.

End DatesFacts.

Section ICEstimatorFacts.

Context `{Preprocessing} `{SignalEvaluation}.

Lemma ic_table_loop_names sc rt names d tbl tbl' d' :
  ic_table_loop sc rt names d tbl = (Ok tbl', d') →
  fst <$> tbl' = (fst <$> tbl) ++ names.
Proof.
  revert d tbl. induction names as [|x names IH]; intros d tbl Hl; simpl in Hl.
  - inversion Hl. by rewrite app_nil_r.
  - destruct (dict_get x d) as [p|]; [|done].
    destruct (mem rt _); [|done].
    apply IH in Hl. rewrite Hl, fmap_app. simpl. by rewrite <- app_assoc.
Qed.

Lemma reindex_rows times df r :
  r ∈ values (reindex times df) →
  r = nan_row (length (columns df)) ∨ ∃ d, (d, r) ∈ rows df.
Proof.
  unfold reindex, values; simpl. rewrite <- list_fmap_compose.
  intros Hr. apply list_elem_of_fmap in Hr as (t & -> & _). simpl.
  destruct (List.find _ (rows df)) as [[d r]|] eqn:E; [|by left].
  right. exists d. apply find_some in E as [E _]. by apply list_elem_of_In.
Qed.

Lemma reindex_index times df : index (reindex times df) = times.
Proof.
  unfold reindex, index; simpl. rewrite <- list_fmap_compose.
  apply list_fmap_id.
Qed.

Lemma dropna_rows {L} (t : list (L * list fnum)) r :
  r ∈ dropna t → r ∈ t ∧ no_nan r.2 = true.
Proof.
  unfold dropna. intros Hr. apply list_elem_of_In, filter_In in Hr as [Hr Hn].
  split; [by apply list_elem_of_In | done].
Qed.

Lemma concat_ic_rows tbl t d r :
  concat_ic tbl = Ok t → (d, r) ∈ rows t →
  columns t = fst <$> tbl ∧ length r = length tbl.
Proof.
  unfold concat_ic. destruct tbl as [|s tbl]; [done|].
  intros Ht Hr. inversion Ht; subst t; clear Ht. simpl in *.
  split; [done|].
  apply list_elem_of_fmap in Hr as (t & Hr & _). inversion Hr; subst.
  simpl. by rewrite length_fmap.
Qed.

Lemma concat_ic_columns tbl t :
  concat_ic tbl = Ok t → columns t = fst <$> tbl.
Proof.
  unfold concat_ic. destruct tbl as [|s tbl]; [done|].
  intros Ht. by inversion Ht.
Qed.

(** C10.  When get_factors_ic_df returns an ICMatrix, its columns are
    the factor names, its index is the ascending union of the date
    indices of the input factor panels, and each of its rows has one
    cell per factor and is all-or-nothing: every cell defined, or every
    cell undefined. *)
Theorem ic_rows_all_or_nothing fd sc rt ic_df fd' :
  get_factors_ic_df fd sc rt = (Ok ic_df, fd') →
  columns ic_df = keys fd ∧
  StronglySorted Z.lt (index ic_df) ∧
  (∀ d, d ∈ index ic_df ↔ ∃ f, f ∈ fd ∧ d ∈ p_index f.2) ∧
  ∀ r, r ∈ values ic_df →
       length r = length (keys fd) ∧ (no_nan r = true ∨ all_nan r = true).
Proof.
  unfold get_factors_ic_df.
  destruct (negb (mem _ _)); [done|].
  unfold all_times. destruct fd as [|f0 fd0] eqn:Efd; [done|].
  rewrite <- Efd. clear Efd f0 fd0.
  destruct (ic_table_loop _ _ _ _ _) as [[tbl|e] d'] eqn:El; [|done].
  apply ic_table_loop_names in El. simpl in El.
  destruct (concat_ic tbl) as [t|e] eqn:Et; simpl; [|done].
  intros Hr. inversion Hr; subst ic_df fd'. clear Hr.
  pose proof (concat_ic_columns _ _ Et) as Hc.
  split; [simpl; congruence|].
  rewrite reindex_index. split; [apply dates_of_ascending|].
  split.
  { intros d. rewrite elem_of_dates_of. apply elem_of_union_indices. }
  intros r Hr. apply reindex_rows in Hr as [->|[d Hr]].
  - simpl. rewrite Hc, El. split.
    + unfold nan_row. by rewrite length_replicate.
    + right. apply all_nan_nan_row.
  - simpl in Hr. apply dropna_rows in Hr as [Hr Hn]. simpl in Hn.
    destruct (concat_ic_rows _ _ _ _ Et Hr) as [_ Hlen].
    split; [|by left].
    rewrite Hlen. rewrite <- El. by rewrite length_fmap.
Qed.

Lemma unrecognised_ret_type_raises fd sc (rt : string) :
  rt ∉ ["return"; "upside_ret"; "downside_ret"]%string →
  get_factors_ic_df fd sc (Some rt) = (Raise ValueError, fd).
Proof.
  intros Hrt. unfold get_factors_ic_df. by rewrite (mem_false _ _ Hrt).
Qed.

(** C7 (as amended).  get_factors_ic_df raises a validation error,
    before it touches the mapping, for every ret_type that is given and
    is none of "return", "upside_ret", "downside_ret"; a ret_type that is
    not given (None) is taken to be "return". *)
Theorem ret_type_validation fd sc (rt : string) :
  rt ∉ ["return"; "upside_ret"; "downside_ret"]%string →
  get_factors_ic_df fd sc (Some rt) = (Raise ValueError, fd) ∧
  get_factors_ic_df fd sc None = get_factors_ic_df fd sc (Some "return"%string).
Proof.
  intros Hrt. split; [|reflexivity].
  by apply unrecognised_ret_type_raises.
Qed.

Lemma missing_return_column a A rest sc rt :
  rt ∈ ["return"; "upside_ret"; "downside_ret"]%string →
  mem rt (sd_columns (get_signal_data sc (fillinf A))) = false →
  get_factors_ic_df ((a, A) :: rest) sc (Some rt)
    = (Raise ValueError, (a, fillinf A) :: rest).
Proof.
  intros Hrt Hcol. unfold get_factors_ic_df.
  assert (Hm : mem rt ["return"; "upside_ret"; "downside_ret"]%string = true).
  { unfold mem. apply existsb_exists. exists rt.
    split; [by apply list_elem_of_In | apply String.eqb_refl]. }
  rewrite Hm. cbn [negb all_times keys fmap list_fmap fst ic_table_loop].
  rewrite dict_get_head, dict_set_head, Hcol. done.
Qed.

End ICEstimatorFacts.

(* ===================================================================== *)
(** ** Validation errors                                                  *)
(* ===================================================================== *)

Section ValidationFacts.

Context `{Preprocessing} `{SignalEvaluation} `{DataSource} `{Numerics}.

(** C6 (as amended).  A validation error aborts the call at once and no
    result is returned.  Raised before anything is written: fewer than
    two factors (orthogonalize, combine_factors) and an unrecognised
    ret_type (get_factors_ic_df); the caller's mapping is as it was.
    Raised after the mapping has been written to: an unrecognised
    standardize_type (the first factor is left sanitized), an
    unrecognised weighted_method (every factor is left standardized) and
    a return column missing for the first factor (left sanitized). *)
Theorem validation_errors_abort st wins im :
  (∀ fd wm props, too_few fd →
     orthogonalize fd st wins im = (Raise ValueError, fd) ∧
     combine_factors st wins im fd wm props = (Raise ValueError, fd)) ∧
  (∀ fd sc (rt : string),
     rt ∉ ["return"; "upside_ret"; "downside_ret"]%string →
     get_factors_ic_df fd sc (Some rt) = (Raise ValueError, fd)) ∧
  (∀ t a A rest wm props,
     st = Some t → t ∉ ["z_score"; "rank"]%string → (1 ≤ length rest)%nat →
     combine_factors st wins im (Some ((a, A) :: rest)) wm props
       = (Raise ValueError, Some ((a, cleaned wins im A) :: rest))) ∧
  (∀ d d' wm props,
     (2 ≤ length d)%nat →
     standarize_factors st wins im (keys d) d = (Ok (), d') →
     wm ∉ ["max_IR"; "max_IC"; "ic_weight"; "ir_weight"; "equal_weight"]%string →
     combine_factors st wins im (Some d) wm props = (Raise ValueError, Some d')) ∧
  (∀ a A rest sc (rt : string),
     rt ∈ ["return"; "upside_ret"; "downside_ret"]%string →
     mem rt (sd_columns (get_signal_data sc (fillinf A))) = false →
     get_factors_ic_df ((a, A) :: rest) sc (Some rt)
       = (Raise ValueError, (a, fillinf A) :: rest)).
Proof.
  split; [|split; [|split; [|split]]].
  - intros fd wm props Hfd. split.
    + by apply orthogonalize_too_few.
    + by apply combine_too_few.
  - intros fd sc rt Hrt. by apply unrecognised_ret_type_raises.
  - intros t a A rest wm props. apply combine_bad_standardize_type.
  - intros d d' wm props. apply combine_bad_weighted_method.
  - intros a A rest sc rt. apply missing_return_column.
Qed.

(** A date whose joined rows are all incomplete is not skipped: the
    test for "no asset" comes before [dropna], the orthogonalization
    gets a matrix without rows, and the call raises. *)
Lemma incomplete_date_raises names panels date ss data :
  mapM (get_vector date) panels = Ok ss →
  concat_axis1 false ss = Ok data →
  data ≠ [] → dropna data = [] → names ≠ [] →
  (∀ B, linalg_orth [] = Some B → B = []) →
  ∃ e, orthogonalize_date names panels date = Raise e.
Proof.
  intros Hss Hdata Hne Hdrop Hnames Horth. unfold orthogonalize_date.
  rewrite Hss. simpl. rewrite Hdata. simpl.
  destruct data as [|x data]; [done|]. simpl length. cbn [Nat.eqb].
  rewrite Hdrop. simpl. unfold Schmidt.
  destruct (linalg_orth []) as [B|] eqn:E; [|eauto].
  rewrite (Horth B eq_refl). simpl.
  destruct names; [done|]. simpl. eauto.
Qed.

End ValidationFacts.

(* ===================================================================== *)
(** ** The estimator, the combiner and the orthogonalizer on examples     *)
(* ===================================================================== *)

Ltac not_in_list :=
  let H := fresh in
  intros H; repeat (apply elem_of_cons in H as [H|H]; [discriminate H|]);
  inversion H.

(** C5, witness: the two panels of [two_factors] under "rank". *)
Lemma equal_weight_two_factors_witness :
  valid_standardize_type (Some "rank"%string) = true ∧ "a"%string ≠ "b"%string ∧
  (combine_factors (Some "rank"%string) false None
                   (Some [("a"%string, panel_a); ("b"%string, panel_b)])
                   "equal_weight" generate_props).1
    = (combine_factors (Some "rank"%string) false None
                       (Some [("b"%string, panel_b); ("a"%string, panel_a)])
                       "equal_weight" generate_props).1.
Proof.
  assert (Hv : valid_standardize_type (Some "rank"%string) = true) by reflexivity.
  assert (Hab : "a"%string ≠ "b"%string) by discriminate.
  split; [exact Hv|]. split; [exact Hab|].
  destruct (equal_weight_two_factors (Some "rank"%string) false None
              "a"%string "b"%string panel_a panel_b generate_props Hv Hab)
    as [H1 H2].
  rewrite H1, H2. reflexivity.
Defined.

(** C6, witness: an unrecognised standardize_type on [factors_inf]. *)
Lemma validation_errors_abort_witness :
  "bogus"%string ∉ ["z_score"; "rank"]%string ∧
  combine_factors (Some "bogus"%string) false None (Some factors_inf)
                  "equal_weight" generate_props
    = (Raise ValueError,
       Some [("a"%string, cleaned false None panel_inf); ("b"%string, panel_b)]).
Proof.
  assert (Hb : "bogus"%string ∉ ["z_score"; "rank"]%string) by not_in_list.
  split; [exact Hb|].
  destruct (validation_errors_abort (Some "bogus"%string) false None)
    as (_ & _ & H & _).
  apply (H "bogus"%string "a"%string panel_inf [("b"%string, panel_b)]
           "equal_weight"%string generate_props eq_refl Hb).
  simpl. lia.
Defined.

(** C6, as stated, fails: combine_factors with an unrecognised
    standardize_type raises its validation error after the first factor
    of the caller's mapping has been replaced by its sanitized panel; the
    infinite cell the caller passed in is undefined after the failed
    call. *)
Lemma failed_call_changes_mapping :
  let call := combine_factors (Some "bogus"%string) false None (Some factors_inf)
                              "equal_weight" generate_props in
  call.1 = Raise ValueError ∧
  mapping_cell (Some factors_inf) "a" 20160624 "x" = PInf ∧
  mapping_cell call.2 "a" 20160624 "x" = NaN.
Proof. vm_compute. auto. Qed.

(** C7, witness: the ret_type "foo". *)
Lemma ret_type_validation_witness :
  "foo"%string ∉ ["return"; "upside_ret"; "downside_ret"]%string ∧
  get_factors_ic_df factors_gap demo_creator (Some "foo"%string)
    = (Raise ValueError, factors_gap).
Proof.
  assert (Hf : "foo"%string ∉ ["return"; "upside_ret"; "downside_ret"]%string)
    by not_in_list.
  split; [exact Hf|].
  exact (proj1 (ret_type_validation factors_gap demo_creator "foo"%string Hf)).
Defined.

(** C7, as stated, fails: None is no member of the set of recognised
    return types, and get_factors_ic_df does not raise on it: it returns
    the ICMatrix of the plain return. *)
Lemma ret_type_none_is_accepted :
  None ∉ [Some "return"; Some "upside_ret"; Some "downside_ret"]%string ∧
  (get_factors_ic_df factors_gap demo_creator None).1
    = Ok (mkFrame ["a"; "b"]%string
                  [(20160624, [Fin (1 # 2)%Q; Fin (1 # 2)%Q]);
                   (20160627, [NaN; NaN])]).
Proof. split; [not_in_list | vm_compute; reflexivity]. Qed.

(** C10, witness: the ICMatrix of [factors_gap]; factor "b" has no IC on
    the second date, and the row of that date is undefined throughout. *)
Lemma ic_rows_all_or_nothing_witness :
  ∃ ic_df fd',
    get_factors_ic_df factors_gap demo_creator None = (Ok ic_df, fd') ∧
    index ic_df = [20160624; 20160627] ∧
    values ic_df = [[Fin (1 # 2)%Q; Fin (1 # 2)%Q]; [NaN; NaN]] ∧
    ∀ r, r ∈ values ic_df →
         length r = 2%nat ∧ (no_nan r = true ∨ all_nan r = true).
Proof.
  eexists. eexists. split; [vm_compute; reflexivity|].
  split; [reflexivity|]. split; [reflexivity|].
  eapply (ic_rows_all_or_nothing factors_gap demo_creator None).
  vm_compute. reflexivity.
Defined.

(** C9, the failing input: on [factors_gap] the first date orthogonalizes,
    the second has two joined assets and no complete row, and the call
    raises instead of leaving that date out. *)
Theorem orthogonalize_raises_on_incomplete_date :
  is_ok (orthogonalize_date ["a"; "b"]%string [panel_full; panel_gap] 20160624)
    = true ∧
  (data ← mapM (get_vector 20160627) [panel_full; panel_gap];
   data ← concat_axis1 false data;
   Ok (length data, length (dropna data))) = Ok (2%nat, 0%nat) ∧
  orthogonalize_date ["a"; "b"]%string [panel_full; panel_gap] 20160627
    = Raise ValueError ∧
  orthogonalize (Some factors_gap) (Some "z_score"%string) false None
    = (Raise ValueError, Some factors_gap).
Proof. vm_compute. auto. Qed.

(* ===================================================================== *)
(** * Further properties of the module                                    *)
(* ===================================================================== *)

(** ** Shape, long windows and long or negative holding periods *)

Section ShapeFacts.

Implicit Types (rs : list (Z * list fnum)) (vs : list (list fnum)).

Lemma for_dates_fst body dates rs :
  fst <$> for_dates body dates rs = fst <$> rs.
Proof.
  rewrite for_dates_spec, <- list_fmap_compose. apply list_fmap_ext.
  intros i r _. simpl. destruct (bool_decide _); [|done].
  by destruct (body r.1).
Qed.

Lemma shift_same_shape p df ic :
  same_shape df ic → same_shape (shift p df) ic.
Proof.
  intros (Hi & Hc & Hr). split; [by rewrite index_shift|].
  split; [done|]. intros r. rewrite values_shift. intros Hin.
  apply shift_rows_elem in Hin as [->|Hin]; [|auto].
  unfold nan_row. by rewrite length_replicate, Hc.
Qed.

Lemma loop_same_shape body ic :
  (∀ d w, body d = Some w → length w = length (columns ic)) →
  same_shape (mkFrame (columns ic)
                (for_dates body (index ic)
                   (rows (empty_frame (index ic) (columns ic))))) ic.
Proof.
  intros Hb. split; [|split; [done|]].
  - unfold index at 1. simpl. rewrite for_dates_fst.
    rewrite <- list_fmap_compose. apply list_fmap_id.
  - intros r Hr. apply values_elem in Hr as [d Hr]. simpl in Hr.
    refine (for_dates_rows (λ r, length r = length (columns ic)) body
              (index ic) _ _ Hb (d, r) Hr).
    intros r0 Hr0. apply list_elem_of_fmap in Hr0 as (d0 & -> & _).
    simpl. unfold nan_row. by rewrite length_replicate.
Qed.

Lemma tail_length_le {A} n (l : list A) : (length (tail n l) ≤ length l)%nat.
Proof.
  unfold tail. destruct (n =? 0); [simpl; lia|].
  destruct (0 <? n); rewrite length_drop; lia.
Qed.

Lemma upto_length_le ic dt : (length (upto ic dt) ≤ length (rows ic))%nat.
Proof. unfold upto. apply List.filter_length_le. Qed.

Lemma for_dates_none body dates rs :
  (∀ d, body d = None) → for_dates body dates rs = rs.
Proof.
  intros Hb. rewrite for_dates_spec. rewrite <- (list_fmap_id rs) at 2.
  apply list_fmap_ext. intros i r _. simpl. rewrite Hb.
  by destruct (bool_decide _).
Qed.

Lemma empty_frame_all_undefined idx cols :
  all_undefined (empty_frame idx cols).
Proof.
  intros r Hr. apply values_elem in Hr as [d Hr]. simpl in Hr.
  apply list_elem_of_fmap in Hr as (d0 & Hr & _). by inversion Hr.
Qed.

Lemma shift_all_undefined p df : all_undefined df → all_undefined (shift p df).
Proof.
  intros H r. rewrite values_shift. intros Hr.
  apply shift_rows_elem in Hr as [->|Hr]; [done|]. by apply H.
Qed.

Lemma shift_rows_long k p vs r :
  Z.of_nat (length vs) ≤ p → r ∈ shift_rows k p vs → r = nan_row k.
Proof.
  intros Hp. unfold shift_rows. destruct (Z.leb_spec 0 p); [|lia].
  rewrite take_app_le by (rewrite length_replicate; lia).
  intros Hr. apply (subseteq_take _ _ r) in Hr.
  by apply elem_of_replicate in Hr as [-> _].
Qed.

Lemma shift_long_all_undefined p df :
  Z.of_nat (length (rows df)) ≤ p → all_undefined (shift p df).
Proof.
  intros Hp r. rewrite values_shift. simpl. apply shift_rows_long.
  unfold values. by rewrite length_fmap.
Qed.

Lemma shift_rows_lookup_neg k (u : nat) vs (i : nat) :
  (0 < u)%nat → (i < length vs)%nat →
  shift_rows k (- Z.of_nat u) vs !! i =
    if (i + u <? length vs)%nat then vs !! (i + u)%nat else Some (nan_row k).
Proof.
  intros Hu Hi. unfold shift_rows.
  destruct (Z.leb_spec 0 (- Z.of_nat u)); [lia|].
  replace (Z.to_nat (- - Z.of_nat u)) with u by lia.
  destruct (Nat.ltb_spec (i + u) (length vs)).
  - rewrite lookup_app_l by (rewrite length_drop; lia).
    rewrite lookup_drop. f_equal. lia.
  - rewrite lookup_app_r by (rewrite length_drop; lia).
    apply lookup_replicate_2. rewrite length_drop. lia.
Qed.

Lemma shift_shifted_up_by (u : nat) df :
  (0 < u)%nat → shifted_up_by u (shift (- Z.of_nat u) df) df.
Proof.
  intros Hu. split; [done|]. split; [apply index_shift|].
  intros i Hi. rewrite values_shift. by apply shift_rows_lookup_neg.
Qed.

End ShapeFacts.

Section SchemeShape.

Variable fsqrt : fnum → fnum.
Variable LedoitWolf_fit : matrix → option matrix.
Variable linalg_inv : matrix → option matrix.

Lemma ic_body_length ic n d w :
  ic_weight_body ic n d = Some w → length w = length (columns ic).
Proof.
  unfold ic_weight_body. destruct (_ <? n); [done|]. intros Hw.
  inversion Hw. by rewrite normalize_length, mean_axis0_length.
Qed.

Lemma std_axis0_length k vs : length (std_axis0 fsqrt k vs) = k.
Proof. unfold std_axis0. by rewrite length_fmap, length_seq. Qed.

Lemma ir_body_length ic n d w :
  ir_weight_body fsqrt ic n d = Some w → length w = length (columns ic).
Proof.
  unfold ir_weight_body. destruct (_ <? n); [done|]. intros Hw.
  inversion Hw. rewrite normalize_length, length_zip_with.
  rewrite mean_axis0_length, std_axis0_length. lia.
Qed.

Lemma apply_inverse_length inv v w :
  apply_inverse inv v = Ok (Some w) → length w = length v.
Proof.
  unfold apply_inverse. destruct (Nat.eqb_spec (length inv) (length v)); [|done].
  intros Hw. inversion Hw. unfold matvec.
  by rewrite normalize_length, length_fmap.
Qed.

Lemma max_IR_body_length ic n ct d w :
  assigned (max_IR_weight_body LedoitWolf_fit linalg_inv ic n ct) d = Some w →
  length w = length (columns ic).
Proof.
  unfold assigned, max_IR_weight_body. destruct (_ <? n); [done|].
  destruct (linalg_inv _) as [inv|]; [|done].
  destruct (apply_inverse _ _) as [o|] eqn:E; [|done]. intros ->.
  apply apply_inverse_length in E. by rewrite E, mean_axis0_length.
Qed.

Lemma loc_row_elem ic d v : loc_row ic d = Ok v → v ∈ values ic.
Proof.
  unfold loc_row. destruct (List.find _ _) as [r|] eqn:E; [|done].
  intros Hv. inversion Hv; subst. apply find_some in E as [E _].
  apply values_elem. exists r.1. destruct r. by apply list_elem_of_In.
Qed.

Lemma max_IC_body_length ic fd ct d w :
  (∀ r, r ∈ values ic → length r = length (columns ic)) →
  assigned (max_IC_weight_body LedoitWolf_fit linalg_inv ic fd ct) d = Some w →
  length w = length (columns ic).
Proof.
  intros Hic. unfold assigned, max_IC_weight_body.
  destruct (cross_section ic fd d) as [f_dt|]; simpl; [|done].
  destruct (length f_dt =? 0)%nat; [done|].
  destruct (linalg_inv _) as [inv|]; [|done].
  destruct (loc_row ic d) as [v|] eqn:Ev; simpl; [|done].
  destruct (apply_inverse _ _) as [o|] eqn:E; [|done]. intros ->.
  apply apply_inverse_length in E. rewrite E. apply Hic.
  by apply (loc_row_elem ic d).
Qed.

(** X1.  The WeightMatrix of ic_weight, ir_weight and max_IR_weight has
    the index and the columns of the ICMatrix it is computed from and
    one cell per factor in every row, for any holding period and any
    window; so has that of max_IC_weight when every row of the ICMatrix
    has one cell per factor. *)
Theorem weight_matrix_shape ic fd h n ct :
  same_shape (ic_weight ic h n) ic ∧
  same_shape (ir_weight fsqrt ic h n) ic ∧
  (∀ out, max_IR_weight LedoitWolf_fit linalg_inv ic h n ct = Ok out →
          same_shape out ic) ∧
  ((∀ r, r ∈ values ic → length r = length (columns ic)) →
   ∀ out, max_IC_weight LedoitWolf_fit linalg_inv ic fd h ct = Ok out →
          same_shape out ic).
Proof.
  split; [|split; [|split]].
  - apply shift_same_shape.
    apply (loop_same_shape (ic_weight_body ic n) ic), ic_body_length.
  - apply shift_same_shape.
    apply (loop_same_shape (ir_weight_body fsqrt ic n) ic), ir_body_length.
  - intros out. unfold max_IR_weight, max_IR_weight_loop.
    destruct (for_dates_m _ _ _) as [rs|] eqn:E; simpl; [|done].
    intros Ho. inversion Ho; subst out. apply for_dates_m_Ok in E. subst rs.
    apply shift_same_shape.
    apply (loop_same_shape (assigned (max_IR_weight_body LedoitWolf_fit
                                        linalg_inv ic n ct)) ic).
    intros d w. apply max_IR_body_length.
  - intros Hic out. unfold max_IC_weight, max_IC_weight_loop.
    destruct (for_dates_m _ _ _) as [rs|] eqn:E; simpl; [|done].
    intros Ho. inversion Ho; subst out. apply for_dates_m_Ok in E. subst rs.
    apply shift_same_shape.
    apply (loop_same_shape (assigned (max_IC_weight_body LedoitWolf_fit
                                        linalg_inv ic fd ct)) ic).
    intros d w. by apply max_IC_body_length.
Qed.

Lemma short_history_skips ic n dt :
  Z.of_nat (length (rows ic)) < n →
  Z.of_nat (length (tail n (upto ic dt))) <? n = true.
Proof.
  intros Hn. apply Z.ltb_lt.
  pose proof (tail_length_le n (upto ic dt)).
  pose proof (upto_length_le ic dt). lia.
Qed.

(** X2.  When rollback_period exceeds the number of dates of the
    ICMatrix, every date is skipped: ic_weight and ir_weight return a
    table of undefined rows, and max_IR_weight returns one too, without
    inverting anything, so it cannot fail whatever the ICs are. *)
Theorem window_longer_than_history ic h n ct :
  Z.of_nat (length (rows ic)) < n →
  all_undefined (ic_weight ic h n) ∧
  all_undefined (ir_weight fsqrt ic h n) ∧
  ∃ out, max_IR_weight LedoitWolf_fit linalg_inv ic h n ct = Ok out ∧
         all_undefined out.
Proof.
  intros Hn. split; [|split].
  - apply shift_all_undefined. unfold ic_weight_loop.
    rewrite for_dates_none; [apply empty_frame_all_undefined|].
    intros d. unfold ic_weight_body. by rewrite short_history_skips.
  - apply shift_all_undefined. unfold ir_weight_loop.
    rewrite for_dates_none; [apply empty_frame_all_undefined|].
    intros d. unfold ir_weight_body. by rewrite short_history_skips.
  - destruct (for_dates_m_total
                (max_IR_weight_body LedoitWolf_fit linalg_inv ic n ct)
                (index ic) (rows (empty_frame (index ic) (columns ic))))
      as [rs Hrs].
    { intros d _. unfold max_IR_weight_body. by rewrite short_history_skips. }
    exists (shift h (mkFrame (columns ic) rs)). split.
    + unfold max_IR_weight, max_IR_weight_loop. by rewrite Hrs.
    + apply shift_all_undefined. apply for_dates_m_Ok in Hrs. subst rs.
      rewrite for_dates_none; [apply empty_frame_all_undefined|].
      intros d. unfold assigned, max_IR_weight_body.
      by rewrite short_history_skips.
Qed.

Lemma loop_rows_length body idx cols :
  length (for_dates body idx (rows (empty_frame idx cols))) = length idx.
Proof.
  rewrite <- (length_fmap fst), for_dates_fst. simpl.
  by rewrite !length_fmap.
Qed.

(** X3.  A holding period of at least the number of dates shifts every
    computed weight out of the table: all four schemes return undefined
    rows only. *)
Theorem holding_period_past_the_end ic fd h n ct :
  Z.of_nat (length (index ic)) ≤ h →
  all_undefined (ic_weight ic h n) ∧
  all_undefined (ir_weight fsqrt ic h n) ∧
  (∀ out, max_IR_weight LedoitWolf_fit linalg_inv ic h n ct = Ok out →
          all_undefined out) ∧
  (∀ out, max_IC_weight LedoitWolf_fit linalg_inv ic fd h ct = Ok out →
          all_undefined out).
Proof.
  intros Hh. split; [|split; [|split]].
  - apply shift_long_all_undefined. unfold ic_weight_loop. cbv zeta.
    cbn [rows]. by rewrite loop_rows_length.
  - apply shift_long_all_undefined. unfold ir_weight_loop. cbv zeta.
    cbn [rows]. by rewrite loop_rows_length.
  - intros out. unfold max_IR_weight, max_IR_weight_loop.
    destruct (for_dates_m _ _ _) as [rs|] eqn:E; simpl; [|done].
    intros Ho. inversion Ho; subst out. apply for_dates_m_Ok in E. subst rs.
    apply shift_long_all_undefined. cbn [rows].
    by rewrite loop_rows_length.
  - intros out. unfold max_IC_weight, max_IC_weight_loop.
    destruct (for_dates_m _ _ _) as [rs|] eqn:E; simpl; [|done].
    intros Ho. inversion Ho; subst out. apply for_dates_m_Ok in E. subst rs.
    apply shift_long_all_undefined. cbn [rows].
    by rewrite loop_rows_length.
Qed.

(** X4.  A negative holding period -u moves the computed weights up:
    output row i is computed row i+u, a weight of a later date, and the
    last u rows are undefined. *)
Theorem negative_holding_period_looks_ahead ic fd (u : nat) n ct :
  (0 < u)%nat →
  shifted_up_by u (ic_weight ic (- Z.of_nat u) n) (ic_weight_loop ic n) ∧
  shifted_up_by u (ir_weight fsqrt ic (- Z.of_nat u) n)
                  (ir_weight_loop fsqrt ic n) ∧
  (∀ pre, max_IR_weight_loop LedoitWolf_fit linalg_inv ic n ct = Ok pre →
     ∃ out, max_IR_weight LedoitWolf_fit linalg_inv ic (- Z.of_nat u) n ct
              = Ok out ∧ shifted_up_by u out pre) ∧
  (∀ pre, max_IC_weight_loop LedoitWolf_fit linalg_inv ic fd ct = Ok pre →
     ∃ out, max_IC_weight LedoitWolf_fit linalg_inv ic fd (- Z.of_nat u) ct
              = Ok out ∧ shifted_up_by u out pre).
Proof.
  intros Hu. split; [|split; [|split]].
  - by apply shift_shifted_up_by.
  - by apply shift_shifted_up_by.
  - intros pre Hpre. unfold max_IR_weight. rewrite Hpre. simpl.
    eexists. split; [done|]. by apply shift_shifted_up_by.
  - intros pre Hpre. unfold max_IC_weight. rewrite Hpre. simpl.
    eexists. split; [done|]. by apply shift_shifted_up_by.
Qed.

End SchemeShape.

(** ** What a row of ic_weight and ir_weight is made of *)

Section RollingDetails.

Variable fsqrt : fnum → fnum.

Implicit Types (W vs : list (list fnum)).

Lemma all_nan_lookup r (c : nat) : all_nan r = true → default NaN (r !! c) = NaN.
Proof.
  revert c. induction r as [|x r IH]; intros c Hr; [done|].
  simpl in Hr. apply andb_true_iff in Hr as [Hx Hr].
  destruct c as [|c]; simpl; [by destruct x | by apply IH].
Qed.

Lemma column_observed c W :
  List.filter (λ x, negb (isnan x)) (column c (observed_rows W))
    = List.filter (λ x, negb (isnan x)) (column c W).
Proof.
  induction W as [|r W IH]; [done|].
  change (observed_rows (r :: W))
    with (if negb (all_nan r) then r :: observed_rows W else observed_rows W).
  change (column c (r :: W)) with (default NaN (r !! c) :: column c W).
  destruct (all_nan r) eqn:E; cbn [negb].
  - rewrite (all_nan_lookup r c E).
    change (List.filter (λ x, negb (isnan x)) (NaN :: column c W))
      with (List.filter (λ x, negb (isnan x)) (column c W)).
    exact IH.
  - change (column c (r :: observed_rows W))
      with (default NaN (r !! c) :: column c (observed_rows W)).
    cbn [List.filter]. by rewrite IH.
Qed.

Lemma mean_axis0_observed k W :
  mean_axis0 k (observed_rows W) = mean_axis0 k W.
Proof.
  unfold mean_axis0. apply list_fmap_ext. intros i c _.
  unfold nanmean. by rewrite column_observed.
Qed.

Lemma std_axis0_observed k W :
  std_axis0 fsqrt k (observed_rows W) = std_axis0 fsqrt k W.
Proof.
  unfold std_axis0. apply list_fmap_ext. intros i c _.
  unfold nanstd, nanvar. by rewrite column_observed.
Qed.

(** X5.  On an ascending index and for a window of N >= 1 rows, the
    rows of the window without any defined cell count towards N but not
    towards the weights: the row of a date is what the scheme computes
    from the observed rows of its window alone, however few they are. *)
Theorem undefined_rows_fill_the_window ic n (j : nat) :
  StronglySorted Z.lt (index ic) → (j < length (rows ic))%nat →
  1 ≤ n → n ≤ Z.of_nat (S j) →
  let k := length (columns ic) in
  let W := window_at n j (values ic) in
  values (ic_weight_loop ic n) !! j
    = Some (normalize (mean_axis0 k (observed_rows W))) ∧
  values (ir_weight_loop fsqrt ic n) !! j
    = Some (normalize (zip_with fdiv (mean_axis0 k (observed_rows W))
                                     (std_axis0 fsqrt k (observed_rows W)))).
Proof.
  intros Hs Hj Hn Hge k W.
  rewrite mean_axis0_observed, std_axis0_observed.
  rewrite ic_weight_loop_rolling, ir_weight_loop_rolling.
  rewrite !rolling_loop_lookup by done.
  destruct (Z.ltb_spec (Z.of_nat (S j)) n); [lia|]. done.
Qed.

Lemma fsum_nan w : NaN ∈ w → fsum w = NaN.
Proof.
  induction w as [|x w IH]; intros Hin; [inversion Hin|].
  rewrite fsum_cons. apply elem_of_cons in Hin as [<-|Hin]; [done|].
  rewrite IH by done. by destruct x.
Qed.

Lemma normalize_nan w : NaN ∈ w → normalize w = nan_row (length w).
Proof.
  intros Hin. unfold normalize. rewrite fsum_nan by done.
  unfold nan_row. induction w as [|x w IH]; [done|]. simpl.
  f_equal; [by destruct x|].
  clear. induction w as [|y w IH]; [done|]. simpl.
  f_equal; [by destruct y | exact IH].
Qed.

Lemma mean_axis0_lookup k W (c : nat) :
  (c < k)%nat → mean_axis0 k W !! c = Some (nanmean (column c W)).
Proof.
  intros Hc. unfold mean_axis0. rewrite list_lookup_fmap.
  rewrite lookup_seq_lt by done. done.
Qed.

Lemma nanmean_no_observation l :
  (∀ x, x ∈ l → x = NaN) → nanmean l = NaN.
Proof.
  intros Hl. unfold nanmean.
  replace (List.filter (λ x, negb (isnan x)) l) with (@nil fnum); [done|].
  induction l as [|x l IH]; [done|]. simpl.
  rewrite (Hl x) by left. simpl. apply IH. intros y Hy. apply Hl. by right.
Qed.

(** X6.  np.sum does not skip NaN: when one factor has no defined IC in
    the whole window of a date, the row of that date is undefined for
    every factor, also for those with a full history. *)
Theorem one_blank_factor_blanks_the_row ic n (j c : nat) :
  StronglySorted Z.lt (index ic) → (j < length (rows ic))%nat →
  1 ≤ n → n ≤ Z.of_nat (S j) → (c < length (columns ic))%nat →
  (∀ r, r ∈ window_at n j (values ic) → default NaN (r !! c) = NaN) →
  values (ic_weight_loop ic n) !! j = Some (nan_row (length (columns ic))) ∧
  values (ir_weight_loop fsqrt ic n) !! j
    = Some (nan_row (length (columns ic))).
Proof.
  intros Hs Hj Hn Hge Hc Hblank.
  rewrite ic_weight_loop_rolling, ir_weight_loop_rolling.
  rewrite !rolling_loop_lookup by done.
  destruct (Z.ltb_spec (Z.of_nat (S j)) n); [lia|].
  set (W := window_at n j (values ic)) in *.
  set (k := length (columns ic)) in *.
  assert (Hm : mean_axis0 k W !! c = Some NaN).
  { rewrite mean_axis0_lookup by done. f_equal.
    apply nanmean_no_observation. intros x Hx. unfold column in Hx.
    apply list_elem_of_fmap in Hx as (r & -> & Hr). by apply Hblank. }
  split; f_equal.
  - unfold ic_formula. rewrite normalize_nan.
    + by rewrite mean_axis0_length.
    + eapply list_elem_of_lookup_2; eauto.
  - unfold ir_formula. rewrite normalize_nan.
    + rewrite length_zip_with, mean_axis0_length, std_axis0_length.
      f_equal. lia.
    + destruct (lookup_lt_is_Some_2 (std_axis0 fsqrt k W) c) as [s Hsd].
      { by rewrite std_axis0_length. }
      apply (list_elem_of_lookup_2 _ c).
      rewrite lookup_zip_with, Hm, Hsd. done.
Qed.

Lemma normalize_zero_sum w :
  feq (fsum w) fzero → Forall (λ x, isfinite x = false) (normalize w).
Proof.
  intros Hz. unfold normalize.
  destruct (fsum w) as [s| | |] eqn:Es; try done. simpl in Hz.
  apply Qeq_bool_iff in Hz.
  pose proof (fsum_Fin_inv _ _ Es) as Hfin.
  apply Forall_fmap. eapply Forall_impl; [exact Hfin|].
  intros x Hx. simpl. destruct x as [a| | |]; try done.
  simpl. rewrite Hz. by destruct (Qnum a ?= 0).
Qed.

(** X7.  The zero sum is not guarded: on a date whose mean ICs over the
    window add up to zero, ic_weight writes a row without a single
    finite weight (each cell is an infinity or NaN). *)
Theorem zero_sum_row_has_no_finite_weight ic n (j : nat) :
  StronglySorted Z.lt (index ic) → (j < length (rows ic))%nat →
  1 ≤ n → n ≤ Z.of_nat (S j) →
  feq (fsum (mean_axis0 (length (columns ic)) (window_at n j (values ic))))
      fzero →
  ∃ r, values (ic_weight_loop ic n) !! j = Some r ∧
       length r = length (columns ic) ∧
       Forall (λ x, isfinite x = false) r.
Proof.
  intros Hs Hj Hn Hge Hz. eexists. split; [|split].
  - rewrite ic_weight_loop_rolling, rolling_loop_lookup by done.
    destruct (Z.ltb_spec (Z.of_nat (S j)) n); [lia|]. done.
  - unfold ic_formula. by rewrite normalize_length, mean_axis0_length.
  - by apply normalize_zero_sum.
Qed.

End RollingDetails.

(** ** The mapping of factors under the loops over its keys *)

Section DictFacts.

Lemma dict_get_middle k p (done rest : factors) :
  k ∉ keys done → dict_get k (done ++ (k, p) :: rest) = Some p.
Proof.
  induction done as [|[k' p'] done IH]; intros Hk.
  - apply dict_get_head.
  - simpl app. rewrite dict_get_tail.
    + apply IH. intros C. apply Hk. by right.
    + intros ->. apply Hk. left.
Qed.

Lemma dict_set_middle k p v (done rest : factors) :
  k ∉ keys done →
  dict_set k v (done ++ (k, p) :: rest) = done ++ (k, v) :: rest.
Proof.
  induction done as [|[k' p'] done IH]; intros Hk.
  - apply dict_set_head.
  - simpl app. rewrite dict_set_tail.
    + f_equal. apply IH. intros C. apply Hk. by right.
    + intros ->. apply Hk. left.
Qed.

Lemma dict_get_missing k (d : factors) : k ∉ keys d → dict_get k d = None.
Proof.
  induction d as [|[k' p'] d IH]; intros Hk; [done|].
  rewrite dict_get_tail.
  - apply IH. intros C. apply Hk. by right.
  - intros ->. apply Hk. left.
Qed.

Lemma dict_get_elem k p (d : factors) :
  NoDup (keys d) → (k, p) ∈ d → dict_get k d = Some p.
Proof.
  induction d as [|[k' p'] d IH]; intros Hnd Hin; [inversion Hin|].
  simpl in Hnd. apply NoDup_cons in Hnd as [Hk' Hnd].
  apply elem_of_cons in Hin as [Heq|Hin].
  - inversion Heq; subst. apply dict_get_head.
  - rewrite dict_get_tail; [by apply IH|].
    intros ->. apply Hk'. apply list_elem_of_fmap. by exists (k, p).
Qed.

Lemma NoDup_keys_middle k p (done rest : factors) :
  NoDup (keys (done ++ (k, p) :: rest)) → k ∉ keys done.
Proof.
  unfold keys. rewrite fmap_app. simpl. intros Hnd.
  apply NoDup_app in Hnd as (_ & Hd & _). intros C.
  apply (Hd k C). left.
Qed.

Lemma keys_middle k p v (done rest : factors) :
  keys (done ++ (k, v) :: rest) = keys (done ++ (k, p) :: rest).
Proof. unfold keys. by rewrite !fmap_app. Qed.

Lemma app_middle {A} (l : list A) x r : l ++ x :: r = (l ++ [x]) ++ r.
Proof. by rewrite <- app_assoc. Qed.

Lemma map_panels_keys f (d : factors) : keys (map_panels f d) = keys d.
Proof.
  unfold keys, map_panels. rewrite <- list_fmap_compose.
  by apply list_fmap_ext.
Qed.

End DictFacts.

(** ** get_factors_ic_df: when it returns, and what it returns *)

Section ICEstimatorRun.

Context `{Preprocessing} `{SignalEvaluation}.

Lemma ic_table_loop_run sc rt (done todo : factors) tbl :
  NoDup (keys (done ++ todo)) →
  (∀ f, f ∈ todo → has_return sc rt f.2 = true) →
  ic_table_loop sc rt (keys todo) (done ++ todo) tbl
    = (Ok (tbl ++ ((λ f, (f.1, ic_of sc rt f.2)) <$> todo)),
       done ++ map_panels fillinf todo).
Proof.
  revert done tbl. induction todo as [|[k p] todo IH]; intros done tbl Hnd Hall.
  - simpl. by rewrite !app_nil_r.
  - pose proof (NoDup_keys_middle _ _ _ _ Hnd) as Hk.
    cbn [keys fmap list_fmap fst ic_table_loop].
    rewrite dict_get_middle, dict_set_middle by done.
    assert (Hp : has_return sc rt p = true) by (apply (Hall (k, p)); left).
    unfold has_return in Hp. rewrite Hp.
    rewrite (app_middle done). fold (keys todo). rewrite IH.
    + rewrite <- !app_assoc. done.
    + rewrite <- app_middle. by rewrite (keys_middle k p).
    + intros f Hf. apply Hall. by right.
Qed.

Lemma ic_table_loop_fail sc rt (done todo : factors) tbl :
  NoDup (keys (done ++ todo)) →
  (∃ f, f ∈ todo ∧ has_return sc rt f.2 = false) →
  (ic_table_loop sc rt (keys todo) (done ++ todo) tbl).1 = Raise ValueError.
Proof.
  revert done tbl. induction todo as [|[k p] todo IH]; intros done tbl Hnd Hex.
  - destruct Hex as (f & Hf & _). inversion Hf.
  - pose proof (NoDup_keys_middle _ _ _ _ Hnd) as Hk.
    cbn [keys fmap list_fmap fst ic_table_loop].
    rewrite dict_get_middle, dict_set_middle by done.
    destruct (mem rt _) eqn:Ep; [|done].
    rewrite (app_middle done). fold (keys todo). apply IH.
    + rewrite <- app_middle. by rewrite (keys_middle k p).
    + destruct Hex as (f & Hf & Hr).
      apply elem_of_cons in Hf as [->|Hf]; [|eauto].
      unfold has_return in Hr. simpl in Hr. congruence.
Qed.

Lemma classic_has_return rt sc (fd : factors) :
  (∀ f, f ∈ fd → has_return sc rt f.2 = true) ∨
  (∃ f, f ∈ fd ∧ has_return sc rt f.2 = false).
Proof.
  induction fd as [|f fd IH].
  - left. intros f Hf. inversion Hf.
  - destruct (has_return sc rt f.2) eqn:E.
    + destruct IH as [Hall|(g & Hg & Hr)].
      * left. intros g Hg. apply elem_of_cons in Hg as [->|Hg]; auto.
      * right. exists g. split; [by right | done].
    + right. exists f. split; [left | done].
Qed.

Lemma mem_elem s l : s ∈ l → mem s l = true.
Proof.
  intros Hs. unfold mem. apply existsb_exists. exists s.
  split; [by apply list_elem_of_In | apply String.eqb_refl].
Qed.

Lemma all_times_nonempty (fd : factors) :
  fd ≠ [] → ∃ times, all_times fd = Ok times.
Proof. destruct fd; [done|]. simpl. eauto. Qed.

Lemma concat_ic_nonempty tbl : tbl ≠ [] → ∃ t, concat_ic tbl = Ok t.
Proof. destruct tbl; [done|]. simpl. eauto. Qed.

(** X8.  For a recognised ret_type and a mapping with distinct keys,
    get_factors_ic_df returns an ICMatrix exactly when the mapping is not
    empty and the signal table of every factor has the return column;
    it raises ValueError when the mapping is empty or some factor lacks
    the column. *)
Theorem ic_estimator_returns_exactly_when fd sc (rt : string) :
  rt ∈ ["return"; "upside_ret"; "downside_ret"]%string →
  NoDup (keys fd) →
  (fd ≠ [] → (∀ f, f ∈ fd → has_return sc rt f.2 = true) →
   ∃ ic_df, (get_factors_ic_df fd sc (Some rt)).1 = Ok ic_df) ∧
  (fd = [] ∨ (∃ f, f ∈ fd ∧ has_return sc rt f.2 = false) →
   (get_factors_ic_df fd sc (Some rt)).1 = Raise ValueError).
Proof.
  intros Hrt Hnd. unfold get_factors_ic_df. rewrite (mem_elem _ _ Hrt).
  cbn [negb]. split.
  - intros Hne Hall.
    destruct (all_times_nonempty fd Hne) as [times ->].
    pose proof (ic_table_loop_run sc rt [] fd [] Hnd Hall) as Hrun.
    simpl in Hrun. rewrite Hrun.
    destruct (concat_ic_nonempty ((λ f, (f.1, ic_of sc rt f.2)) <$> fd))
      as [t ->].
    { destruct fd; done. }
    simpl. eauto.
  - intros [->|Hex]; [done|].
    assert (Hne : fd ≠ []).
    { destruct Hex as (f & Hf & _). intros ->. inversion Hf. }
    destruct (all_times_nonempty fd Hne) as [times ->].
    pose proof (ic_table_loop_fail sc rt [] fd [] Hnd Hex) as Hfail.
    simpl in Hfail.
    destruct (ic_table_loop sc rt (keys fd) fd []) as [[tbl|e] d'];
      simpl in *; congruence.
Qed.

(** X9.  get_factors_ic_df sanitizes in place: when it returns an
    ICMatrix, every panel of the caller's mapping has been replaced by
    its [fillinf], under the same keys in the same order. *)
Theorem ic_estimator_sanitizes_the_mapping fd sc rt ic_df fd' :
  NoDup (keys fd) →
  get_factors_ic_df fd sc rt = (Ok ic_df, fd') →
  fd' = map_panels fillinf fd ∧ keys fd' = keys fd.
Proof.
  intros Hnd. unfold get_factors_ic_df.
  set (r := match rt with Some s => s | None => "return"%string end).
  destruct (negb (mem r _)); [done|].
  destruct (all_times fd) as [times|]; [|done].
  destruct (classic_has_return r sc fd) as [Hall|Hex].
  - pose proof (ic_table_loop_run sc r [] fd [] Hnd Hall) as Hrun.
    simpl in Hrun. rewrite Hrun.
    destruct (concat_ic _); simpl; [|done].
    intros Hr. inversion Hr; subst. split; [done|apply map_panels_keys].
  - pose proof (ic_table_loop_fail sc r [] fd [] Hnd Hex) as Hfail.
    simpl in Hfail.
    destruct (ic_table_loop sc r (keys fd) fd []) as [[tbl|e] d'];
      simpl in *; [congruence|done].
Qed.

End ICEstimatorRun.

Section ICMatrixRows.

Context `{Preprocessing} `{SignalEvaluation}.

Lemma find_dated_row (P : Z * list fnum → bool) (g : Z → list fnum)
    (l : list Z) t :
  List.find (λ r : Z * list fnum, r.1 =? t)
            (List.filter P ((λ t', (t', g t')) <$> l))
    = if bool_decide (t ∈ l) && P (t, g t) then Some (t, g t) else None.
Proof.
  induction l as [|x l IH]; [done|].
  cbn [fmap list_fmap List.filter].
  destruct (Z.eqb_spec x t) as [->|Hne].
  - rewrite bool_decide_eq_true_2 by left. cbn [andb].
    destruct (P (t, g t)) eqn:EP.
    + cbn [List.find fst]. by rewrite Z.eqb_refl.
    + rewrite IH. destruct (bool_decide (t ∈ l)); cbn [andb]; [|done].
      by rewrite ?EP.
  - assert (Hd : bool_decide (t ∈ x :: l) = bool_decide (t ∈ l)).
    { apply bool_decide_ext. rewrite elem_of_cons. naive_solver. }
    rewrite Hd. destruct (P (x, g x)); [|exact IH].
    cbn [List.find fst]. destruct (Z.eqb_spec x t); [done|]. exact IH.
Qed.

Lemma find_dated (g : Z → list fnum) (l : list Z) t :
  List.find (λ r : Z * list fnum, r.1 =? t) ((λ t', (t', g t')) <$> l)
    = if bool_decide (t ∈ l) then Some (t, g t) else None.
Proof.
  induction l as [|x l IH]; [done|].
  cbn [fmap list_fmap List.find fst].
  destruct (Z.eqb_spec x t) as [->|Hne].
  - by rewrite bool_decide_eq_true_2 by left.
  - rewrite IH. apply (f_equal (λ b : bool, if b then _ else _)).
    apply bool_decide_ext. rewrite elem_of_cons. naive_solver.
Qed.

Lemma series_at_absent (s : list (Z * fnum)) t :
  t ∉ series_dates s → series_at s t = NaN.
Proof.
  unfold series_dates, series_at. intros Ht.
  destruct (List.find _ s) as [p|] eqn:E; [|done].
  apply find_some in E as [Hin Hp]. exfalso. apply Ht.
  apply elem_of_list_to_set, list_elem_of_fmap. exists p.
  split; [symmetry; by apply Z.eqb_eq | by apply list_elem_of_In].
Qed.

Lemma elem_of_union_series (tbl : list (string * list (Z * fnum))) t :
  t ∈ foldr (λ s acc, series_dates s.2 ∪ acc) (∅ : gset Z) tbl ↔
  ∃ s, s ∈ tbl ∧ t ∈ series_dates s.2.
Proof.
  induction tbl as [|s tbl IH]; simpl.
  - split; [set_solver|]. intros (s & Hs & _). inversion Hs.
  - rewrite elem_of_union, IH. split.
    + intros [Ht|(g & Hg & Ht)]; [exists s | exists g]; split; auto.
      * left.
      * by right.
    + intros (g & Hg & Ht). apply elem_of_cons in Hg as [->|Hg]; eauto.
Qed.

Lemma row_without_series (tbl : list (string * list (Z * fnum))) t :
  tbl ≠ [] →
  t ∉ foldr (λ s acc, series_dates s.2 ∪ acc) (∅ : gset Z) tbl →
  no_nan ((λ s, series_at s.2 t) <$> tbl) = false.
Proof.
  destruct tbl as [|s tbl]; [done|]. intros _ Ht. simpl.
  rewrite series_at_absent; [done|].
  intros C. apply Ht. apply elem_of_union_series. exists s.
  split; [left | done].
Qed.

(** X10.  The row of a date in the ICMatrix: when every factor has a
    defined IC on that date the row holds these ICs, in the order of the
    mapping; when a single factor has none, the row is undefined for
    all factors. *)
Theorem ic_row_defined_iff_every_factor fd sc (rt : string) t :
  rt ∈ ["return"; "upside_ret"; "downside_ret"]%string →
  NoDup (keys fd) →
  (∀ f, f ∈ fd → has_return sc rt f.2 = true) →
  (∃ f, f ∈ fd ∧ t ∈ p_index f.2) →
  ∃ ic_df,
    (get_factors_ic_df fd sc (Some rt)).1 = Ok ic_df ∧
    loc_row ic_df t =
      Ok (let ics := (λ f, series_at (ic_of sc rt f.2) t) <$> fd in
          if no_nan ics then ics else nan_row (length fd)).
Proof.
  intros Hrt Hnd Hall Ht.
  assert (Hne : fd ≠ []).
  { destruct Ht as (f & Hf & _). intros ->. inversion Hf. }
  unfold get_factors_ic_df. rewrite (mem_elem _ _ Hrt). cbn [negb].
  assert (Htimes : all_times fd
            = Ok (dates_of (foldr (λ f acc, p_index f.2 ∪ acc) ∅ fd)))
    by (destruct fd; done).
  rewrite Htimes.
  pose proof (ic_table_loop_run sc rt [] fd [] Hnd Hall) as Hrun.
  simpl in Hrun. rewrite Hrun.
  set (tbl := (λ f, (f.1, ic_of sc rt f.2)) <$> fd).
  assert (Htbl : tbl ≠ []) by (subst tbl; destruct fd; done).
  assert (Hc : concat_ic tbl
            = Ok (mkFrame (fst <$> tbl)
                    ((λ t', (t', (λ s, series_at s.2 t') <$> tbl))
                       <$> dates_of (foldr (λ s acc, series_dates s.2 ∪ acc)
                                           ∅ tbl))))
    by (destruct tbl; done).
  rewrite Hc. simpl. eexists. split; [done|].
  unfold loc_row, reindex. cbn [rows].
  rewrite find_dated.
  rewrite bool_decide_eq_true_2
    by (apply elem_of_dates_of, elem_of_union_indices; exact Ht).
  cbn [snd]. f_equal.
  unfold dropna_frame, dropna. cbn [rows columns].
  rewrite (find_dated_row (λ r, no_nan r.2)
             (λ t', (λ s : string * list (Z * fnum), series_at s.2 t') <$> tbl)).
  cbn [snd].
  assert (Hrow : (λ s : string * list (Z * fnum), series_at s.2 t) <$> tbl
                 = (λ f, series_at (ic_of sc rt f.2) t) <$> fd).
  { subst tbl. rewrite <- list_fmap_compose. by apply list_fmap_ext. }
  assert (Hk : length (fst <$> tbl) = length fd).
  { subst tbl. by rewrite !length_fmap. }
  rewrite Hk. cbv zeta. rewrite <- Hrow.
  destruct (bool_decide _) eqn:Ed; cbn [andb].
  - by destruct (no_nan _).
  - apply bool_decide_eq_false_1 in Ed.
    rewrite row_without_series; [done|done|].
    intros C. apply Ed. by apply elem_of_dates_of.
Qed.

End ICMatrixRows.

(** ** combine_factors on any number of factors *)

Section CombinerRun.

Context `{Preprocessing} `{SignalEvaluation} `{DataSource} `{Numerics}.

Variable standardize_type : option string.
Variable winsorization : bool.
Variable index_member : option Panel.

Notation std := (standardized standardize_type winsorization index_member).

Lemma standarize_factors_run (done todo : factors) :
  valid_standardize_type standardize_type = true →
  NoDup (keys (done ++ todo)) →
  standarize_factors standardize_type winsorization index_member
                     (keys todo) (done ++ todo)
    = (Ok (), done ++ map_panels std todo).
Proof.
  intros Hv. revert done. induction todo as [|[k p] todo IH]; intros done Hnd.
  - simpl. by rewrite !app_nil_r.
  - pose proof (NoDup_keys_middle _ _ _ _ Hnd) as Hk.
    cbn [keys fmap list_fmap fst standarize_factors].
    rewrite dict_get_middle, dict_set_middle by done.
    rewrite by_type_valid by done.
    rewrite dict_set_middle by done.
    rewrite (app_middle done). fold (keys todo). rewrite IH.
    + by rewrite <- app_assoc.
    + rewrite <- app_middle. by rewrite (keys_middle k p).
Qed.

(** X11.  With a recognised standardize_type and distinct keys,
    combine_factors with "equal_weight" on two or more factors returns
    the standardized sum of the standardized panels, added up in the
    order of the mapping, and leaves every panel of the caller's mapping
    replaced by its standardized panel. *)
Theorem equal_weight_any_number k0 p0 rest props :
  valid_standardize_type standardize_type = true →
  NoDup (keys ((k0, p0) :: rest)) → (1 ≤ length rest)%nat →
  combine_factors standardize_type winsorization index_member
                  (Some ((k0, p0) :: rest)) "equal_weight" props
    = (Ok (std (foldl padd (std p0) ((λ f, std f.2) <$> rest))),
       Some (map_panels std ((k0, p0) :: rest))).
Proof.
  intros Hv Hnd Hlen. unfold combine_factors.
  unfold keys at 1. rewrite length_fmap. simpl length.
  destruct (Nat.ltb_spec (S (length rest)) 2); [lia|].
  pose proof (standarize_factors_run [] ((k0, p0) :: rest) Hv Hnd) as Hrun.
  simpl app in Hrun. rewrite Hrun.
  change (mem "equal_weight" ["max_IR"; "max_IC"; "ic_weight"; "ir_weight"]%string)
    with false.
  change ("equal_weight" =? "equal_weight")%string with true. cbv iota.
  unfold dict_values, map_panels, reduce, sum_weighted_factors,
    standarize_factors_frame.
  cbn [fmap list_fmap snd fst mbind result_bind].
  rewrite by_type_valid by done. f_equal. f_equal. f_equal. f_equal.
  rewrite <- list_fmap_compose. by apply list_fmap_ext.
Qed.

(** X12.  The commission of the configuration is never used:
    get_factors_ic_df spells its parameter [commisson], the key
    [commission] of [_props] ends in its [**kwargs], and the signal
    evaluation always runs with the default 0.0008.  Whatever commission
    the caller configures, combine_factors returns the same. *)
Theorem commission_is_ignored fd wm c props :
  combine_factors standardize_type winsorization index_member fd wm
                  (with_commission c props)
    = combine_factors standardize_type winsorization index_member fd wm props.
Proof. destruct props. reflexivity. Qed.

End CombinerRun.

(** ** When the covariance schemes return *)

Section MaxSchemesRun.

Variable LedoitWolf_fit : matrix → option matrix.
Variable linalg_inv : matrix → option matrix.

Lemma for_dates_m_all_ok body dates rs rs' d :
  for_dates_m body dates rs = Ok rs' → d ∈ dates → is_ok (body d) = true.
Proof.
  intros Hok Hd. destruct (body d) as [o|e] eqn:E; [done|].
  destruct (for_dates_m_Raise body dates rs d e Hd E) as [e' He'].
  congruence.
Qed.

(** X13.  max_IR_weight returns a WeightMatrix exactly when, on every
    date with a full window, the covariance of the window can be
    inverted (to a matrix with one row per factor); nothing else in it
    can fail. *)
Theorem max_IR_returns_exactly_when ic h n ct :
  (∃ out, max_IR_weight LedoitWolf_fit linalg_inv ic h n ct = Ok out) ↔
  (∀ dt, dt ∈ index ic →
     n ≤ Z.of_nat (length (tail n (upto ic dt))) →
     ∃ inv, linalg_inv (cov_block LedoitWolf_fit ct (length (columns ic))
                          (snd <$> tail n (upto ic dt))) = Some inv ∧
            length inv = length (columns ic)).
Proof.
  unfold max_IR_weight, max_IR_weight_loop. split.
  - intros [out Hout] dt Hdt Hn.
    destruct (for_dates_m _ _ _) as [rs|] eqn:E; simpl in Hout; [|done].
    pose proof (for_dates_m_all_ok _ _ _ _ dt E Hdt) as Hok.
    unfold max_IR_weight_body in Hok.
    destruct (Z.ltb_spec (Z.of_nat (length (tail n (upto ic dt)))) n); [lia|].
    destruct (linalg_inv _) as [inv|]; [|done].
    exists inv. split; [done|]. unfold apply_inverse in Hok.
    rewrite mean_axis0_length in Hok.
    by destruct (Nat.eqb_spec (length inv) (length (columns ic))).
  - intros Hall.
    destruct (for_dates_m_total
                (max_IR_weight_body LedoitWolf_fit linalg_inv ic n ct)
                (index ic) (rows (empty_frame (index ic) (columns ic))))
      as [rs Hrs].
    + intros d Hd. unfold max_IR_weight_body.
      destruct (Z.ltb_spec (Z.of_nat (length (tail n (upto ic d)))) n);
        [done|].
      destruct (Hall d Hd) as (inv & -> & Hlen); [lia|].
      unfold apply_inverse. rewrite mean_axis0_length, Hlen.
      by rewrite Nat.eqb_refl.
    + rewrite Hrs. simpl. eauto.
Qed.

Lemma mapM_KeyError {A B} (f : A → result B) (l : list A) :
  (∀ x e, f x = Raise e → e = KeyError) →
  (∃ x, x ∈ l ∧ is_ok (f x) = false) →
  mapM f l = Raise KeyError.
Proof.
  intros Hf. induction l as [|x l IH]; intros (y & Hy & Hbad).
  - inversion Hy.
  - simpl. destruct (f x) as [b|e] eqn:E; simpl.
    + apply elem_of_cons in Hy as [->|Hy]; [by rewrite E in Hbad|].
      rewrite IH by eauto. done.
    + by rewrite (Hf x e E).
Qed.

Lemma factor_row_KeyError fd dt name e :
  (p ← dict_item fd name; loc p dt) = Raise e → e = KeyError.
Proof.
  unfold dict_item, loc. destruct (dict_get name fd) as [p|]; simpl.
  - destruct (decide _); [done|]. by intros [= <-].
  - by intros [= <-].
Qed.

Lemma cross_section_KeyError ic fd dt :
  (∃ name, name ∈ columns ic ∧
           is_ok (p ← dict_item fd name; loc p dt) = false) →
  max_IC_weight_body LedoitWolf_fit linalg_inv ic fd "simple" dt
    = Raise KeyError ∧
  ∀ ct, max_IC_weight_body LedoitWolf_fit linalg_inv ic fd ct dt
        = Raise KeyError.
Proof.
  intros Hex.
  assert (Hm : mapM (λ name, p ← dict_item fd name; loc p dt) (columns ic)
               = Raise KeyError).
  { apply mapM_KeyError; [|done]. intros x e. apply factor_row_KeyError. }
  assert (Hb : ∀ ct, max_IC_weight_body LedoitWolf_fit linalg_inv ic fd ct dt
                     = Raise KeyError).
  { intros ct. unfold max_IC_weight_body, cross_section. by rewrite Hm. }
  split; [apply Hb | exact Hb].
Qed.

(** X14.  max_IC_weight looks every factor of the ICMatrix up in the
    mapping, at every date of the ICMatrix: on a non-empty index a
    factor name that is no key of the mapping makes the call fail with
    KeyError at the first date, and a date that a factor panel does not
    have makes the call fail. *)
Theorem max_IC_needs_every_factor_and_date ic fd h ct :
  (index ic ≠ [] →
   (∃ name, name ∈ columns ic ∧ dict_get name fd = None) →
   max_IC_weight LedoitWolf_fit linalg_inv ic fd h ct = Raise KeyError) ∧
  (∀ dt name p, dt ∈ index ic → name ∈ columns ic →
     dict_get name fd = Some p → dt ∉ p_index p →
     ∃ e, max_IC_weight LedoitWolf_fit linalg_inv ic fd h ct = Raise e).
Proof.
  split.
  - intros Hne (name & Hname & Hget).
    unfold max_IC_weight, max_IC_weight_loop.
    destruct (index ic) as [|d0 ds] eqn:Ei; [done|]. cbn [for_dates_m].
    destruct (cross_section_KeyError ic fd d0) as [_ Hb].
    { exists name. split; [done|]. unfold dict_item. by rewrite Hget. }
    by rewrite Hb.
  - intros dt name p Hdt Hname Hget Hmiss.
    destruct (cross_section_KeyError ic fd dt) as [_ Hb].
    { exists name. split; [done|]. unfold dict_item, loc. rewrite Hget.
      simpl. by destruct (decide _). }
    destruct (for_dates_m_Raise _ (index ic)
                (rows (empty_frame (index ic) (columns ic))) dt _ Hdt (Hb ct))
      as [e He].
    exists e. unfold max_IC_weight, max_IC_weight_loop. by rewrite He.
Qed.

End MaxSchemesRun.

(** ** orthogonalize: what it returns and what it needs *)

Section OrthogonalizerRun.

Context `{Preprocessing} `{Numerics}.

Lemma sanitize_loop_run wins im (done todo : factors) :
  NoDup (keys (done ++ todo)) →
  sanitize_loop wins im (keys todo) (done ++ todo)
    = (Ok (), done ++ map_panels (sanitized wins im) todo).
Proof.
  revert done. induction todo as [|[k p] todo IH]; intros done Hnd.
  - simpl. by rewrite !app_nil_r.
  - pose proof (NoDup_keys_middle _ _ _ _ Hnd) as Hk.
    cbn [keys fmap list_fmap fst sanitize_loop].
    rewrite dict_get_middle by done. cbv zeta.
    rewrite dict_set_middle by done.
    rewrite (app_middle done). fold (keys todo). rewrite IH.
    + by rewrite <- app_assoc.
    + rewrite <- app_middle. by rewrite (keys_middle k p).
Qed.

Lemma mapM_Ok_length {A B} (f : A → result B) l k :
  mapM f l = Ok k → length k = length l.
Proof.
  revert k. induction l as [|x l IH]; intros k Hk; simpl in Hk.
  - by inversion Hk.
  - destruct (f x) as [b|]; simpl in Hk; [|done].
    destruct (mapM f l) as [bs|]; simpl in Hk; [|done].
    inversion Hk. simpl. f_equal. by apply IH.
Qed.

Lemma orthogonalize_date_length names panels d rows_ :
  orthogonalize_date names panels d = Ok (Some rows_) →
  length rows_ = length names.
Proof.
  unfold orthogonalize_date.
  destruct (mapM _ panels) as [ss|]; simpl; [|done].
  destruct (concat_axis1 false ss) as [data|]; simpl; [|done].
  destruct (length data =? 0)%nat; [done|].
  destruct (Schmidt _) as [basis|]; [|done].
  destruct (negb (forallb _ basis)); [done|].
  destruct (Nat.eqb_spec (length basis) (length names)) as [E|]; [|done].
  simpl. intros Hr. inversion Hr. by rewrite length_fmap.
Qed.

Lemma orthogonalize_loop_length names panels dates acc out :
  length acc = length names →
  orthogonalize_loop names panels dates acc = Ok out →
  length out = length names.
Proof.
  revert acc. induction dates as [|d ds IH]; intros acc Hacc Hout;
    simpl in Hout.
  - inversion Hout. by subst.
  - destruct (orthogonalize_date names panels d) as [[rows_|]|] eqn:E;
      simpl in Hout; [| |done].
    + apply IH in Hout; [done|].
      rewrite length_zip_with, Hacc.
      rewrite (orthogonalize_date_length _ _ _ _ E). lia.
    + by apply IH in Hout.
Qed.

Lemma orthogonalize_loop_Raise names panels dates acc d e :
  d ∈ dates → orthogonalize_date names panels d = Raise e →
  ∃ e', orthogonalize_loop names panels dates acc = Raise e'.
Proof.
  revert acc. induction dates as [|x ds IH]; intros acc Hd Hb.
  - inversion Hd.
  - simpl. destruct (decide (d = x)) as [->|Hne].
    + rewrite Hb. simpl. eauto.
    + assert (d ∈ ds) by (apply elem_of_cons in Hd as [?|?]; done).
      destruct (orthogonalize_date names panels x) as [[r|]|e0]; simpl; eauto.
Qed.

Lemma orthogonalize_date_KeyError names panels d :
  (∃ p, p ∈ panels ∧ d ∉ p_index p) →
  orthogonalize_date names panels d = Raise KeyError.
Proof.
  intros (p & Hp & Hd). unfold orthogonalize_date.
  rewrite (mapM_KeyError (get_vector d) panels); [done| |].
  - intros x e. unfold get_vector, loc. destruct (decide _); [done|].
    by intros [= <-].
  - exists p. split; [done|]. unfold get_vector, loc.
    by destruct (decide _).
Qed.

(** X15.  When orthogonalize returns, the new mapping has the keys of
    the input, in the same order, and every panel of the caller's
    mapping has been replaced by its sanitized (and, when asked for,
    winsorized) panel. *)
Theorem orthogonalize_keeps_keys fd st wins im out fd' :
  NoDup (keys fd) →
  orthogonalize (Some fd) st wins im = (Ok out, fd') →
  keys out = keys fd ∧ fd' = Some (map_panels (sanitized wins im) fd).
Proof.
  intros Hnd. unfold orthogonalize.
  destruct (length (keys fd) <? 2)%nat; [done|].
  pose proof (sanitize_loop_run wins im [] fd Hnd) as Hrun.
  simpl app in Hrun. rewrite Hrun.
  set (fd1 := map_panels (sanitized wins im) fd).
  destruct (dict_values fd1) as [|p0 ps] eqn:Ev; simpl; [done|].
  destruct (orthogonalize_loop _ _ _ _) as [new_rows|] eqn:El; simpl; [|done].
  destruct (mapM _ new_rows) as [new_panels|] eqn:Em; simpl; [|done].
  intros Hr. inversion Hr; subst out fd'. split; [|done].
  apply orthogonalize_loop_length in El; [|by rewrite length_fmap].
  apply mapM_Ok_length in Em.
  unfold keys at 1. rewrite fst_zip by lia.
  subst fd1. apply map_panels_keys.
Qed.

(** X16.  orthogonalize reads every factor at every date of the first
    factor: with distinct keys and two or more factors, a date of the
    first (sanitized) panel that another (sanitized) panel does not have
    makes the call fail, after the caller's mapping has been
    sanitized. *)
Theorem orthogonalize_needs_the_dates_of_the_first k0 p0 rest st wins im f d :
  NoDup (keys ((k0, p0) :: rest)) → (1 ≤ length rest)%nat →
  f ∈ (k0, p0) :: rest →
  d ∈ p_index (sanitized wins im p0) →
  d ∉ p_index (sanitized wins im f.2) →
  ∃ e, orthogonalize (Some ((k0, p0) :: rest)) st wins im
       = (Raise e, Some (map_panels (sanitized wins im) ((k0, p0) :: rest))).
Proof.
  intros Hnd Hlen Hf Hd Hmiss. unfold orthogonalize.
  unfold keys at 1. rewrite length_fmap. simpl length.
  destruct (Nat.ltb_spec (S (length rest)) 2); [lia|].
  pose proof (sanitize_loop_run wins im [] ((k0, p0) :: rest) Hnd) as Hrun.
  change ([] ++ (k0, p0) :: rest) with ((k0, p0) :: rest) in Hrun.
  change ([] ++ map_panels (sanitized wins im) ((k0, p0) :: rest))
    with (map_panels (sanitized wins im) ((k0, p0) :: rest)) in Hrun.
  rewrite Hrun.
  set (fd1 := map_panels (sanitized wins im) ((k0, p0) :: rest)).
  assert (Hdate : orthogonalize_date (keys fd1) (dict_values fd1) d
                  = Raise KeyError).
  { apply orthogonalize_date_KeyError. exists (sanitized wins im f.2).
    split; [|done]. subst fd1. unfold dict_values, map_panels.
    rewrite <- list_fmap_compose. apply list_elem_of_fmap. by exists f. }
  destruct (orthogonalize_loop_Raise (keys fd1) (dict_values fd1)
              (dates_of (p_index (sanitized wins im p0)))
              ((λ _, []) <$> keys fd1) d KeyError) as [e He].
  { by apply elem_of_dates_of. }
  { done. }
  exists e.
  assert (Hv : dict_values fd1
               = sanitized wins im p0
                 :: dict_values (map_panels (sanitized wins im) rest))
    by reflexivity.
  cbv beta iota zeta. rewrite Hv in He |- *.
  cbn [mbind result_bind]. rewrite He. done.
Qed.

End OrthogonalizerRun.

(** ** From the IC estimator to the rolling schemes *)

Section EstimatorThenScheme.

Context `{Preprocessing} `{SignalEvaluation}.

Lemma ic_df_labels fd sc rt ic_df fd' :
  get_factors_ic_df fd sc rt = (Ok ic_df, fd') →
  index ic_df = dates_of (foldr (λ f acc, p_index f.2 ∪ acc) ∅ fd) ∧
  length (columns ic_df) = length fd.
Proof.
  unfold get_factors_ic_df.
  destruct (negb (mem _ _)); [done|].
  unfold all_times. destruct fd as [|f0 fd0] eqn:Efd; [done|].
  rewrite <- Efd. clear Efd f0 fd0.
  destruct (ic_table_loop _ _ _ _ _) as [[tbl|e] d'] eqn:El; [|done].
  apply ic_table_loop_names in El. simpl in El.
  destruct (concat_ic tbl) as [t|e] eqn:Et; simpl; [|done].
  intros Hr. inversion Hr; subst ic_df fd'. clear Hr.
  split; [apply reindex_index|]. simpl.
  rewrite (concat_ic_columns _ _ Et), El. unfold keys.
  by rewrite length_fmap.
Qed.

(** X17.  The ICMatrix of get_factors_ic_df always meets what the
    rolling window needs (an ascending index): ic_weight with a window
    of N >= 1 on it leaves the first N-1 dates of the union of the
    factors' dates undefined, and computes every later row from the N
    rows of the ICMatrix that end at its date. *)
Theorem ic_weight_on_estimated_ics fd sc rt ic_df fd' n (j : nat) :
  get_factors_ic_df fd sc rt = (Ok ic_df, fd') →
  1 ≤ n → (j < length (rows ic_df))%nat →
  values (ic_weight_loop ic_df n) !! j =
    Some (if Z.of_nat (S j) <? n then nan_row (length fd)
          else normalize (mean_axis0 (length fd)
                            (window_at n j (values ic_df)))).
Proof.
  intros Hget Hn Hj. destruct (ic_df_labels _ _ _ _ _ Hget) as [Hi Hc].
  assert (Hs : StronglySorted Z.lt (index ic_df))
    by (rewrite Hi; apply dates_of_ascending).
  rewrite ic_weight_loop_rolling, rolling_loop_lookup by done.
  unfold ic_formula. by rewrite Hc.
Qed.

End EstimatorThenScheme.

(** ** ic_weight sees the ICs up to a common factor only *)

Section Homogeneity.

Implicit Types (x y : fnum) (w : list fnum) (W : list (list fnum)).

Lemma feq_sym x y : feq x y → feq y x.
Proof. destruct x, y; simpl; auto. intros E. by symmetry. Qed.











Variable c : Q.
Hypothesis c_nonzero : ¬ (c == 0)%Q.



Lemma fscale_nan : fscale c NaN = NaN.
Proof. done. Qed.









Lemma Qeq_bool_zero_num (b : Q) : Qeq_bool b 0 = (Qnum b =? 0).
Proof.
  unfold Qeq_bool. simpl. destruct b as [bn bd]. simpl.
  destruct (Z.eqb_spec bn 0) as [->|Hne]; [done|].
  apply Z.eqb_neq. lia.
Qed.










End Homogeneity.



(** ** Dates that are skipped *)

Section SkippedDates.

Context `{Preprocessing} `{Numerics}.

Lemma dom_loc p d (s : gmap string fnum) a :
  loc p d = Ok s → a ∈ dom s ↔ a ∈ p_columns p.
Proof.
  unfold loc. destruct (decide _); [|done]. intros Hs. inversion Hs. clear Hs.
  rewrite elem_of_dom. unfold is_Some. split.
  - intros [x Hx]. apply lookup_set_to_map in Hx as (y & Hy & Hf).
    + by inversion Hf; subst.
    + intros y y' _ _ E. exact E.
  - intros Ha. exists (cell p d a). apply lookup_set_to_map.
    + intros y y' _ _ E. exact E.
    + by exists a.
Qed.

Lemma elem_of_join_inner (s : gmap string fnum) (ss : list (gmap string fnum)) a :
  a ∈ join_labels false (s :: ss) ↔ ∀ t, t ∈ s :: ss → a ∈ dom t.
Proof.
  unfold join_labels. induction ss as [|t ss IH]; simpl.
  - split.
    + intros Ha t Ht. apply list_elem_of_singleton in Ht. by subst.
    + intros Hall. apply Hall. left.
  - rewrite elem_of_intersection, IH. split.
    + intros [Ht Hall] u Hu. apply elem_of_cons in Hu as [->|Hu].
      * apply Hall. left.
      * apply elem_of_cons in Hu as [->|Hu]; [done|].
        apply Hall. by right.
    + intros Hall. split.
      * apply Hall. right. left.
      * intros u Hu. apply Hall. apply elem_of_cons in Hu as [->|Hu].
        -- left.
        -- right. by right.
Qed.

Lemma mapM_loc_series panels d ss :
  mapM (get_vector d) panels = Ok ss →
  Forall2 (λ p s, loc p d = Ok s) panels ss.
Proof.
  revert ss. induction panels as [|p panels IH]; intros ss Hss; simpl in Hss.
  - inversion Hss. constructor.
  - destruct (get_vector d p) as [s|] eqn:E; simpl in Hss; [|done].
    destruct (mapM _ panels) as [ss'|] eqn:Em; simpl in Hss; [|done].
    inversion Hss. constructor; [exact E | by apply IH].
Qed.

(** A date on which the panels have no asset column in common is left
    out, unless a panel does not have the date at all. *)
Lemma no_common_asset_skips names panels d :
  panels ≠ [] →
  (∀ a, ¬ ∀ p, p ∈ panels → a ∈ p_columns p) →
  orthogonalize_date names panels d = Ok None ∨
  orthogonalize_date names panels d = Raise KeyError.
Proof.
  intros Hne Hno. unfold orthogonalize_date.
  destruct (mapM (get_vector d) panels) as [ss|e] eqn:Em; simpl.
  - left. apply mapM_loc_series in Em.
    destruct Em as [|p s panels' ss' Hp Hrest]; [done|].
    assert (Hempty : join_labels false (s :: ss') = ∅).
    { apply leibniz_equiv. apply elem_of_equiv_empty. intros a Ha.
      apply (Hno a). intros q Hq.
      assert (Hall := proj1 (elem_of_join_inner s ss' a) Ha).
      apply elem_of_cons in Hq as [->|Hq].
      - apply (dom_loc _ d s); [done|]. apply Hall. left.
      - apply list_elem_of_lookup in Hq as [i Hi].
        destruct (Forall2_lookup_l _ _ _ _ _ Hrest Hi) as (t & Ht & Hloc).
        apply (dom_loc _ d t); [done|]. apply Hall. right.
        by eapply list_elem_of_lookup_2. }
    cbn [concat_axis1]. rewrite Hempty, elements_empty. done.
  - right. f_equal.
    assert (Hk : ∀ l e', mapM (get_vector d) l = Raise e' → e' = KeyError).
    { induction l as [|q l IH]; intros e' He'; simpl in He'; [done|].
      destruct (get_vector d q) as [s|e1] eqn:Eq; simpl in He'.
      - destruct (mapM _ l) as [|e0] eqn:El; simpl in He'; [done|].
        inversion He'; subst. by apply IH.
      - inversion He'; subst. unfold get_vector, loc in Eq.
        destruct (decide _); [done|]. by inversion Eq. }
    by apply (Hk panels).
Qed.

Lemma orthogonalize_loop_all_skipped names panels dates acc :
  (∀ d, d ∈ dates → orthogonalize_date names panels d = Ok None ∨
                    orthogonalize_date names panels d = Raise KeyError) →
  orthogonalize_loop names panels dates acc = Ok acc ∨
  orthogonalize_loop names panels dates acc = Raise KeyError.
Proof.
  induction dates as [|d ds IH]; intros Hall; [by left|]. simpl.
  destruct (Hall d) as [-> | ->]; [left | | by right].
  simpl. apply IH. intros d' Hd'. apply Hall. by right.
Qed.

(** X20.  orthogonalize never returns for factors without a common
    asset: with distinct keys and two or more factors whose sanitized
    panels share no asset column, every date is skipped (or a panel
    lacks a date), no row is collected, and the call fails -- with
    ValueError at the concatenation of nothing, or with KeyError. *)
Theorem orthogonalize_without_common_asset k0 p0 rest st wins im :
  NoDup (keys ((k0, p0) :: rest)) → (1 ≤ length rest)%nat →
  (∀ a, ¬ ∀ f, f ∈ (k0, p0) :: rest → a ∈ p_columns (sanitized wins im f.2)) →
  ∃ e, (e = ValueError ∨ e = KeyError) ∧
       orthogonalize (Some ((k0, p0) :: rest)) st wins im
       = (Raise e, Some (map_panels (sanitized wins im) ((k0, p0) :: rest))).
Proof.
  intros Hnd Hlen Hno. unfold orthogonalize.
  unfold keys at 1. rewrite length_fmap. simpl length.
  destruct (Nat.ltb_spec (S (length rest)) 2); [lia|].
  pose proof (sanitize_loop_run wins im [] ((k0, p0) :: rest) Hnd) as Hrun.
  change ([] ++ (k0, p0) :: rest) with ((k0, p0) :: rest) in Hrun.
  change ([] ++ map_panels (sanitized wins im) ((k0, p0) :: rest))
    with (map_panels (sanitized wins im) ((k0, p0) :: rest)) in Hrun.
  rewrite Hrun.
  set (fd1 := map_panels (sanitized wins im) ((k0, p0) :: rest)).
  assert (Hv : dict_values fd1
               = sanitized wins im p0
                 :: dict_values (map_panels (sanitized wins im) rest))
    by reflexivity.
  assert (Hk : keys fd1 = k0 :: keys (map_panels (sanitized wins im) rest))
    by reflexivity.
  destruct (orthogonalize_loop_all_skipped (keys fd1) (dict_values fd1)
              (dates_of (p_index (sanitized wins im p0)))
              ((λ _, []) <$> keys fd1)) as [Hl|Hl].
  { intros d _. apply no_common_asset_skips.
    - by rewrite Hv.
    - intros a Hall. apply (Hno a). intros f Hf. apply Hall.
      unfold fd1, dict_values, map_panels. rewrite <- list_fmap_compose.
      apply list_elem_of_fmap. by exists f. }
  - exists ValueError. split; [by left|].
    cbv beta iota zeta. rewrite Hv in Hl |- *.
    cbn [mbind result_bind]. rewrite Hl. rewrite Hk. done.
  - exists KeyError. split; [by right|].
    cbv beta iota zeta. rewrite Hv in Hl |- *.
    cbn [mbind result_bind]. rewrite Hl. done.
Qed.

End SkippedDates.

Section SkippedCrossSections.

Variable LedoitWolf_fit : matrix → option matrix.
Variable linalg_inv : matrix → option matrix.

(** X21.  max_IC_weight skips a date on which no asset has a defined
    value for every factor, before anything is inverted: when this is so
    on every date of the ICMatrix, the call returns a table of undefined
    rows, whatever the inversion would do. *)
Theorem max_IC_without_complete_asset ic fd h ct :
  (∀ dt, dt ∈ index ic → cross_section ic fd dt = Ok []) →
  ∃ out, max_IC_weight LedoitWolf_fit linalg_inv ic fd h ct = Ok out ∧
         all_undefined out.
Proof.
  intros Hall.
  assert (Hbody : ∀ d, d ∈ index ic →
            max_IC_weight_body LedoitWolf_fit linalg_inv ic fd ct d = Ok None).
  { intros d Hd. unfold max_IC_weight_body. by rewrite (Hall d Hd). }
  destruct (for_dates_m_total
              (max_IC_weight_body LedoitWolf_fit linalg_inv ic fd ct)
              (index ic) (rows (empty_frame (index ic) (columns ic))))
    as [rs Hrs].
  { intros d Hd. by rewrite (Hbody d Hd). }
  exists (shift h (mkFrame (columns ic) rs)). split.
  - unfold max_IC_weight, max_IC_weight_loop. by rewrite Hrs.
  - apply shift_all_undefined. apply for_dates_m_Ok in Hrs. subst rs.
    intros r Hr. apply values_elem in Hr as [d Hr]. cbn [rows columns] in *.
    rewrite for_dates_spec in Hr.
    apply list_elem_of_fmap in Hr as (r0 & Hr & Hr0).
    apply list_elem_of_fmap in Hr0 as (d0 & -> & Hd0). simpl in Hr.
    rewrite bool_decide_eq_true_2 in Hr by done.
    unfold assigned in Hr. rewrite (Hbody d0 Hd0) in Hr. by inversion Hr.
Qed.

End SkippedCrossSections.

(** ** The weighted combination *)

Section WeightedCombination.

Context `{Preprocessing} `{SignalEvaluation} `{DataSource} `{Numerics}.

Variable standardize_type : option string.
Variable winsorization : bool.
Variable index_member : option Panel.

Notation std := (standardized standardize_type winsorization index_member).

Lemma cal_weight_source wm props dv api (d : factors) :
  price props ≠ None →
  (wants_extremes props → high props ≠ None ∧ low props ≠ None) →
  _cal_weight wm (with_source dv api props) d = _cal_weight wm props d.
Proof.
  destruct props as [dv0 api0 pr hi lo rt bp pe ma ce cx fw co ct rb].
  unfold wants_extremes, with_source. cbn [price high low ret_type].
  intros Hp Hx. destruct pr as [P|]; [|done].
  unfold _cal_weight.
  cbn [price high low ret_type dataview data_api benchmark_price period mask
       can_enter can_exit forward commission covariance_type rollback_period
       is_none orb].
  destruct rt as [t|]; [|reflexivity].
  destruct (mem t ["upside_ret"; "downside_ret"]%string) eqn:Em; [|reflexivity].
  destruct Hx as [Hh Hl].
  { exists t. split; [done|]. by apply mem_true. }
  destruct hi; [|done]. destruct lo; [|done]. reflexivity.
Qed.

Lemma cal_weight_with_price wm props P (d : factors) :
  price props = Some P →
  (wants_extremes props → high props ≠ None ∧ low props ≠ None) →
  _cal_weight wm props d
    = match get_factors_ic_df d (creator_of P props) (ret_type props) with
      | (Raise e, d') => (Raise e, d')
      | (Ok ic_df, d') =>
          (if String.eqb wm "max_IR" then
             max_IR_weight lw_fit np_linalg_inv ic_df (period props)
                           (rollback_period props) (covariance_type props)
           else if String.eqb wm "ic_weight" then
             Ok (ic_weight ic_df (period props) (rollback_period props))
           else if String.eqb wm "ir_weight" then
             Ok (ir_weight np_sqrt ic_df (period props) (rollback_period props))
           else if String.eqb wm "max_IC" then
             max_IC_weight lw_fit np_linalg_inv ic_df d' (period props)
                           (covariance_type props)
           else Raise TypeError,
           d')
      end.
Proof.
  destruct props as [dv0 api0 pr hi lo rt bp pe ma ce cx fw co ct rb].
  unfold wants_extremes, creator_of. cbn [price high low ret_type].
  intros -> Hx. unfold _cal_weight.
  cbn [price high low ret_type dataview data_api benchmark_price period mask
       can_enter can_exit forward commission covariance_type rollback_period
       is_none orb].
  destruct rt as [t|]; [|reflexivity].
  destruct (mem t ["upside_ret"; "downside_ret"]%string) eqn:Em; [|reflexivity].
  destruct Hx as [Hh Hl].
  { exists t. split; [done|]. by apply mem_true. }
  destruct hi; [|done]. destruct lo; [|done]. reflexivity.
Qed.

Lemma get_factors_ic_df_run (d : factors) sc rt :
  return_column rt ∈ ["return"; "upside_ret"; "downside_ret"]%string →
  NoDup (keys d) → d ≠ [] →
  (∀ f, f ∈ d → has_return sc (return_column rt) f.2 = true) →
  ∃ ic_df, get_factors_ic_df d sc rt = (Ok ic_df, map_panels fillinf d) ∧
           columns ic_df = keys d.
Proof.
  intros Hrt Hnd Hne Hall. unfold get_factors_ic_df.
  change (match rt with None => "return"%string | Some s => s end)
    with (return_column rt).
  rewrite (mem_elem _ _ Hrt). cbn [negb].
  destruct (all_times_nonempty d Hne) as [times ->].
  pose proof (ic_table_loop_run sc (return_column rt) [] d [] Hnd Hall) as Hrun.
  change ([] ++ ?l) with l in Hrun. rewrite Hrun.
  destruct (concat_ic ((λ f, (f.1, ic_of sc (return_column rt) f.2)) <$> d))
    as [t|e] eqn:Et.
  - simpl. eexists. split; [reflexivity|]. simpl.
    rewrite (concat_ic_columns _ _ Et). unfold keys.
    rewrite <- list_fmap_compose. by apply list_fmap_ext.
  - destruct (concat_ic_nonempty ((λ f, (f.1, ic_of sc (return_column rt) f.2))
                                    <$> d)) as [t Ht].
    + destruct d; done.
    + congruence.
Qed.

Lemma index_of_elem name l : name ∈ l → ∃ j, index_of name l = Some j.
Proof.
  induction l as [|x l IH]; intros Hn; [inversion Hn|]. simpl.
  destruct (String.eqb_spec x name) as [->|Hne]; [eauto|].
  apply elem_of_cons in Hn as [->|Hn]; [done|].
  destruct (IH Hn) as [j ->]. simpl. eauto.
Qed.

Lemma weight_column_elem weight name :
  name ∈ columns weight → ∃ col, weight_column weight name = Ok col.
Proof.
  intros Hn. unfold weight_column.
  destruct (index_of_elem name (columns weight) Hn) as [j ->]. eauto.
Qed.

Lemma weighted_run weight (d : factors) :
  (∀ f, f ∈ d → f.1 ∈ columns weight) →
  (∀ f, f ∈ d → p_columns f.2 ≠ ∅) →
  ∃ l, weighted weight d = Ok l ∧ length l = length d.
Proof.
  unfold weighted. induction d as [|[k p] d IH]; intros Hc Hp.
  - exists []. done.
  - destruct IH as (l & Hl & Hlen).
    { intros f Hf. apply Hc. by right. }
    { intros f Hf. apply Hp. by right. }
    cbn [mapM].
    destruct (weight_column_elem weight k) as [col Hcol].
    { apply (Hc (k, p)). left. }
    rewrite Hcol. cbn [mbind result_bind].
    destruct (Nat.eqb_spec (size (p_columns p)) 0) as [E|_].
    { exfalso. apply (Hp (k, p)); [left|]. by apply size_empty_inv, leibniz_equiv in E. }
    cbn [mbind result_bind]. rewrite Hl. cbn [mbind result_bind mret result_ret].
    eexists. split; [reflexivity|]. simpl. by rewrite Hlen.
Qed.

Lemma ic_weight_columns ic_df h n :
  columns (ic_weight ic_df h n) = columns ic_df.
Proof.
  assert (Hs : same_shape (ic_weight ic_df h n) ic_df).
  { apply shift_same_shape.
    apply (loop_same_shape (ic_weight_body ic_df n) ic_df), ic_body_length. }
  apply Hs.
Qed.

Lemma ir_weight_columns fsqrt ic_df h n :
  columns (ir_weight fsqrt ic_df h n) = columns ic_df.
Proof.
  assert (Hs : same_shape (ir_weight fsqrt ic_df h n) ic_df).
  { apply shift_same_shape.
    apply (loop_same_shape (ir_weight_body fsqrt ic_df n) ic_df),
      ir_body_length. }
  apply Hs.
Qed.

Lemma combine_weighted_run (d : factors) weight :
  valid_standardize_type standardize_type = true →
  d ≠ [] → columns weight = keys d →
  (∀ f, f ∈ d → p_columns f.2 ≠ ∅) →
  ∃ new_factor,
    (weighted_factors ← weighted weight d;
     new_factor ← reduce sum_weighted_factors weighted_factors;
     standarize_factors_frame standardize_type winsorization index_member
                              new_factor) = Ok new_factor.
Proof.
  intros Hv Hne Hc Hp.
  destruct (weighted_run weight d) as (l & Hl & Hlen); [|done|].
  { intros f Hf. rewrite Hc. unfold keys.
    apply list_elem_of_fmap. by exists f. }
  rewrite Hl. cbn [mbind result_bind].
  destruct l as [|x l]; [by destruct d|].
  cbn [reduce mbind result_bind]. unfold standarize_factors_frame.
  rewrite by_type_valid by done. eauto.
Qed.

(** X22.  Market data are fetched only when something is missing: when
    the configuration brings the price and, for the two extreme return
    types, the high and the low as well, combine_factors never looks at
    dataview or data_api; it returns the same, and leaves the same
    mapping, whatever they are. *)
Theorem data_source_unused_when_prices_given fd wm props dv api :
  price props ≠ None →
  (wants_extremes props → high props ≠ None ∧ low props ≠ None) →
  combine_factors standardize_type winsorization index_member fd wm
                  (with_source dv api props)
    = combine_factors standardize_type winsorization index_member fd wm props.
Proof.
  intros Hp Hx. unfold combine_factors. destruct fd as [d|]; [|done].
  destruct (_ <? 2)%nat; [done|].
  destruct (standarize_factors _ _ _ _ _) as [[u|e] d']; [|done].
  destruct (mem wm _); [|done]. by rewrite cal_weight_source.
Qed.

Lemma index_first_empty : index_first ∅ = Raise IndexError.
Proof. unfold index_first, dates_of. by rewrite elements_empty. Qed.

Lemma cal_weight_no_dates wm props k0 (p0 : Panel) (rest : factors) :
  price props = None → p_index p0 = ∅ →
  _cal_weight wm props ((k0, p0) :: rest)
    = (Raise IndexError, (k0, p0) :: rest).
Proof.
  destruct props as [dv0 api0 pr hi lo rt bp pe ma ce cx fw co ct rb].
  cbn [price]. intros -> He. unfold _cal_weight.
  cbn [price high low ret_type dataview data_api is_none orb].
  rewrite He, index_first_empty. reflexivity.
Qed.

(** X23.  Without a price in the configuration the weighted schemes
    fetch market data for the dates of the first factor; when the first
    factor, once standardized, has no date at all, combine_factors
    raises IndexError, and the caller's mapping is left standardized. *)
Theorem missing_price_needs_dates_of_the_first k0 p0 rest wm props :
  valid_standardize_type standardize_type = true →
  NoDup (keys ((k0, p0) :: rest)) → (1 ≤ length rest)%nat →
  wm ∈ ["max_IR"; "max_IC"; "ic_weight"; "ir_weight"]%string →
  price props = None → p_index (std p0) = ∅ →
  combine_factors standardize_type winsorization index_member
                  (Some ((k0, p0) :: rest)) wm props
    = (Raise IndexError, Some (map_panels std ((k0, p0) :: rest))).
Proof.
  intros Hv Hnd Hlen Hwm Hp He. unfold combine_factors.
  unfold keys at 1. rewrite length_fmap. simpl length.
  destruct (Nat.ltb_spec (S (length rest)) 2); [lia|].
  pose proof (standarize_factors_run standardize_type winsorization
                index_member [] ((k0, p0) :: rest) Hv Hnd) as Hrun.
  change ([] ++ ?l) with l in Hrun. rewrite Hrun.
  rewrite (mem_elem _ _ Hwm).
  change (map_panels std ((k0, p0) :: rest))
    with ((k0, std p0) :: map_panels std rest).
  by rewrite cal_weight_no_dates.
Qed.

(** X24.  The two rolling schemes always deliver: with a recognised
    standardize_type, at least two factors under distinct keys, the
    price in the configuration (and the high and the low for the extreme
    return types), a recognised ret_type, the return column in the
    signal table of every standardized factor and at least one asset in
    every factor, combine_factors with "ic_weight" or "ir_weight"
    returns a combined factor, and the panels of the caller's mapping
    end up standardized and then sanitized. *)
Theorem rolling_combination_returns fd wm props P :
  valid_standardize_type standardize_type = true →
  NoDup (keys fd) → (2 ≤ length fd)%nat →
  wm ∈ ["ic_weight"; "ir_weight"]%string →
  price props = Some P →
  (wants_extremes props → high props ≠ None ∧ low props ≠ None) →
  return_column (ret_type props)
    ∈ ["return"; "upside_ret"; "downside_ret"]%string →
  (∀ f, f ∈ fd →
     has_return (creator_of P props) (return_column (ret_type props))
                (std f.2) = true) →
  (∀ f, f ∈ fd → p_columns (fillinf (std f.2)) ≠ ∅) →
  ∃ new_factor,
    combine_factors standardize_type winsorization index_member
                    (Some fd) wm props
      = (Ok new_factor, Some (map_panels fillinf (map_panels std fd))).
Proof.
  intros Hv Hnd Hlen Hwm Hp Hx Hrt Hret Hcols. unfold combine_factors.
  unfold keys at 1. rewrite length_fmap.
  destruct (Nat.ltb_spec (length fd) 2); [lia|].
  pose proof (standarize_factors_run standardize_type winsorization
                index_member [] fd Hv Hnd) as Hrun.
  change ([] ++ ?l) with l in Hrun. rewrite Hrun.
  rewrite mem_elem by set_solver.
  rewrite (cal_weight_with_price wm props P _ Hp Hx).
  destruct (get_factors_ic_df_run (map_panels std fd) (creator_of P props)
              (ret_type props)) as (ic_df & Hget & Hic); try done.
  { by rewrite map_panels_keys. }
  { destruct fd; [simpl in Hlen; lia | done]. }
  { intros f Hf. apply list_elem_of_fmap in Hf as (g & -> & Hg).
    by apply Hret. }
  rewrite Hget. rewrite map_panels_keys in Hic.
  assert (Hne : map_panels fillinf (map_panels std fd) ≠ []).
  { destruct fd; [simpl in Hlen; lia | done]. }
  assert (Hk : keys (map_panels fillinf (map_panels std fd)) = keys fd)
    by (by rewrite !map_panels_keys).
  assert (Hall : ∀ f, f ∈ map_panels fillinf (map_panels std fd) →
                      p_columns f.2 ≠ ∅).
  { intros f Hf. apply list_elem_of_fmap in Hf as (g & -> & Hg).
    apply list_elem_of_fmap in Hg as (g' & -> & Hg'). by apply Hcols. }
  apply elem_of_cons in Hwm as [->|Hwm].
  - change ("ic_weight" =? "max_IR")%string with false.
    change ("ic_weight" =? "ic_weight")%string with true. cbv iota.
    destruct (combine_weighted_run
                (map_panels fillinf (map_panels std fd))
                (ic_weight ic_df (period props) (rollback_period props)))
      as [nf Hnf]; try done.
    { by rewrite ic_weight_columns, Hk. }
    rewrite Hnf. eauto.
  - apply elem_of_cons in Hwm as [->|Hwm]; [|inversion Hwm].
    change ("ir_weight" =? "max_IR")%string with false.
    change ("ir_weight" =? "ic_weight")%string with false.
    change ("ir_weight" =? "ir_weight")%string with true. cbv iota.
    destruct (combine_weighted_run
                (map_panels fillinf (map_panels std fd))
                (ir_weight np_sqrt ic_df (period props) (rollback_period props)))
      as [nf Hnf]; try done.
    { by rewrite ir_weight_columns, Hk. }
    rewrite Hnf. eauto.
Qed.

End WeightedCombination.

(* ===================================================================== *)
(** ** The further properties on examples                                 *)
(* ===================================================================== *)

Ltac distinct_keys :=
  repeat (apply NoDup_cons; split; [not_in_list|]); apply NoDup_nil; exact I.

(** X2, witness: a window of 4 on the three dates of [ic_three]. *)
Lemma window_longer_than_history_witness :
  Z.of_nat (length (rows ic_three)) < 4 ∧
  all_undefined (ic_weight ic_three 0 4) ∧
  ∃ out, max_IR_weight fit_fails inv_exact ic_three 0 4 "simple" = Ok out.
Proof.
  assert (Hn : Z.of_nat (length (rows ic_three)) < 4) by reflexivity.
  destruct (window_longer_than_history fsqrt_floor fit_fails inv_exact
              ic_three 0 4 "simple" Hn) as (H1 & _ & out & H3 & _).
  split; [exact Hn|]. split; [exact H1|]. by exists out.
Defined.

(** X3, witness: a holding period of 3 on the three dates of [ic_three]. *)
Lemma holding_period_past_the_end_witness :
  Z.of_nat (length (index ic_three)) ≤ 3 ∧
  all_undefined (ic_weight ic_three 3 1).
Proof.
  assert (Hh : Z.of_nat (length (index ic_three)) ≤ 3)
    by (intros C; discriminate C).
  split; [exact Hh|].
  exact (proj1 (holding_period_past_the_end fsqrt_floor fit_fails inv_exact
                  ic_three [] 3 1 "simple" Hh)).
Defined.

(** X4, witness: a holding period of -1 on [ic_three]. *)
Lemma negative_holding_period_looks_ahead_witness :
  (0 < 1)%nat ∧
  shifted_up_by 1 (ic_weight ic_three (-1) 1) (ic_weight_loop ic_three 1).
Proof.
  assert (Hu : (0 < 1)%nat) by constructor.
  split; [exact Hu|].
  exact (proj1 (negative_holding_period_looks_ahead fsqrt_floor fit_fails
                  inv_exact ic_three [] 1 1 "simple" Hu)).
Defined.

Lemma ic_gappy_ascending : StronglySorted Z.lt (index ic_gappy).
Proof. ascending. Qed.

(** X5, witness: the window of 2 that ends at the last date of
    [ic_gappy] holds one undefined row; the weights come from the one
    observed row. *)
Lemma undefined_rows_fill_the_window_witness :
  StronglySorted Z.lt (index ic_gappy) ∧ (2 < length (rows ic_gappy))%nat ∧
  1 ≤ 2 ∧ 2 ≤ Z.of_nat 3 ∧
  observed_rows (window_at 2 2 (values ic_gappy)) = [[q 1; q 3]] ∧
  values (ic_weight_loop ic_gappy 2) !! 2%nat
    = Some (normalize (mean_axis0 2 [[q 1; q 3]])).
Proof.
  assert (Hj : (2 < length (rows ic_gappy))%nat) by (vm_compute; lia).
  assert (H1 : 1 ≤ 2) by (intros C; discriminate C).
  assert (H2 : 2 ≤ Z.of_nat 3) by (intros C; discriminate C).
  split; [exact ic_gappy_ascending|]. split; [exact Hj|].
  split; [exact H1|]. split; [exact H2|]. split; [reflexivity|].
  exact (proj1 (undefined_rows_fill_the_window fsqrt_floor ic_gappy 2 2
                  ic_gappy_ascending Hj H1 H2)).
Defined.

Lemma ic_blank_ascending : StronglySorted Z.lt (index ic_blank).
Proof. ascending. Qed.

(** X6, witness: factor "b" of [ic_blank] has no IC; factor "a" gets no
    weight either. *)
Lemma one_blank_factor_blanks_the_row_witness :
  StronglySorted Z.lt (index ic_blank) ∧ (1 < length (rows ic_blank))%nat ∧
  values (ic_weight_loop ic_blank 2) !! 1%nat = Some [NaN; NaN].
Proof.
  assert (Hj : (1 < length (rows ic_blank))%nat) by (vm_compute; lia).
  assert (H1 : 1 ≤ 2) by (intros C; discriminate C).
  assert (H2 : 2 ≤ Z.of_nat 2) by (intros C; discriminate C).
  assert (Hc : (1 < length (columns ic_blank))%nat) by (vm_compute; lia).
  split; [exact ic_blank_ascending|]. split; [exact Hj|].
  refine (proj1 (one_blank_factor_blanks_the_row fsqrt_floor ic_blank 2 1 1
                   ic_blank_ascending Hj H1 H2 Hc _)).
  intros r Hr. vm_compute in Hr.
  repeat (apply elem_of_cons in Hr as [->|Hr]; [reflexivity|]).
  inversion Hr.
Defined.

Lemma ic_opposite_ascending : StronglySorted Z.lt (index ic_opposite).
Proof. ascending. Qed.

(** X7, witness: the two opposite ICs of [ic_opposite]. *)
Lemma zero_sum_row_has_no_finite_weight_witness :
  feq (fsum (mean_axis0 2 (window_at 1 0 (values ic_opposite)))) fzero ∧
  ∃ r, values (ic_weight_loop ic_opposite 1) !! 0%nat = Some r ∧
       Forall (λ x, isfinite x = false) r.
Proof.
  assert (Hz : feq (fsum (mean_axis0 (length (columns ic_opposite))
                            (window_at 1 0 (values ic_opposite)))) fzero)
    by (vm_compute; reflexivity).
  split; [exact Hz|].
  assert (Hj : (0 < length (rows ic_opposite))%nat) by (vm_compute; lia).
  assert (H1 : 1 ≤ 1) by (intros C; discriminate C).
  assert (H2 : 1 ≤ Z.of_nat 1) by (intros C; discriminate C).
  destruct (zero_sum_row_has_no_finite_weight ic_opposite 1 0
              ic_opposite_ascending Hj H1 H2 Hz) as (r & Hr & _ & Hbad).
  by exists r.
Defined.

Lemma factors_gap_keys : NoDup (keys factors_gap).
Proof. distinct_keys. Qed.

(** X8, witness: [factors_gap] and the plain return. *)
Lemma ic_estimator_returns_exactly_when_witness :
  "return"%string ∈ ["return"; "upside_ret"; "downside_ret"]%string ∧
  NoDup (keys factors_gap) ∧
  ∃ ic_df, (get_factors_ic_df factors_gap demo_creator (Some "return"%string)).1
           = Ok ic_df.
Proof.
  assert (Hrt : "return"%string ∈ ["return"; "upside_ret"; "downside_ret"]%string)
    by left.
  split; [exact Hrt|]. split; [exact factors_gap_keys|].
  apply (proj1 (ic_estimator_returns_exactly_when factors_gap demo_creator
                  "return"%string Hrt factors_gap_keys)).
  - discriminate.
  - intros f _. reflexivity.
Defined.

(** X9, witness: [factors_inf] after a run of the estimator; the infinite
    cell of factor "a" has been replaced in the caller's mapping. *)
Lemma ic_estimator_sanitizes_the_mapping_witness :
  ∃ ic_df fd',
    get_factors_ic_df factors_inf demo_creator None = (Ok ic_df, fd') ∧
    fd' = map_panels fillinf factors_inf ∧
    mapping_cell (Some fd') "a" 20160624 "x" = NaN.
Proof.
  eexists. eexists.
  assert (Hk : NoDup (keys factors_inf)) by distinct_keys.
  split; [vm_compute; reflexivity|].
  split; [|vm_compute; reflexivity].
  refine (proj1 (ic_estimator_sanitizes_the_mapping factors_inf demo_creator
                   None _ _ Hk _)).
  vm_compute. reflexivity.
Defined.

(** X10, witness: on the second date of [factors_gap] factor "b" has no
    IC, and the row of the ICMatrix is undefined for "a" too. *)
Lemma ic_row_defined_iff_every_factor_witness :
  ∃ ic_df,
    (get_factors_ic_df factors_gap demo_creator (Some "return"%string)).1
      = Ok ic_df ∧
    loc_row ic_df 20160627 = Ok [NaN; NaN].
Proof.
  assert (Hrt : "return"%string ∈ ["return"; "upside_ret"; "downside_ret"]%string)
    by left.
  destruct (ic_row_defined_iff_every_factor factors_gap demo_creator
              "return"%string 20160627 Hrt factors_gap_keys)
    as (ic_df & H1 & H2).
  - intros f _. reflexivity.
  - exists ("a"%string, panel_full). split; [left|]. vm_compute. reflexivity.
  - exists ic_df. split; [exact H1|]. rewrite H2. vm_compute. reflexivity.
Defined.

(** X1, witness: the IC weights of [ic_three] have its dates and columns. *)
Lemma weight_matrix_shape_witness :
  same_shape (ic_weight ic_three 0 2) ic_three.
Proof.
  exact (proj1 (weight_matrix_shape fsqrt_floor fit_fails inv_exact
                  ic_three [] 0 2 "simple")).
Defined.

Lemma three_factors_keys : NoDup (keys three_factors).
Proof. distinct_keys. Qed.

(** X11, witness: three factors, standardised by rank. *)
Lemma equal_weight_any_number_witness :
  valid_standardize_type (Some "rank"%string) = true ∧
  NoDup (keys three_factors) ∧ (1 ≤ 2)%nat ∧
  combine_factors (Some "rank"%string) false None (Some three_factors)
                  "equal_weight" generate_props
    = (Ok (standardized (Some "rank"%string) false None
             (foldl padd (standardized (Some "rank"%string) false None panel_a)
                [standardized (Some "rank"%string) false None panel_b;
                 standardized (Some "rank"%string) false None panel_a])),
       Some (map_panels (standardized (Some "rank"%string) false None)
                        three_factors)).
Proof.
  assert (Hv : valid_standardize_type (Some "rank"%string) = true) by reflexivity.
  assert (Hl : (1 ≤ 2)%nat) by (constructor; constructor).
  split; [exact Hv|]. split; [exact three_factors_keys|]. split; [exact Hl|].
  exact (equal_weight_any_number (Some "rank"%string) false None
           "a"%string panel_a
           [("b"%string, panel_b); ("c"%string, panel_a)] generate_props
           Hv three_factors_keys Hl).
Defined.

(** X13, witness: max_IR_weight returns on [ic_three] with a window of 3,
    so the covariance of the one full window has an inverse. *)
Lemma max_IR_returns_exactly_when_witness :
  ∃ inv, inv_exact (cov_block fit_fails "simple" 2
                      (snd <$> tail 3 (upto ic_three 20160628))) = Some inv ∧
         length inv = 2%nat.
Proof.
  assert (Hex : ∃ out, max_IR_weight fit_fails inv_exact ic_three 0 3 "simple"
                       = Ok out) by (eexists; vm_compute; reflexivity).
  assert (Hd : 20160628 ∈ index ic_three)
    by (apply (list_elem_of_lookup_2 _ 2%nat); reflexivity).
  assert (Hn : 3 ≤ Z.of_nat (length (tail 3 (upto ic_three 20160628))))
    by (vm_compute; discriminate).
  exact (proj1 (max_IR_returns_exactly_when fit_fails inv_exact ic_three 0 3
                  "simple") Hex 20160628 Hd Hn).
Defined.

(** X14, witness: the ICMatrix names factor "b", the mapping has only "a". *)
Lemma max_IC_needs_every_factor_and_date_witness :
  index ic_opposite ≠ [] ∧
  (∃ name, name ∈ columns ic_opposite
           ∧ dict_get name [("a"%string, panel_a)] = None) ∧
  max_IC_weight fit_fails inv_exact ic_opposite [("a"%string, panel_a)] 0
                "simple" = Raise KeyError.
Proof.
  assert (Hi : index ic_opposite ≠ []) by discriminate.
  assert (Hm : ∃ name, name ∈ columns ic_opposite
                       ∧ dict_get name [("a"%string, panel_a)] = None).
  { exists "b"%string. split; [|reflexivity].
    apply (list_elem_of_lookup_2 _ 1%nat). reflexivity. }
  split; [exact Hi|]. split; [exact Hm|].
  exact (proj1 (max_IC_needs_every_factor_and_date fit_fails inv_exact
                  ic_opposite [("a"%string, panel_a)] 0 "simple") Hi Hm).
Defined.

Lemma two_factors_keys : NoDup (keys two_factors).
Proof. distinct_keys. Qed.

(** X15, witness: [two_factors] through orthogonalize. *)
Lemma orthogonalize_keeps_keys_witness :
  NoDup (keys two_factors) ∧
  ∃ out fd',
    orthogonalize (Some two_factors) (Some "z_score"%string) false None
      = (Ok out, fd') ∧
    keys out = ["a"; "b"]%string ∧
    fd' = Some (map_panels (sanitized false None) two_factors).
Proof.
  split; [exact two_factors_keys|].
  eexists. eexists. split; [vm_compute; reflexivity|].
  refine (orthogonalize_keeps_keys two_factors (Some "z_score"%string) false
            None _ _ two_factors_keys _).
  vm_compute. reflexivity.
Defined.

Lemma factors_uneven_keys : NoDup (keys factors_uneven).
Proof. distinct_keys. Qed.

(** X16, witness: factor "a" of [factors_uneven] has the date 20160627,
    factor "b" has not. *)
Lemma orthogonalize_needs_the_dates_of_the_first_witness :
  NoDup (keys factors_uneven) ∧
  20160627 ∈ p_index (sanitized false None panel_full) ∧
  20160627 ∉ p_index (sanitized false None panel_b) ∧
  ∃ e, orthogonalize (Some factors_uneven) (Some "z_score"%string) false None
       = (Raise e, Some (map_panels (sanitized false None) factors_uneven)).
Proof.
  assert (Hl : (1 ≤ length [("b"%string, panel_b)])%nat) by constructor.
  assert (Hf : ("b"%string, panel_b) ∈ factors_uneven)
    by (apply (list_elem_of_lookup_2 _ 1%nat); reflexivity).
  assert (Hin : 20160627 ∈ p_index (sanitized false None panel_full))
    by (vm_compute; reflexivity).
  assert (Hout : 20160627 ∉ p_index (sanitized false None panel_b))
    by (intros C; vm_compute in C; discriminate C).
  split; [exact factors_uneven_keys|]. split; [exact Hin|]. split; [exact Hout|].
  exact (orthogonalize_needs_the_dates_of_the_first "a"%string panel_full
           [("b"%string, panel_b)] (Some "z_score"%string) false None
           ("b"%string, panel_b) 20160627 factors_uneven_keys Hl Hf Hin Hout).
Defined.

(** X17, witness: the first row of the IC weights of the ICMatrix
    estimated from [factors_gap]. *)
Lemma ic_weight_on_estimated_ics_witness :
  ∃ ic_df fd',
    get_factors_ic_df factors_gap demo_creator (Some "return"%string)
      = (Ok ic_df, fd') ∧
    1 ≤ 1 ∧ (0 < length (rows ic_df))%nat ∧
    values (ic_weight_loop ic_df 1) !! 0%nat =
      Some (if Z.of_nat 1 <? 1 then nan_row 2
            else normalize (mean_axis0 2 (window_at 1 0 (values ic_df)))).
Proof.
  eexists. eexists.
  assert (H1 : 1 ≤ 1) by (intros C; discriminate C).
  split; [vm_compute; reflexivity|]. split; [exact H1|].
  match goal with
  | |- (0 < length (rows ?df))%nat ∧ _ =>
      assert (Hj : (0 < length (rows df))%nat) by (vm_compute; lia);
      split; [exact Hj|];
      refine (ic_weight_on_estimated_ics factors_gap demo_creator
                (Some "return"%string) df _ 1 0 _ H1 Hj)
  end.
  vm_compute. reflexivity.
Defined.



Lemma factors_disjoint_keys : NoDup (keys factors_disjoint).
Proof. distinct_keys. Qed.

Lemma factors_disjoint_no_common_asset (a : string) :
  ¬ ∀ f, f ∈ factors_disjoint → a ∈ p_columns (sanitized false None f.2).
Proof.
  intros Hall.
  assert (Hx : a ∈ p_columns (sanitized false None panel_x))
    by (apply (Hall ("a"%string, panel_x)); left).
  assert (Hy : a ∈ p_columns (sanitized false None panel_y))
    by (apply (Hall ("b"%string, panel_y)); right; left).
  change (a ∈ ({["x"%string]} : gset string)) in Hx.
  change (a ∈ ({["y"%string]} : gset string)) in Hy.
  apply elem_of_singleton in Hx. apply elem_of_singleton in Hy.
  rewrite Hx in Hy. discriminate Hy.
Qed.

(** X20, witness: the two factors of [factors_disjoint] share no asset. *)
Lemma orthogonalize_without_common_asset_witness :
  NoDup (keys factors_disjoint) ∧
  ∃ e, (e = ValueError ∨ e = KeyError) ∧
       orthogonalize (Some factors_disjoint) (Some "z_score"%string) false None
       = (Raise e, Some (map_panels (sanitized false None) factors_disjoint)).
Proof.
  assert (Hl : (1 ≤ length [("b"%string, panel_y)])%nat) by constructor.
  split; [exact factors_disjoint_keys|].
  exact (orthogonalize_without_common_asset "a"%string panel_x
           [("b"%string, panel_y)] (Some "z_score"%string) false None
           factors_disjoint_keys Hl factors_disjoint_no_common_asset).
Defined.

Lemma factors_apart_cross_sections dt :
  dt ∈ index ic_opposite → cross_section ic_opposite factors_apart dt = Ok [].
Proof.
  intros Hdt. change (dt ∈ [20160624]) in Hdt.
  apply elem_of_cons in Hdt as [->|Hdt]; [|inversion Hdt].
  vm_compute. reflexivity.
Qed.

(** X21, witness: on the one date of [ic_opposite] no asset has both
    factors of [factors_apart]. *)
Lemma max_IC_without_complete_asset_witness :
  cross_section ic_opposite factors_apart 20160624 = Ok [] ∧
  ∃ out, max_IC_weight fit_fails inv_exact ic_opposite factors_apart 0 "simple"
         = Ok out ∧ all_undefined out.
Proof.
  split; [vm_compute; reflexivity|].
  exact (max_IC_without_complete_asset fit_fails inv_exact ic_opposite
           factors_apart 0 "simple" factors_apart_cross_sections).
Defined.

Lemma props_priced_plain :
  wants_extremes props_priced →
  high props_priced ≠ None ∧ low props_priced ≠ None.
Proof.
  intros (t & Ht & Hin). change (Some "return"%string = Some t) in Ht.
  injection Ht as <-.
  apply elem_of_cons in Hin as [Hin|Hin]; [discriminate Hin|].
  apply elem_of_cons in Hin as [Hin|Hin]; [discriminate Hin|inversion Hin].
Qed.

(** X22, witness: [props_priced] with a data view and a data API handed
    in. *)
Lemma data_source_unused_when_prices_given_witness :
  price props_priced ≠ None ∧
  combine_factors (Some "rank"%string) false None (Some two_factors)
                  "ic_weight" (with_source (Some tt) (Some tt) props_priced)
    = combine_factors (Some "rank"%string) false None (Some two_factors)
                      "ic_weight" props_priced.
Proof.
  assert (Hp : price props_priced ≠ None) by discriminate.
  split; [exact Hp|].
  exact (data_source_unused_when_prices_given (Some "rank"%string) false None
           (Some two_factors) "ic_weight" props_priced (Some tt) (Some tt)
           Hp props_priced_plain).
Defined.

Lemma factors_undated_keys : NoDup (keys factors_undated).
Proof. distinct_keys. Qed.

(** X23, witness: the first factor of [factors_undated] has no date and
    the default configuration no price. *)
Lemma missing_price_needs_dates_of_the_first_witness :
  valid_standardize_type (Some "rank"%string) = true ∧
  NoDup (keys factors_undated) ∧
  price generate_props = None ∧
  p_index (standardized (Some "rank"%string) false None panel_undated) = ∅ ∧
  combine_factors (Some "rank"%string) false None (Some factors_undated)
                  "ic_weight" generate_props
    = (Raise IndexError,
       Some (map_panels (standardized (Some "rank"%string) false None)
                        factors_undated)).
Proof.
  assert (Hv : valid_standardize_type (Some "rank"%string) = true) by reflexivity.
  assert (Hl : (1 ≤ length [("b"%string, panel_b)])%nat) by constructor.
  assert (Hwm : "ic_weight"%string
                  ∈ ["max_IR"; "max_IC"; "ic_weight"; "ir_weight"]%string)
    by (right; right; left).
  assert (Hp : price generate_props = None) by reflexivity.
  assert (He : p_index (standardized (Some "rank"%string) false None
                          panel_undated) = ∅) by reflexivity.
  split; [exact Hv|]. split; [exact factors_undated_keys|].
  split; [exact Hp|]. split; [exact He|].
  exact (missing_price_needs_dates_of_the_first (Some "rank"%string) false None
           "a"%string panel_undated [("b"%string, panel_b)] "ic_weight"
           generate_props Hv factors_undated_keys Hl Hwm Hp He).
Defined.

Lemma two_factors_have_assets f :
  f ∈ two_factors →
  p_columns (fillinf (standardized (Some "rank"%string) false None f.2)) ≠ ∅.
Proof.
  intros Hf. apply (non_empty_inhabited_L "x"%string).
  apply elem_of_cons in Hf as [->|Hf]; [vm_compute; reflexivity|].
  apply elem_of_cons in Hf as [->|Hf]; [vm_compute; reflexivity|inversion Hf].
Qed.

(** X24, witness: [two_factors] combined by "ic_weight" under
    [props_priced]. *)
Lemma rolling_combination_returns_witness :
  valid_standardize_type (Some "rank"%string) = true ∧
  NoDup (keys two_factors) ∧ (2 ≤ length two_factors)%nat ∧
  price props_priced = Some panel_a ∧
  ∃ new_factor,
    combine_factors (Some "rank"%string) false None (Some two_factors)
                    "ic_weight" props_priced
      = (Ok new_factor,
         Some (map_panels fillinf
                 (map_panels (standardized (Some "rank"%string) false None)
                             two_factors))).
Proof.
  assert (Hv : valid_standardize_type (Some "rank"%string) = true) by reflexivity.
  assert (Hl : (2 ≤ length two_factors)%nat) by constructor.
  assert (Hwm : "ic_weight"%string ∈ ["ic_weight"; "ir_weight"]%string) by left.
  assert (Hp : price props_priced = Some panel_a) by reflexivity.
  assert (Hrt : return_column (ret_type props_priced)
                  ∈ ["return"; "upside_ret"; "downside_ret"]%string) by left.
  split; [exact Hv|]. split; [exact two_factors_keys|]. split; [exact Hl|].
  split; [exact Hp|].
  refine (rolling_combination_returns (Some "rank"%string) false None
            two_factors "ic_weight" props_priced panel_a Hv two_factors_keys
            Hl Hwm Hp props_priced_plain Hrt _ two_factors_have_assets).
  intros f _. reflexivity.
Defined.
